(** * The document redline engine of nego: extraction and in-file mutation

    A shallow embedding of [app/services/corpus_parser.py] (the Extractor,
    [CorpusParserService._parse_docx]) and of
    [app/services/redline_editor.py] (the Mutator,
    [DocxRedlineEditorService.apply_decisions]), with the properties the
    specification states about them.

    Conventions of the embedding.
    - Python [str] and [bytes] are [string]; text is taken to be ASCII, so
      [str.lower], [str.strip] and [str.split] act on ASCII letters and ASCII
      white space.
    - An [xml.etree.ElementTree.Element] is a node of a finite tree.  Python
      compares and hashes elements by object identity; every node therefore
      carries an identity [eid].  Nodes created while the program runs
      ([copy.deepcopy], [ET.Element], [ET.SubElement]) take their identity
      from a counter.
    - The functions of Python's library that the program calls and that are
      not part of the repository are parameters of the development:
      [ET.fromstring] with the text of the exception it raises,
      [ET.tostring], [difflib.SequenceMatcher.ratio], [int] on strings, the
      clock read by [datetime.now], and the exception that [ZipFile.read]
      raises on an entry it cannot read.
    - A similarity score is a rational number: [ratio] is [2*M/T] and every
      threshold of the program is a decimal literal.  The one place where the
      program subtracts two scores does it in floating point; there the
      scores are taken as the floats the program holds.
    - A .docx file is used after [zipfile.ZipFile] has opened it: an ordered
      list of entries (name, bytes); [Raise exc] stands for bytes that cannot
      be opened, with the text of the exception.  Whether an entry can be
      read (its checksum, its compression, its encryption) is not part of
      that list: [read_error] tells it.  The archive that [apply_decisions]
      writes is the list of entries it passes to [writestr]. *)

From Stdlib Require Import String Ascii List ZArith QArith Bool Lia Arith.
From Stdlib Require Import DecimalString.
From Stdlib Require Import Sorted OrderedTypeEx.
From Stdlib Require PrimFloat Uint63.
Import ListNotations.
Open Scope string_scope.
Open Scope list_scope.
Open Scope nat_scope.

(* ------------------------------------------------------------------ *)
(** * Python strings *)

Module Py.

(** [str.isspace] on one ASCII character: TAB..CR, FS..US and SPACE. *)
Definition isspace (c : ascii) : bool :=
  let n := nat_of_ascii c in
  ((9 <=? n) && (n <=? 13)) || ((28 <=? n) && (n <=? 32)).

Fixpoint lstrip_l (l : list ascii) : list ascii :=
  match l with
  | c :: r => if isspace c then lstrip_l r else l
  | [] => []
  end.

Definition strip_l (l : list ascii) : list ascii :=
  rev (lstrip_l (rev (lstrip_l l))).

(** [s.strip()] *)
Definition strip (s : string) : string :=
  string_of_list_ascii (strip_l (list_ascii_of_string s)).

(** The loop of [s.split()]: [cur] is the current word, reversed. *)
Fixpoint words (cur : list ascii) (l : list ascii) : list string :=
  match l with
  | [] => match cur with [] => [] | _ => [string_of_list_ascii (rev cur)] end
  | c :: r =>
      if isspace c
      then match cur with
           | [] => words [] r
           | _ => string_of_list_ascii (rev cur) :: words [] r
           end
      else words (c :: cur) r
  end.

(** [s.split()] *)
Definition split (s : string) : list string := words [] (list_ascii_of_string s).

(** [sep.join(l)] *)
Fixpoint join (sep : string) (l : list string) : string :=
  match l with
  | [] => ""
  | [x] => x
  | x :: r => (x ++ sep ++ join sep r)%string
  end.

Definition lower_char (c : ascii) : ascii :=
  let n := nat_of_ascii c in
  if (65 <=? n) && (n <=? 90) then ascii_of_nat (n + 32) else c.

(** [s.lower()] *)
Fixpoint lower (s : string) : string :=
  match s with
  | "" => ""
  | String c r => String (lower_char c) (lower r)
  end.

(** Truth value of a string: [bool(s)]. *)
Definition truthy (s : string) : bool := negb (s =? "")%string.

(** [a or b] on strings. *)
Definition sor (a b : string) : string := if truthy a then a else b.

(** [x or ""] for an optional string. *)
Definition or_empty (x : option string) : string :=
  match x with Some s => s | None => "" end.

(** [s.startswith(p)] *)
Definition startswith (s p : string) : bool := String.prefix p s.

Definition rev_string (s : string) : string :=
  string_of_list_ascii (rev (list_ascii_of_string s)).

(** [s.endswith(p)] *)
Definition endswith (s p : string) : bool :=
  String.prefix (rev_string p) (rev_string s).

(** [sub in s] *)
Fixpoint contains (sub s : string) : bool :=
  String.prefix sub s ||
  match s with
  | "" => false
  | String _ r => contains sub r
  end.

(** [s.find(sub, start)], [None] for -1; [i] is the offset of [s] in the
    string searched. *)
Fixpoint find_at (sub s : string) (start i : nat) : option nat :=
  if (start <=? i) && String.prefix sub s then Some i
  else match s with
       | "" => None
       | String _ r => find_at sub r start (S i)
       end.

Definition find (s sub : string) (start : nat) : option nat := find_at sub s start 0.

(** The part of [s] after the first occurrence of [c], if [c] occurs. *)
Fixpoint after_first (c : ascii) (s : string) : option string :=
  match s with
  | "" => None
  | String d r => if Ascii.eqb c d then Some r else after_first c r
  end.

(** [s.split(c)[-1]]: the part of [s] after the last occurrence of [c]. *)
Fixpoint after_last (c : ascii) (s : string) : string :=
  match s with
  | "" => ""
  | String d r =>
      if Ascii.eqb c d
      then after_last c r
      else match after_first c r with
           | Some _ => after_last c r
           | None => s
           end
  end.

(** [s.split(c)] for a one-character separator. *)
Fixpoint split_on (c : ascii) (cur : list ascii) (l : list ascii) : list string :=
  match l with
  | [] => [string_of_list_ascii (rev cur)]
  | d :: r =>
      if Ascii.eqb c d
      then string_of_list_ascii (rev cur) :: split_on c [] r
      else split_on c (d :: cur) r
  end.

(** [s[:n]] *)
Fixpoint take (n : nat) (s : string) : string :=
  match n, s with
  | S m, String c r => String c (take m r)
  | _, _ => ""
  end.

(** [str(n)] for an integer. *)
Definition str_of_Z (z : Z) : string := NilZero.string_of_int (Z.to_int z).

(** [x in l] for a list of strings. *)
Definition mem (x : string) (l : list string) : bool :=
  existsb (String.eqb x) l.

(** The loop [for v in l: if v not in out: out.append(v)]. *)
Definition unique (l : list string) : list string :=
  fold_left (fun out v => if mem v out then out else out ++ [v]) l [].

Fixpoint insert_sorted (x : string) (l : list string) : list string :=
  match l with
  | [] => [x]
  | y :: r => if String.ltb x y then x :: l else y :: insert_sorted x r
  end.

(** [l.sort()] on strings (code point order; stable). *)
Definition sort (l : list string) : list string :=
  fold_left (fun acc x => insert_sorted x acc) l [].

Definition isdigit (c : ascii) : bool :=
  let n := nat_of_ascii c in (48 <=? n) && (n <=? 57).

(** [PurePosixPath(p).suffix] *)
Definition path_name (p : string) : string :=
  last (filter (fun c => truthy c && negb (c =? ".")%string)
               (split_on "/" [] (list_ascii_of_string p))) "".

Fixpoint rfind_dot (l : list ascii) (i : nat) (best : option nat) : option nat :=
  match l with
  | [] => best
  | c :: r => rfind_dot r (S i) (if Ascii.eqb c "." then Some i else best)
  end.

Definition path_suffix (p : string) : string :=
  let name := path_name p in
  match rfind_dot (list_ascii_of_string name) 0 None with
  | Some i =>
      if (0 <? i) && (i <? String.length name - 1)
      then substring i (String.length name - i) name
      else ""
  | None => ""
  end.

(** A dict with insertion order: [d[k] = v] and [d.get(k)]. *)
Section Dict.
Context {K V : Type} (eqb : K -> K -> bool).

Fixpoint dict_get (d : list (K * V)) (k : K) : option V :=
  match d with
  | [] => None
  | (k', v) :: r => if eqb k k' then Some v else dict_get r k
  end.

Fixpoint dict_set (d : list (K * V)) (k : K) (v : V) : list (K * V) :=
  match d with
  | [] => [(k, v)]
  | (k', v') :: r => if eqb k k' then (k', v) :: r else (k', v') :: dict_set r k v
  end.

Definition dict_mem (d : list (K * V)) (k : K) : bool :=
  match dict_get d k with Some _ => true | None => false end.
End Dict.

End Py.

Definition NL : string := String (ascii_of_nat 10) "".

(* ------------------------------------------------------------------ *)
(** * Element trees *)

#[local] Set Warnings "-register-all".

Inductive Element : Type :=
  Elem (eid : nat) (tag : string) (attrib : list (string * string))
       (text tail : option string) (children : list Element).

Definition eid (e : Element) : nat := let 'Elem i _ _ _ _ _ := e in i.
Definition tag (e : Element) : string := let 'Elem _ t _ _ _ _ := e in t.
Definition attrib (e : Element) : list (string * string) := let 'Elem _ _ a _ _ _ := e in a.
Definition text (e : Element) : option string := let 'Elem _ _ _ t _ _ := e in t.
Definition tail (e : Element) : option string := let 'Elem _ _ _ _ t _ := e in t.
Definition children (e : Element) : list Element := let 'Elem _ _ _ _ _ c := e in c.

(** Induction over a tree and the list of its children at once. *)
Section ElementInd.
Variable P : Element -> Prop.
Variable Q : list Element -> Prop.
Hypothesis HElem : forall i t a x y cs, Q cs -> P (Elem i t a x y cs).
Hypothesis Hnil : Q [].
Hypothesis Hcons : forall e cs, P e -> Q cs -> Q (e :: cs).

Fixpoint Element_ind2 (e : Element) : P e :=
  match e with
  | Elem i t a x y cs =>
      HElem i t a x y cs
        ((fix go (l : list Element) : Q l :=
            match l with
            | [] => Hnil
            | c :: r => Hcons c r (Element_ind2 c) (go r)
            end) cs)
  end.
End ElementInd.

Module Xml.

Definition W_NS : string := "http://schemas.openxmlformats.org/wordprocessingml/2006/main".
Definition XML_NS : string := "http://www.w3.org/XML/1998/namespace".

(** [f"{{{DOCX_W_NS}}}name"], the name a path [w:name] stands for. *)
Definition w (name : string) : string := ("{" ++ W_NS ++ "}" ++ name)%string.

(** [e.iter()]: the element and everything below it, in document order. *)
Fixpoint iter (e : Element) : list Element :=
  match e with
  | Elem _ _ _ _ _ cs => e :: flat_map iter cs
  end.

(** Everything strictly below [e], in document order. *)
Definition descendants (e : Element) : list Element := flat_map iter (children e).

(** [e.findall(".//w:name", DOCX_NS)] *)
Definition findall (name : string) (e : Element) : list Element :=
  filter (fun x => (tag x =? w name)%string) (descendants e).

(** [e.attrib.get(key)] *)
Definition get (e : Element) (key : string) : option string :=
  Py.dict_get String.eqb (attrib e) key.

(** [e.set(key, value)] *)
Definition set (e : Element) (key value : string) : Element :=
  let 'Elem i t a x y cs := e in Elem i t (Py.dict_set String.eqb a key value) x y cs.

Definition with_children (e : Element) (cs : list Element) : Element :=
  let 'Elem i t a x y _ := e in Elem i t a x y cs.

(** The first element with identity [n], in document order. *)
Definition lookup (n : nat) (e : Element) : option Element :=
  List.find (fun x => eid x =? n) (iter e).

(** The text nodes of the body: the non-empty [text] of each [w:name]
    element below [e]. *)
Definition texts_of (name : string) (e : Element) : list string :=
  flat_map (fun t => match text t with
                     | Some s => if Py.truthy s then [s] else []
                     | None => []
                     end) (findall name e).

(** [_collect_text] (the same function in both services). *)
Definition _collect_text (e : Element) : string :=
  Py.strip (Py.join "" (texts_of "t" e)).

(** [_collect_deleted_text] (the same function in both services). *)
Definition _collect_deleted_text (e : Element) : string :=
  match texts_of "delText" e with
  | [] => _collect_text e
  | parts => Py.strip (Py.join "" parts)
  end.

End Xml.

(** Results of fallible code: a value or the message of the exception. *)
Inductive Result (A : Type) : Type :=
| Ok (a : A)
| Raise (msg : string).
Arguments Ok {A} a.
Arguments Raise {A} msg.

(** An opened zip archive: its entries in [infolist()] order. *)
Definition Archive : Type := list (string * string).

Module Zip.

(** [z.namelist()] *)
Definition namelist (z : Archive) : list string := map fst z.

(** The bytes that [z.read(name)] gives when it reads: [ZipFile] keeps, for a
    name, the last entry that has it. *)
Definition read (z : Archive) (name : string) : option string :=
  Py.dict_get String.eqb (rev z) name.

(** [z.read(name)] for a name of the archive.  [read_error z name] is the
    text of the exception that reading the entry raises, if it raises. *)
Definition read_entry (read_error : Archive -> string -> option string)
    (z : Archive) (name : string) : Result string :=
  match read_error z name with
  | Some exc => Raise exc
  | None => Ok (Py.or_empty (read z name))
  end.

End Zip.

(* ------------------------------------------------------------------ *)
(** * The Mutator: [redline_editor.py] *)

Record RedlineDecision : Type := {
  source_type : string;
  source_index : Z;
  action : string;
  source_position : option Z;
  source_comment_id : option string;
  source_text : option string;
  source_context_text : option string;
  modified_text : option string;
  reply_comment : option string
}.

(** The document tree while a batch runs.  [root] is the tree that will be
    serialised; [detached] holds the subtrees that were removed from it and
    are still referenced by the lists taken at the start of the batch;
    [next_id] is the identity of the next object created. *)
Record Document : Type := {
  root : Element;
  detached : list Element;
  next_id : nat
}.

Module DocxRedlineEditorService.

Import Xml.

Definition _local_name (t : string) : string :=
  match Py.after_first "}" t with
  | Some r => r
  | None => t
  end.

Definition _normalize_text (t : string) : string :=
  Py.lower (Py.strip (Py.join " " (Py.split t))).

(** The object an identity refers to: in the tree or among the detached. *)
Fixpoint lookup_in (n : nat) (l : list Element) : option Element :=
  match l with
  | [] => None
  | e :: r => match lookup n e with
              | Some x => Some x
              | None => lookup_in n r
              end
  end.

Definition deref (d : Document) (n : nat) : option Element :=
  lookup_in n (root d :: detached d).

Definition _collect_tracked_nodes (r : Element) : list Element :=
  flat_map (fun paragraph => findall "ins" paragraph ++ findall "del" paragraph)
           (findall "p" r).

Definition _make_run (n : nat) (txt : string) : Element * nat :=
  let space :=
    if Py.truthy txt && (Py.startswith txt " " || Py.endswith txt " ")
    then [(("{" ++ XML_NS ++ "}space")%string, "preserve")] else [] in
  (Elem n (w "r") [] None None [Elem (S n) (w "t") space (Some txt) None []], S (S n)).

(** [copy.deepcopy]: the same tree made of new objects. *)
Fixpoint deepcopy (n : nat) (e : Element) : Element * nat :=
  match e with
  | Elem _ t a x y cs =>
      let '(cs', n') :=
        (fix go (n : nat) (l : list Element) : list Element * nat :=
           match l with
           | [] => ([], n)
           | c :: r =>
               let '(c', n1) := deepcopy n c in
               let '(r', n2) := go n1 r in
               (c' :: r', n2)
           end) (S n) cs in
      (Elem n t a x y cs', n')
  end.

Fixpoint deepcopy_list (n : nat) (l : list Element) : list Element * nat :=
  match l with
  | [] => ([], n)
  | c :: r =>
      let '(c', n1) := deepcopy n c in
      let '(r', n2) := deepcopy_list n1 r in
      (c' :: r', n2)
  end.

(** Assigning to the child list of the object [pid]. *)
Fixpoint set_children (pid : nat) (cs : list Element) (e : Element) : Element :=
  match e with
  | Elem i t a x y ch =>
      if i =? pid then Elem i t a x y cs
      else Elem i t a x y (map (set_children pid cs) ch)
  end.

(** [parent.remove(node)] on the child list. *)
Fixpoint remove_child (n : nat) (cs : list Element) : list Element :=
  match cs with
  | [] => []
  | c :: r => if eid c =? n then r else c :: remove_child n r
  end.

(** [list(parent).index(node)] *)
Fixpoint index_of (n : nat) (cs : list Element) : nat :=
  match cs with
  | [] => 0
  | c :: r => if eid c =? n then 0 else S (index_of n r)
  end.

(** [l.insert(i, x)] *)
Definition list_insert (i : nat) (x : Element) (l : list Element) : list Element :=
  firstn i l ++ x :: skipn i l.

(** [_replace_node] on the child list of the parent. *)
Definition _replace_node (cs : list Element) (index : nat) (node : Element)
    (replacement_nodes : list Element) : list Element :=
  fst (fold_left (fun '(l, offset) replacement =>
                    (list_insert (index + offset) replacement l, S offset))
                 replacement_nodes (remove_child (eid node) cs, 0)).

(** [_build_parent_map]: child identity to parent, in insertion order. *)
Definition _build_parent_map (r : Element) : list (nat * Element) :=
  flat_map (fun parent => map (fun child => (eid child, parent)) (children parent))
           (iter r).

(** [parent_map.get(node)]: a later entry of the comprehension overwrites an
    earlier one with the same key. *)
Definition pm_get (pm : list (nat * Element)) (n : nat) : option Element :=
  Py.dict_get Nat.eqb (rev pm) n.

Fixpoint find_ancestor_loop (fuel : nat) (pm : list (nat * Element))
    (local_name : string) (current : nat) : option Element :=
  match fuel with
  | 0 => None
  | S f =>
      match pm_get pm current with
      | None => None
      | Some parent =>
          if (_local_name (tag parent) =? local_name)%string then Some parent
          else find_ancestor_loop f pm local_name (eid parent)
      end
  end.

(** [_find_ancestor]; a walk up a tree takes at most one step per entry of
    the map. *)
Definition _find_ancestor (node : nat) (pm : list (nat * Element))
    (local_name : string) : option Element :=
  find_ancestor_loop (S (length pm)) pm local_name node.

(** The first attribute whose local name is [id]. *)
Fixpoint first_id_attr (a : list (string * string)) : option string :=
  match a with
  | [] => None
  | (key, value) :: r =>
      if (Py.lower (Py.after_last "}" key) =? "id")%string then Some value
      else first_id_attr r
  end.

Definition is_comment_marker (e : Element) : bool :=
  let local := Py.lower (Py.after_last "}" (tag e)) in
  (local =? "commentrangestart")%string || (local =? "commentreference")%string.

Definition _collect_comment_ids (element : option Element) : list string :=
  match element with
  | None => []
  | Some e =>
      flat_map (fun node =>
                  if is_comment_marker node
                  then match first_id_attr (attrib node) with
                       | Some v => [v]
                       | None => []
                       end
                  else [])
               (iter e)
  end.

Definition _find_paragraph_by_comment_id (r : Element) (comment_id : string)
    : option Element :=
  let wanted := Py.strip comment_id in
  if negb (Py.truthy wanted) then None
  else
    List.find
      (fun paragraph =>
         existsb (fun node =>
                    is_comment_marker node &&
                    existsb (fun kv =>
                               (Py.lower (Py.after_last "}" (fst kv)) =? "id")%string
                               && (Py.strip (snd kv) =? wanted)%string)
                            (attrib node))
                 (iter paragraph))
      (findall "p" r).

Definition _build_paragraph_spans (paragraphs : list Element) : list (nat * Z * Z) :=
  fst (fold_left
         (fun '(spans, cursor) paragraph =>
            let txt := _collect_text paragraph in
            let clean := Py.strip (Py.join " " (Py.split txt)) in
            if negb (Py.truthy clean) then (spans, cursor)
            else
              let start := cursor in
              let stop := (start + Z.of_nat (String.length clean))%Z in
              (spans ++ [(eid paragraph, start, stop)], (stop + 2)%Z))
         paragraphs ([], 0%Z)).

Definition clamp_index (len : nat) (i : Z) : nat :=
  Z.to_nat (Z.max 0 (Z.min (Z.of_nat len - 1) i)).

(** A score as the float the program holds: [ratio] is the float division
    [2.0 * M / T], and a literal is the float nearest to it. *)
Definition float_of_Z (z : Z) : PrimFloat.float :=
  if (z <? 0)%Z then PrimFloat.opp (PrimFloat.of_uint63 (Uint63.of_Z (- z)))
  else PrimFloat.of_uint63 (Uint63.of_Z z).

Definition float_of_score (q : Q) : PrimFloat.float :=
  PrimFloat.div (float_of_Z (Qnum q)) (float_of_Z (Zpos (Qden q))).

(** [(top_score - second_score) >= 0.05], a subtraction of floats. *)
Definition score_gap (top_score second_score : Q) : bool :=
  PrimFloat.leb (float_of_score (1 # 20))
                (PrimFloat.sub (float_of_score top_score) (float_of_score second_score)).

Section Library.

(** [ET.fromstring]: [None] when it raises. *)
Variable fromstring : string -> option Element.
(** [str(exc)] for the exception [ET.fromstring] raises on a string that it
    does not parse. *)
Variable xml_error : string -> string.
(** [str(exc)] for the exception [source_zip.read(name)] raises on an entry
    that it cannot read; [None] when it reads the entry. *)
Variable read_error : Archive -> string -> option string.
(** [ET.tostring(e, encoding="utf-8", xml_declaration=True)] *)
Variable tostring : Element -> string.
(** [SequenceMatcher(None, a, b).ratio()] *)
Variable ratio : string -> string -> Q.
(** [int(s)]: [None] when it raises. *)
Variable int_of_str : string -> option Z.
(** [datetime.now(timezone.utc).replace(microsecond=0).isoformat()] at the
    k-th reading of the clock within one call of [apply_decisions]. *)
Variable now_iso : nat -> string.

Definition _similarity (a b : string) : Q :=
  if negb (Py.truthy a) || negb (Py.truthy b) then 0%Q else ratio a b.

(** [max(score, floor)] *)
Definition qmax (score floor : Q) : Q :=
  if Qle_bool floor score then score else floor.

Definition qlt (a b : Q) : bool := negb (Qle_bool b a).

(** The normalised text of a tracked node, read from the live object. *)
Definition node_text (d : Document) (n : nat) : string :=
  match deref d n with
  | Some e => _normalize_text (Py.sor (_collect_text e) (_collect_deleted_text e))
  | None => ""
  end.

(** The score the scan gives to a node with non-empty text. *)
Definition scan_score (d : Document) (src : string) (n : nat) : Q :=
  let t := node_text d n in
  let score := _similarity t src in
  if Py.contains src t || Py.contains t src then qmax score (23 # 25) else score.

(** The [for node in tracked_nodes] loop of [_resolve_tracked_node]. *)
Definition scan_step (d : Document) (src : string)
    (acc : option nat * Q) (n : nat) : option nat * Q :=
  if negb (Py.truthy (node_text d n)) then acc
  else if qlt (snd acc) (scan_score d src n) then (Some n, scan_score d src n)
  else acc.

Definition scan (d : Document) (src : string) (tracked_nodes : list nat)
    : option nat * Q :=
  fold_left (scan_step d src) tracked_nodes (None, 0%Q).

Definition indexed_node (tracked_nodes : list nat) (idx : Z) : option nat :=
  if (0 <=? idx)%Z && (idx <? Z.of_nat (length tracked_nodes))%Z
  then nth_error tracked_nodes (Z.to_nat idx) else None.

Definition _resolve_tracked_node (d : Document) (tracked_nodes : list nat)
    (decision : RedlineDecision) : option nat :=
  match tracked_nodes with
  | [] => None
  | _ =>
      let indexed := indexed_node tracked_nodes (source_index decision) in
      let src := _normalize_text (Py.or_empty (source_text decision)) in
      match indexed with
      | Some n =>
          if Py.truthy src
          then
            if Py.truthy (node_text d n) && Qle_bool (3 # 4) (_similarity (node_text d n) src)
            then Some n
            else
              match scan d src tracked_nodes with
              | (Some best_node, best_score) =>
                  if Qle_bool (9 # 20) best_score then Some best_node else None
              | (None, _) => None
              end
          else Some n
      | None =>
          if Py.truthy src
          then
            match scan d src tracked_nodes with
            | (Some best_node, best_score) =>
                if Qle_bool (9 # 20) best_score then Some best_node else None
            | (None, _) => None
            end
          else None
      end
  end.

(** A stable sort by descending score: [matches.sort(key=..., reverse=True)]. *)
Fixpoint insert_desc (x : nat * Q) (l : list (nat * Q)) : list (nat * Q) :=
  match l with
  | [] => [x]
  | y :: r => if qlt (snd y) (snd x) then x :: l else y :: insert_desc x r
  end.

Definition sort_desc (l : list (nat * Q)) : list (nat * Q) :=
  fold_left (fun acc x => insert_desc x acc) l [].

(** The text of a paragraph of [all_paragraphs], read from the live object. *)
Definition paragraph_text (d : Document) (p : nat) : string :=
  match deref d p with
  | Some e => _normalize_text (_collect_text e)
  | None => ""
  end.

(** The loop over [paragraph_spans] of [_resolve_reply_paragraph]. *)
Definition position_step (pos : Z)
    (acc : option nat * option nat * option Z) (span : nat * Z * Z)
    : option nat * option nat * option Z :=
  let '(containing, best_by_pos, best_pos_distance) := acc in
  let '(paragraph, start, stop) := span in
  if ((start <=? pos) && (pos <=? stop))%Z
  then (Some paragraph, Some paragraph, Some 0%Z)
  else
    let distance := Z.min (Z.abs (pos - start)) (Z.abs (pos - stop)) in
    match best_pos_distance with
    | None => (containing, Some paragraph, Some distance)
    | Some bd =>
        if (distance <? bd)%Z then (containing, Some paragraph, Some distance)
        else acc
    end.

Definition text_matches (d : Document) (target : string) (all_paragraphs : list nat)
    : list (nat * Q) :=
  flat_map (fun paragraph =>
              let txt := paragraph_text d paragraph in
              if negb (Py.truthy txt) then []
              else
                let score := _similarity txt target in
                let score :=
                  if Py.contains target txt || Py.contains txt target
                  then qmax score (24 # 25) else score in
                if Qle_bool (9 # 10) score then [(paragraph, score)] else [])
           all_paragraphs.

Definition by_source_index {A : Type} (l : list A) (source_index : option Z) : option A :=
  match source_index, l with
  | Some i, _ :: _ => nth_error l (clamp_index (length l) i)
  | _, _ => None
  end.

Definition _resolve_reply_paragraph (d : Document) (all_paragraphs : list nat)
    (paragraph_spans : list (nat * Z * Z)) (source_position : option Z)
    (source_text source_context_text : string) (source_index : option Z)
    : option nat :=
  let target := _normalize_text (Py.sor source_context_text source_text) in
  let last_fallback :=
    match source_position with
    | None => option_map (fun s => fst (fst s)) (by_source_index paragraph_spans source_index)
    | Some _ => None
    end in
  let secondary :=
    match source_position with
    | None =>
        if Py.truthy target
        then
          match text_matches d target all_paragraphs with
          | [] => last_fallback
          | [m] => Some (fst m)
          | matches =>
              match sort_desc matches with
              | top :: second :: _ =>
                  if Qle_bool (19 # 20) (snd top)
                     && score_gap (snd top) (snd second)
                  then Some (fst top)
                  else
                    match source_index with
                    | Some _ => option_map fst (by_source_index (sort_desc matches) source_index)
                    | None => last_fallback
                    end
              | _ => last_fallback
              end
          end
        else last_fallback
    | Some _ => last_fallback
    end in
  match source_position, paragraph_spans with
  | Some pos, _ :: _ =>
      match fold_left (position_step pos) paragraph_spans (None, None, None) with
      | (Some containing, _, _) => Some containing
      | (None, Some best_by_pos, Some best_pos_distance) =>
          if (best_pos_distance <=? 200)%Z then Some best_by_pos else secondary
      | _ => secondary
      end
  | _, _ => secondary
  end.

Definition is_action (a : string) : bool :=
  Py.mem a ["accept"; "modify"; "reject"; "reply"].

(** Writing the new child list of [parent] into the tree. *)
Definition store_children (d : Document) (parent : Element) (cs : list Element)
    (gone : list Element) (next : nat) : Document :=
  {| root := set_children (eid parent) cs (root d);
     detached := detached d ++ gone;
     next_id := next |}.

Definition _apply_single_decision (d : Document) (parent_map : list (nat * Element))
    (node : Element) (act : string) (modified : option string) : Result Document :=
  let tg := _local_name (tag node) in
  if negb (Py.mem tg ["ins"; "del"]) then Ok d
  else
    match pm_get parent_map (eid node) with
    | None => Ok d
    | Some parent =>
        let normalized_action := Py.lower (Py.strip act) in
        if negb (is_action normalized_action)
        then Raise ("Unsupported action: " ++ act)
        else if (normalized_action =? "reply")%string then Ok d
        else
          let cs := children parent in
          let index := index_of (eid node) cs in
          if (tg =? "ins")%string
          then
            if (normalized_action =? "reject")%string
            then Ok (store_children d parent (remove_child (eid node) cs) [node] (next_id d))
            else if (normalized_action =? "accept")%string
            then
              let '(replacement, next) := deepcopy_list (next_id d) (children node) in
              Ok (store_children d parent (_replace_node cs index node replacement) [node] next)
            else
              let '(run, next) :=
                _make_run (next_id d) (Py.sor (Py.or_empty modified) (_collect_text node)) in
              Ok (store_children d parent (_replace_node cs index node [run]) [node] next)
          else
            if (normalized_action =? "accept")%string
            then Ok (store_children d parent (remove_child (eid node) cs) [node] (next_id d))
            else if (normalized_action =? "reject")%string
            then
              let restored := _collect_deleted_text node in
              if Py.truthy restored
              then
                let '(run, next) := _make_run (next_id d) restored in
                Ok (store_children d parent (_replace_node cs index node [run]) [node] next)
              else Ok (store_children d parent (_replace_node cs index node []) [node] (next_id d))
            else
              let replacement_text :=
                Py.strip (Py.sor (Py.sor (Py.or_empty modified) (_collect_deleted_text node)) "") in
              if Py.truthy replacement_text
              then
                let '(run, next) := _make_run (next_id d) replacement_text in
                Ok (store_children d parent (_replace_node cs index node [run]) [node] next)
              else Ok (store_children d parent (_replace_node cs index node []) [node] (next_id d))
    end.

Definition _next_comment_id (comments_root : Element) : Z :=
  (fold_left (fun max_id comment =>
                match get comment (w "id") with
                | Some raw =>
                    match int_of_str raw with
                    | Some v => Z.max max_id v
                    | None => max_id
                    end
                | None => max_id
                end)
             (findall "comment" comments_root) (-1) + 1)%Z.

Definition _first_matching_comment_id (comments_root : Element)
    (candidate_ids : list string) : option string :=
  let wanted := filter Py.truthy (map Py.strip candidate_ids) in
  match wanted with
  | [] => None
  | _ =>
      option_map (fun comment => Py.strip (Py.or_empty (get comment (w "id"))))
        (List.find (fun comment =>
                      match get comment (w "id") with
                      | Some raw => Py.mem (Py.strip raw) wanted
                      | None => false
                      end)
                   (findall "comment" comments_root))
  end.

(** [_make_comment_node]; [k] counts the readings of the clock.  The
    parameter [parent_comment_id] is accepted and not used, as in the
    source. *)
Definition _make_comment_node (n : nat) (k : nat) (comment_id : Z) (txt author : string)
    (parent_comment_id : option string) : Element :=
  Elem n (w "comment")
       [(w "id", Py.str_of_Z comment_id); (w "author", author); (w "date", now_iso k)]
       None None
       [Elem (n + 1) (w "p") [] None None
          [Elem (n + 2) (w "r") [] None None
             [Elem (n + 3) (w "t") [] (Some txt) None []]]].

(** [parent.append(x)] for each [x] of [new], on the object [pid]. *)
Fixpoint append_children (pid : nat) (new : list Element) (e : Element) : Element :=
  match e with
  | Elem i t a x y ch =>
      if i =? pid then Elem i t a x y (ch ++ new)
      else Elem i t a x y (map (append_children pid new) ch)
  end.

Definition _attach_comment_reference (d : Document) (paragraph : nat) (comment_id : Z)
    : Document :=
  let n := next_id d in
  let cid := Py.str_of_Z comment_id in
  let new :=
    [Elem n (w "commentRangeStart") [(w "id", cid)] None None [];
     Elem (n + 1) (w "commentRangeEnd") [(w "id", cid)] None None [];
     Elem (n + 2) (w "r") [] None None
       [Elem (n + 3) (w "commentReference") [(w "id", cid)] None None []]] in
  {| root := append_children paragraph new (root d);
     detached := map (append_children paragraph new) (detached d);
     next_id := n + 4 |}.

(** A reply waiting for the end of the batch: paragraph, note, comment ids. *)
Definition Reply : Type := (nat * string * list string)%type.

(** The state of the loop of [_apply_replies_as_docx_comments]. *)
Record ReplyState : Type := {
  rs_comments : Element;
  rs_doc : Document;
  rs_next : Z;
  rs_clock : nat
}.

Definition reply_step (st : ReplyState) (r : Reply) : ReplyState :=
  let '(paragraph, txt, parent_comment_ids) := r in
  let parent_id := _first_matching_comment_id (rs_comments st) parent_comment_ids in
  let comment_id := rs_next st in
  let node :=
    _make_comment_node (next_id (rs_doc st)) (rs_clock st) comment_id txt
                       "Nego User" parent_id in
  let d := {| root := root (rs_doc st);
              detached := detached (rs_doc st);
              next_id := next_id (rs_doc st) + 4 |} in
  {| rs_comments := with_children (rs_comments st) (children (rs_comments st) ++ [node]);
     rs_doc := _attach_comment_reference d paragraph comment_id;
     rs_next := (comment_id + 1)%Z;
     rs_clock := S (rs_clock st) |}.

Definition _apply_replies_as_docx_comments (comments_root : Element) (d : Document)
    (replies : list Reply) : ReplyState :=
  fold_left reply_step replies
            {| rs_comments := comments_root; rs_doc := d;
               rs_next := _next_comment_id comments_root; rs_clock := 0 |}.

(** The state of the loop over the decisions. *)
Record Batch : Type := {
  doc : Document;
  pending_replies : list Reply
}.

Definition push (b : Batch) (r : Reply) : Batch :=
  {| doc := doc b; pending_replies := pending_replies b ++ [r] |}.

Section Loop.

(** What [apply_decisions] computes before the loop. *)
Variable have_parts : bool.
Variable tracked_nodes : list nat.
Variable all_paragraphs : list nat.
Variable paragraph_spans : list (nat * Z * Z).

Definition by_comment_id (b : Batch) (decision : RedlineDecision) : option Element :=
  if have_parts && Py.truthy (Py.strip (Py.or_empty (source_comment_id decision)))
  then _find_paragraph_by_comment_id (root (doc b)) (Py.or_empty (source_comment_id decision))
  else None.

Definition reply_paragraph (b : Batch) (decision : RedlineDecision) (with_index : bool)
    : option nat :=
  _resolve_reply_paragraph (doc b) all_paragraphs paragraph_spans
    (source_position decision)
    (Py.or_empty (source_text decision))
    (Py.or_empty (source_context_text decision))
    (if with_index then Some (source_index decision) else None).

Definition ids_of (b : Batch) (n : nat) : list string :=
  _collect_comment_ids (deref (doc b) n).

(** A decision whose [source_type] is ["comment"]. *)
Definition step_comment (b : Batch) (decision : RedlineDecision) : Batch :=
  let note := Py.strip (Py.or_empty (reply_comment decision)) in
  if negb (Py.truthy note) then b
  else
    match by_comment_id b decision with
    | Some target_paragraph =>
        push b (eid target_paragraph, note, [Py.or_empty (source_comment_id decision)])
    | None =>
        match reply_paragraph b decision true with
        | None => b
        | Some rp => push b (rp, note, ids_of b rp)
        end
    end.

(** A redline decision whose action is a reply. *)
Definition step_reply (b : Batch) (decision : RedlineDecision) (node : option nat) : Batch :=
  let note := Py.strip (Py.or_empty (reply_comment decision)) in
  if negb (Py.truthy note) then b
  else
    match by_comment_id b decision with
    | Some target_paragraph =>
        push b (eid target_paragraph, note, [Py.or_empty (source_comment_id decision)])
    | None =>
        let rp :=
          match reply_paragraph b decision false, node with
          | Some p, _ => Some p
          | None, Some n =>
              option_map eid (_find_ancestor n (_build_parent_map (root (doc b))) "p")
          | None, None => None
          end in
        match rp with
        | None => b
        | Some p =>
            let comment_ids :=
              ids_of b p ++ match node with Some n => ids_of b n | None => [] end in
            push b (p, note, Py.unique comment_ids)
        end
    end.

(** A redline decision that resolved to no tracked node. *)
Definition step_untracked (b : Batch) (decision : RedlineDecision) : Batch :=
  let note := Py.strip (Py.or_empty (reply_comment decision)) in
  if Py.truthy note
  then match reply_paragraph b decision true with
       | Some rp => push b (rp, note, ids_of b rp)
       | None => b
       end
  else b.

(** A redline decision that resolved to the tracked node [n]. *)
Definition step_tracked (b : Batch) (decision : RedlineDecision) (n : nat) : Result Batch :=
  let parent_map := _build_parent_map (root (doc b)) in
  let paragraph := _find_ancestor n parent_map "p" in
  let comment_ids := ids_of b n ++ _collect_comment_ids paragraph in
  let unique_comment_ids := Py.unique comment_ids in
  match deref (doc b) n with
  | None => Ok b
  | Some node =>
      match _apply_single_decision (doc b) parent_map node
                                   (action decision) (modified_text decision) with
      | Raise msg => Raise msg
      | Ok d' =>
          let b' := {| doc := d'; pending_replies := pending_replies b |} in
          match paragraph with
          | Some p =>
              let note := Py.strip (Py.or_empty (reply_comment decision)) in
              if Py.truthy (Py.or_empty (reply_comment decision)) && Py.truthy note
              then Ok (push b' (eid p, note, unique_comment_ids))
              else Ok b'
          | None => Ok b'
          end
      end
  end.

(** The body of [for decision in decisions]. *)
Definition step (b : Batch) (decision : RedlineDecision) : Result Batch :=
  if negb (Py.mem (source_type decision) ["redline"; "comment"]) then Ok b
  else
    let normalized_action := Py.lower (Py.strip (action decision)) in
    if (source_type decision =? "comment")%string then Ok (step_comment b decision)
    else
      let node := _resolve_tracked_node (doc b) tracked_nodes decision in
      if (normalized_action =? "reply")%string then Ok (step_reply b decision node)
      else
        match node with
        | None => Ok (step_untracked b decision)
        | Some n => step_tracked b decision n
        end.

Fixpoint run (b : Batch) (decisions : list RedlineDecision) : Result Batch :=
  match decisions with
  | [] => Ok b
  | decision :: rest =>
      match step b decision with
      | Ok b' => run b' rest
      | Raise msg => Raise msg
      end
  end.

End Loop.

Definition is_comment_part (name : string) : bool :=
  Py.startswith name "word/comments" && Py.endswith name ".xml".

(** The parsed comment parts.  [objects] lists the trees in the order they
    were parsed; [comments_parts] maps a part name to the position of its
    tree in [objects]; [comments_root] is [objects[0]]. *)
Record CommentParts : Type := {
  objects : list Element;
  comments_parts : list (string * nat)
}.

(** [ET.fromstring(source_zip.read(part_name))] inside [try]: [None] when
    the reading or the parsing raises. *)
Definition parsed_part (z : Archive) (part_name : string) : option Element :=
  match Zip.read_entry read_error z part_name with
  | Ok bytes => fromstring bytes
  | Raise _ => None
  end.

Definition parse_part (z : Archive) (acc : CommentParts) (part_name : string)
    : CommentParts :=
  match parsed_part z part_name with
  | Some parsed_part =>
      {| objects := objects acc ++ [parsed_part];
         comments_parts :=
           Py.dict_set String.eqb (comments_parts acc) part_name (length (objects acc)) |}
  | None => acc
  end.

Definition comment_part_names (z : Archive) : list string :=
  Py.sort (filter is_comment_part (Zip.namelist z)).

Definition parse_comment_parts (z : Archive) : CommentParts :=
  fold_left (parse_part z) (comment_part_names z)
            {| objects := []; comments_parts := [] |}.

(** An identity no object of the tree has. *)
Definition fresh_id (r : Element) : nat :=
  S (fold_left Nat.max (map eid (iter r)) 0).

(** What the batch leaves behind: the document tree and the comment trees. *)
Definition finish (cp : CommentParts) (b : Batch) : Document * list Element :=
  match pending_replies b, objects cp with
  | _ :: _, comments_root :: others =>
      let st := _apply_replies_as_docx_comments comments_root (doc b) (pending_replies b) in
      (rs_doc st, rs_comments st :: others)
  | _, _ => (doc b, objects cp)
  end.

Definition empty_element : Element := Elem 0 "" [] None None [].

(** The entry written for one item of [source_zip.infolist()]; an entry
    that is copied is read first, and the reading can raise. *)
Definition write_item (z : Archive) (cp : CommentParts) (final : Document * list Element)
    (item : string * string) : Result (string * string) :=
  let filename := fst item in
  if (filename =? "word/document.xml")%string
  then Ok (filename, tostring (root (fst final)))
  else
    match Py.dict_get String.eqb (comments_parts cp) filename with
    | Some i => Ok (filename, tostring (nth i (snd final) empty_element))
    | None =>
        match Zip.read_entry read_error z filename with
        | Ok bytes => Ok (filename, bytes)
        | Raise exc => Raise exc
        end
    end.

(** The loop [for item in source_zip.infolist()]: it stops at the first
    entry that cannot be read. *)
Fixpoint write_items (z : Archive) (cp : CommentParts) (final : Document * list Element)
    (items : list (string * string)) : Result Archive :=
  match items with
  | [] => Ok []
  | item :: rest =>
      match write_item z cp final item with
      | Raise exc => Raise exc
      | Ok entry =>
          match write_items z cp final rest with
          | Raise exc => Raise exc
          | Ok out => Ok (entry :: out)
          end
      end
  end.

Definition start_batch (r : Element) : Batch :=
  {| doc := {| root := r; detached := []; next_id := fresh_id r |};
     pending_replies := [] |}.

(** [file_bytes] is what [zipfile.ZipFile(io.BytesIO(file_bytes), "r")]
    gives: the archive, or the exception it raises. *)
Definition apply_decisions (file_name : string) (file_bytes : Result Archive)
    (decisions : list RedlineDecision) : Result Archive :=
  if negb (Py.lower (Py.path_suffix file_name) =? ".docx")%string
  then Raise "In-file redline updates are currently supported only for .docx"
  else
    match decisions with
    | [] => Raise "No redline decisions provided"
    | _ =>
        match file_bytes with
        | Raise exc => Raise ("Failed to read DOCX: " ++ exc)
        | Ok source_zip =>
            if negb (Py.mem "word/document.xml" (Zip.namelist source_zip))
            then Raise "Invalid DOCX: missing word/document.xml"
            else
              match Zip.read_entry read_error source_zip "word/document.xml" with
              | Raise exc => Raise exc
              | Ok document_xml =>
                  match fromstring document_xml with
                  | None => Raise ("Failed to parse DOCX XML: " ++ xml_error document_xml)
                  | Some r =>
                      let cp := parse_comment_parts source_zip in
                      let tracked_nodes := map eid (_collect_tracked_nodes r) in
                      let all_paragraphs := findall "p" r in
                      let paragraph_spans := _build_paragraph_spans all_paragraphs in
                      match run (negb (Nat.eqb (length (comments_parts cp)) 0))
                                tracked_nodes (map eid all_paragraphs) paragraph_spans
                                (start_batch r) decisions with
                      | Raise msg => Raise msg
                      | Ok b => write_items source_zip cp (finish cp b) source_zip
                      end
                  end
              end
        end
    end.

End Library.
End DocxRedlineEditorService.

(* ------------------------------------------------------------------ *)
(** * The Extractor: [corpus_parser.py] *)

Module CorpusParserService.

Import Xml.

(** A row of [redline_events]; the fields are the keys of the dict. *)
Record RedlineEvent : Type := {
  ev_type : string;
  ev_text : string;
  ev_author : option string;
  ev_timestamp : option string;
  ev_source : string;
  ev_comment_ids : list string;
  ev_comment_text : option string;
  ev_paragraph_text : string;
  ev_position : option nat
}.

(** A row of [comments]; a key that a row does not have reads [None], as
    with [row.get]. *)
Record Comment : Type := {
  cm_id : option string;
  cm_author : option string;
  cm_timestamp : option string;
  cm_text : string;
  cm_source : string;
  cm_anchor_text : option string;
  cm_position : option nat
}.

Record ParsedCorpusDocument : Type := {
  raw_text : string;
  redline_events : list RedlineEvent;
  comments : list Comment;
  parser_status : string;
  parse_error : option string
}.

Definition _local_name (value : string) : string := Py.after_last "}" value.

Fixpoint extract_attr (a : list (string * string)) (target : string) : option string :=
  match a with
  | [] => None
  | (key, value) :: r =>
      if (Py.lower (_local_name key) =? target)%string
      then
        let clean := Py.strip value in
        if Py.truthy clean then Some clean else extract_attr r target
      else extract_attr r target
  end.

Definition _extract_attr_local (element : Element) (local_name : string) : option string :=
  extract_attr (attrib element) (Py.lower local_name).

(** The first key of [keys] for which [f] gives a value. *)
Fixpoint first_of {A : Type} (f : string -> option A) (keys : list string) : option A :=
  match keys with
  | [] => None
  | k :: r => match f k with Some v => Some v | None => first_of f r end
  end.

Definition name_like (local : string) : bool :=
  Py.contains "author" local || Py.contains "user" local || Py.contains "name" local.

(** [people_by_id.get(k)] when it is a non-empty string. *)
Definition person (people_by_id : list (string * string)) (k : string) : option string :=
  match Py.dict_get String.eqb people_by_id k with
  | Some v => if Py.truthy v then Some v else None
  | None => None
  end.

Definition _extract_comment_author (comment : Element)
    (people_by_id : list (string * string)) : string :=
  match first_of (_extract_attr_local comment)
                 ["author"; "authorName"; "userName"; "displayName"] with
  | Some value => value
  | None =>
      match _extract_attr_local comment "initials" with
      | Some initials => initials
      | None =>
          match first_of (fun id_key =>
                            match _extract_attr_local comment id_key with
                            | Some ref => person people_by_id ref
                            | None => None
                            end)
                         ["personId"; "authorId"; "userId"; "id"] with
          | Some v => v
          | None =>
              match List.find (fun kv =>
                                 Py.truthy (Py.strip (snd kv))
                                 && name_like (Py.lower (_local_name (fst kv))))
                              (attrib comment) with
              | Some kv =>
                  match person people_by_id (Py.strip (snd kv)) with
                  | Some v => v
                  | None => Py.strip (snd kv)
                  end
              | None => ""
              end
          end
      end
  end.

Definition person_author (p : Element) : string :=
  match first_of (_extract_attr_local p)
                 ["author"; "name"; "displayName"; "userName"; "authorName"] with
  | Some a => a
  | None =>
      match List.find (fun kv =>
                         Py.truthy (Py.strip (snd kv))
                         && name_like (Py.lower (_local_name (fst kv))))
                      (attrib p) with
      | Some kv => Py.strip (snd kv)
      | None => ""
      end
  end.

Definition add_person (mapping : list (string * string)) (p : Element)
    : list (string * string) :=
  if negb (Py.lower (_local_name (tag p)) =? "person")%string then mapping
  else
    let author := person_author p in
    fold_left (fun m id_key =>
                 match _extract_attr_local p id_key with
                 | Some person_id =>
                     if Py.truthy author then Py.dict_set String.eqb m person_id author else m
                 | None => m
                 end)
              ["personId"; "authorId"; "userId"; "id"] mapping.

Definition _collect_comment_ids (element : Element) : list string :=
  Py.unique (DocxRedlineEditorService._collect_comment_ids (Some element)).

Definition remove_first (x : string) (l : list string) : list string :=
  (fix go (l : list string) : list string :=
     match l with
     | [] => []
     | y :: r => if (x =? y)%string then r else y :: go r
     end) l.

Definition is_tracked_local (local : string) : bool :=
  (local =? "ins")%string || (local =? "del")%string.

(** [_id_from_attrib] of the two walks. *)
Definition _id_from_attrib (node : Element) : option string :=
  extract_attr (attrib node) "id".

(** The effect of a range marker on the list of active ids; [None] when the
    child is not a marker. *)
Definition marker (child : Element) (active : list string) : option (list string) :=
  let local := Py.lower (_local_name (tag child)) in
  if (local =? "commentrangestart")%string
  then Some match _id_from_attrib child with
            | Some marker_id =>
                if Py.mem marker_id active then active else active ++ [marker_id]
            | None => active
            end
  else if (local =? "commentrangeend")%string
  then Some match _id_from_attrib child with
            | Some marker_id =>
                if Py.mem marker_id active then remove_first marker_id active else active
            | None => active
            end
  else None.

(** [_walk] of [_collect_active_comment_ids_by_element]; the state is
    [(mapping, active)]. *)
Fixpoint walk_active (node : Element) (st : list (nat * list string) * list string)
    {struct node} : list (nat * list string) * list string :=
  match node with
  | Elem _ _ _ _ _ cs =>
      fold_left
        (fun st child =>
           match marker child (snd st) with
           | Some active => (fst st, active)
           | None =>
               let local := Py.lower (_local_name (tag child)) in
               let st' :=
                 match snd st with
                 | _ :: _ =>
                     if is_tracked_local local
                     then (Py.dict_set Nat.eqb (fst st) (eid child) (snd st), snd st)
                     else st
                 | [] => st
                 end in
               walk_active child st'
           end)
        cs st
  end.

Definition _collect_active_comment_ids_by_element (r : Element)
    : list (nat * list string) :=
  fst (walk_active r ([], [])).

(** [ranges.setdefault(cid, []).append(text)] *)
Definition range_append (ranges : list (string * list string)) (txt cid : string)
    : list (string * list string) :=
  match Py.dict_get String.eqb ranges cid with
  | Some parts => Py.dict_set String.eqb ranges cid (parts ++ [txt])
  | None => Py.dict_set String.eqb ranges cid [txt]
  end.

(** [_walk] of [_collect_comment_range_texts]; the state is [(ranges, active)]. *)
Fixpoint walk_ranges (node : Element) (st : list (string * list string) * list string)
    {struct node} : list (string * list string) * list string :=
  match node with
  | Elem _ _ _ _ _ cs =>
      fold_left
        (fun st child =>
           match marker child (snd st) with
           | Some active => (fst st, active)
           | None =>
               let local := Py.lower (_local_name (tag child)) in
               let txt := Py.strip (Py.or_empty (text child)) in
               let st' :=
                 match snd st with
                 | _ :: _ =>
                     if ((local =? "t")%string || (local =? "deltext")%string)
                        && Py.truthy txt
                     then (fold_left (fun rg cid => range_append rg txt cid) (snd st) (fst st),
                           snd st)
                     else st
                 | [] => st
                 end in
               walk_ranges child st'
           end)
        cs st
  end.

Definition _collect_comment_range_texts (r : Element) : list (string * string) :=
  flat_map (fun kv => match snd kv with
                      | [] => []
                      | parts => [(fst kv, Py.strip (Py.join " " parts))]
                      end)
           (fst (walk_ranges r ([], []))).

(** [_annotate_event_positions], for rows of any kind: [pos] and [key] read
    the position and the text of a row, [setpos] writes the position. *)
Section Annotate.
Context {R : Type} (pos : R -> option nat) (key : R -> string)
        (setpos : R -> nat -> R).

Definition annotate_step (lowered : string) (acc : list R * nat) (event : R)
    : list R * nat :=
  let '(done, cursor) := acc in
  match pos event with
  | Some _ => (done ++ [event], cursor)
  | None =>
      let txt := Py.strip (key event) in
      if negb (Py.truthy txt) then (done ++ [event], cursor)
      else
        let needle := Py.lower txt in
        let idx := match Py.find lowered needle cursor with
                   | Some i => Some i
                   | None => Py.find lowered needle 0
                   end in
        match idx with
        | Some i => (done ++ [setpos event i], i + Nat.max 1 (String.length needle))
        | None => (done ++ [event], cursor)
        end
  end.

Definition _annotate_event_positions (raw : string) (events : list R) : list R :=
  if negb (Py.truthy raw) then events
  else match events with
       | [] => events
       | _ => fst (fold_left (annotate_step (Py.lower raw)) events ([], 0))
       end.
End Annotate.

Definition set_event_position (e : RedlineEvent) (i : nat) : RedlineEvent :=
  {| ev_type := ev_type e; ev_text := ev_text e; ev_author := ev_author e;
     ev_timestamp := ev_timestamp e; ev_source := ev_source e;
     ev_comment_ids := ev_comment_ids e; ev_comment_text := ev_comment_text e;
     ev_paragraph_text := ev_paragraph_text e; ev_position := Some i |}.

Definition set_comment_position (c : Comment) (i : nat) : Comment :=
  {| cm_id := cm_id c; cm_author := cm_author c; cm_timestamp := cm_timestamp c;
     cm_text := cm_text c; cm_source := cm_source c;
     cm_anchor_text := cm_anchor_text c; cm_position := Some i |}.

Definition placeholder (ids : string) : string :=
  ("Comment attached in document (id: " ++ ids ++ ")")%string.

(** [re.fullmatch(r"word/comments(?:\d+)?\.xml", name)] *)
Definition is_comment_part (name : string) : bool :=
  if Py.startswith name "word/comments" && Py.endswith name ".xml"
  then
    let middle := substring 13 (String.length name - 17) name in
    (17 <=? String.length name)
    && forallb Py.isdigit (list_ascii_of_string middle)
  else false.

Definition error_document (msg : string) : ParsedCorpusDocument :=
  {| raw_text := ""; redline_events := []; comments := [];
     parser_status := "error"; parse_error := Some msg |}.

(** The rows of [paragraph_rows]: text and comment ids of every paragraph
    that has text. *)
Definition paragraph_rows (r : Element) : list (string * list string) :=
  flat_map (fun paragraph =>
              let txt := Py.strip (_collect_text paragraph) in
              if Py.truthy txt then [(txt, _collect_comment_ids paragraph)] else [])
           (findall "p" r).

(** [comment_anchor_by_id]: for a comment id, the preview and the offset of
    the first paragraph with text that carries it. *)
Definition anchor_row (acc : list (string * (string * nat)) * nat)
    (row : string * list string) : list (string * (string * nat)) * nat :=
  let '(anchors, cursor) := acc in
  let para_text := fst row in
  let start := cursor in
  let anchor_preview := Py.take 300 para_text in
  (fold_left (fun a cid =>
                if Py.dict_mem String.eqb a cid then a
                else Py.dict_set String.eqb a cid (anchor_preview, start))
             (snd row) anchors,
   start + String.length para_text + 2).

Definition comment_anchor_by_id (rows : list (string * list string))
    : list (string * (string * nat)) :=
  fst (fold_left anchor_row rows ([], 0)).

(** The state of the loops that fill [comments] and [comments_by_id]. *)
Definition Comments : Type := (list Comment * list (string * string))%type.

Definition lookup_text (comments_by_id : list (string * string)) (cid : string) : string :=
  Py.or_empty (Py.dict_get String.eqb comments_by_id cid).

Definition add_comment (anchors : list (string * (string * nat)))
    (people_by_id : list (string * string)) (st : Comments) (comment : Element)
    : Comments :=
  let '(rows, comments_by_id) := st in
  let comment_id := get comment (w "id") in
  let comment_text := _collect_text comment in
  let author := _extract_comment_author comment people_by_id in
  let anchor := match comment_id with
                | Some cid => Py.dict_get String.eqb anchors cid
                | None => None
                end in
  let comments_by_id :=
    match comment_id with
    | Some cid =>
        if Py.truthy comment_text && negb (Py.truthy (lookup_text comments_by_id cid))
        then Py.dict_set String.eqb comments_by_id cid comment_text
        else comments_by_id
    | None => comments_by_id
    end in
  (rows ++ [{| cm_id := comment_id;
               cm_author := if Py.truthy author then Some author else None;
               cm_timestamp := get comment (w "date");
               cm_text := comment_text;
               cm_source := "comments";
               cm_anchor_text := option_map fst anchor;
               cm_position := option_map snd anchor |}],
   comments_by_id).

Definition unparsed_row : Comment :=
  {| cm_id := None; cm_author := None; cm_timestamp := None;
     cm_text := "comments part exists but could not be parsed";
     cm_source := "comments"; cm_anchor_text := None; cm_position := None |}.

Definition anchor_comment (existing_comment_ids : list string) (st : Comments)
    (item : string * (string * nat)) : Comments :=
  let '(rows, comments_by_id) := st in
  let clean_cid := Py.strip (fst item) in
  if negb (Py.truthy clean_cid) then st
  else
    let comments_by_id :=
      if negb (Py.truthy (lookup_text comments_by_id clean_cid))
      then Py.dict_set String.eqb comments_by_id clean_cid (placeholder clean_cid)
      else comments_by_id in
    if Py.mem clean_cid existing_comment_ids then (rows, comments_by_id)
    else
      (rows ++ [{| cm_id := Some clean_cid; cm_author := None; cm_timestamp := None;
                   cm_text := lookup_text comments_by_id clean_cid;
                   cm_source := "comments_anchor";
                   cm_anchor_text := Some (fst (snd item));
                   cm_position := Some (snd (snd item)) |}],
       comments_by_id).

Definition existing_ids (rows : list Comment) : list string :=
  flat_map (fun row => match cm_id row with
                       | Some i => if Py.truthy (Py.strip i) then [Py.strip i] else []
                       | None => []
                       end) rows.

Definition linked_comment_text (comments_by_id : list (string * string))
    (comment_ids : list string) : option string :=
  let linked_comments := filter Py.truthy (map (lookup_text comments_by_id) comment_ids) in
  let linked := match linked_comments with
                | [] => None
                | _ => Some (Py.strip (Py.join " " linked_comments))
                end in
  match comment_ids with
  | _ :: _ =>
      if negb (Py.truthy (Py.or_empty linked))
      then Some (placeholder (Py.join ", " (firstn 3 comment_ids)))
      else linked
  | [] => linked
  end.

Definition tracked_event (kind txt : string) (node : Element)
    (active : list (nat * list string)) (comments_by_id : list (string * string))
    (paragraph_text : string) (paragraph_comment_ids : list string) : RedlineEvent :=
  let inherited_comment_ids :=
    match Py.dict_get Nat.eqb active (eid node) with Some l => l | None => [] end in
  let raw_ids := paragraph_comment_ids ++ inherited_comment_ids ++ _collect_comment_ids node in
  let comment_ids := Py.unique raw_ids in
  {| ev_type := kind; ev_text := txt;
     ev_author := get node (w "author");
     ev_timestamp := get node (w "date");
     ev_source := "track_changes";
     ev_comment_ids := comment_ids;
     ev_comment_text := linked_comment_text comments_by_id comment_ids;
     ev_paragraph_text := paragraph_text;
     ev_position := None |}.

(** The events of one paragraph: its insertions, then its deletions; a node
    without text gives no event. *)
Definition paragraph_events (active : list (nat * list string))
    (comments_by_id : list (string * string)) (paragraph : Element) : list RedlineEvent :=
  let paragraph_text := _collect_text paragraph in
  let paragraph_comment_ids := _collect_comment_ids paragraph in
  flat_map (fun inserted =>
              let txt := _collect_text inserted in
              if Py.truthy txt
              then [tracked_event "insertion" txt inserted active comments_by_id
                                  paragraph_text paragraph_comment_ids]
              else [])
           (findall "ins" paragraph)
  ++ flat_map (fun deleted =>
                 let txt := _collect_deleted_text deleted in
                 if Py.truthy txt
                 then [tracked_event "deletion" txt deleted active comments_by_id
                                     paragraph_text paragraph_comment_ids]
                 else [])
              (findall "del" paragraph).

Definition tracked_events (active : list (nat * list string))
    (comments_by_id : list (string * string)) (r : Element) : list RedlineEvent :=
  flat_map (paragraph_events active comments_by_id) (findall "p" r).

(** The events made from comment ranges when there is no tracked event. *)
Definition range_events (comments_by_id : list (string * string))
    (comment_range_text_by_id : list (string * string)) : list RedlineEvent :=
  flat_map (fun item =>
              let cid := fst item in
              let clean_text := Py.strip (Py.join " " (Py.split (snd item))) in
              if negb (Py.truthy clean_text) then []
              else
                [{| ev_type := "comment_range"; ev_text := clean_text;
                    ev_author := None; ev_timestamp := None;
                    ev_source := "comment_range";
                    ev_comment_ids := [cid];
                    ev_comment_text :=
                      Some (Py.sor (Py.strip (lookup_text comments_by_id cid))
                                   (placeholder cid));
                    ev_paragraph_text := clean_text;
                    ev_position := None |}])
           comment_range_text_by_id.

(** The comments made from the events when [comments] is empty. *)
Definition synthetic_comments (events : list RedlineEvent) : list Comment :=
  let synthetic_ids :=
    Py.unique (filter Py.truthy (map Py.strip (flat_map ev_comment_ids events))) in
  map (fun cid => {| cm_id := Some cid; cm_author := None; cm_timestamp := None;
                     cm_text := placeholder cid;
                     cm_source := "comments_anchor_only";
                     cm_anchor_text := None; cm_position := None |})
      synthetic_ids.

Section Library.

(** [ET.fromstring]: [None] when it raises. *)
Variable fromstring : string -> option Element.
(** [str(exc)] for the exception [ET.fromstring] raises on a string that it
    does not parse. *)
Variable xml_error : string -> string.
(** [str(exc)] for the exception [archive.read(name)] raises on an entry
    that it cannot read; [None] when it reads the entry. *)
Variable read_error : Archive -> string -> option string.

Definition _parse_people_xml (people_xml : string) : list (string * string) :=
  match fromstring people_xml with
  | None => []
  | Some r => fold_left add_person (iter r) []
  end.

(** The loop over [comments_xml_parts] inside [try]; the boolean tells
    whether no part raised. *)
Fixpoint read_parts (anchors : list (string * (string * nat)))
    (people_by_id : list (string * string)) (parts : list string) (st : Comments)
    : Comments * bool :=
  match parts with
  | [] => (st, true)
  | comments_xml :: rest =>
      match fromstring comments_xml with
      | None => (st, false)
      | Some comments_root =>
          read_parts anchors people_by_id rest
            (fold_left (add_comment anchors people_by_id)
                       (findall "comment" comments_root) st)
      end
  end.

(** [_parse_docx] once the document part is parsed. *)
Definition extract (r : Element) (comments_xml_parts : list string)
    (people_xml : option string) : ParsedCorpusDocument :=
  let active_comment_ids_by_element := _collect_active_comment_ids_by_element r in
  let comment_range_text_by_id := _collect_comment_range_texts r in
  let rows := paragraph_rows r in
  let raw := Py.strip (Py.join (NL ++ NL) (map fst rows)) in
  let anchors := comment_anchor_by_id rows in
  let people_by_id :=
    match people_xml with
    | Some x => if Py.truthy x then _parse_people_xml x else []
    | None => []
    end in
  let '(st, parsed) := read_parts anchors people_by_id comments_xml_parts ([], []) in
  let st := if parsed then st else (fst st ++ [unparsed_row], snd st) in
  let '(rows_c, comments_by_id) :=
    fold_left (anchor_comment (existing_ids (fst st))) anchors st in
  let tracked := tracked_events active_comment_ids_by_element comments_by_id r in
  let events :=
    match tracked with
    | [] => range_events comments_by_id comment_range_text_by_id
    | _ => tracked
    end in
  let rows_c := match rows_c with [] => synthetic_comments events | _ => rows_c end in
  {| raw_text := raw;
     redline_events := _annotate_event_positions ev_position ev_text set_event_position raw events;
     comments := _annotate_event_positions cm_position cm_text set_comment_position raw rows_c;
     parser_status := "ready";
     parse_error := None |}.

Definition comment_part_names (archive : Archive) : list string :=
  Py.sort (filter is_comment_part (Zip.namelist archive)).

(** [str(exc)] for the [KeyError] of [archive.read("word/document.xml")] on
    an archive without that entry. *)
Definition no_document : string :=
  (String (ascii_of_nat 34) "There is no item named 'word/document.xml' in the archive"
   ++ String (ascii_of_nat 34) "")%string.

(** [[archive.read(name) for name in comment_part_names]] *)
Fixpoint read_parts_bytes (archive : Archive) (names : list string) : Result (list string) :=
  match names with
  | [] => Ok []
  | name :: rest =>
      match Zip.read_entry read_error archive name with
      | Raise exc => Raise exc
      | Ok bytes =>
          match read_parts_bytes archive rest with
          | Raise exc => Raise exc
          | Ok parts => Ok (bytes :: parts)
          end
      end
  end.

(** The body of the first [try] of [_parse_docx]: the bytes of the document
    part, of the comment parts and of the people part. *)
Definition read_archive (archive : Archive)
    : Result (string * list string * option string) :=
  if negb (Py.mem "word/document.xml" (Zip.namelist archive)) then Raise no_document
  else
    match Zip.read_entry read_error archive "word/document.xml" with
    | Raise exc => Raise exc
    | Ok document_xml =>
        match read_parts_bytes archive (comment_part_names archive) with
        | Raise exc => Raise exc
        | Ok comments_xml_parts =>
            if Py.mem "word/people.xml" (Zip.namelist archive)
            then
              match Zip.read_entry read_error archive "word/people.xml" with
              | Raise exc => Raise exc
              | Ok people_xml => Ok (document_xml, comments_xml_parts, Some people_xml)
              end
            else Ok (document_xml, comments_xml_parts, None)
        end
    end.

(** [file] is what [zipfile.ZipFile(file_path, "r")] gives: the archive, or
    the exception it raises. *)
Definition _parse_docx (file : Result Archive) : ParsedCorpusDocument :=
  match file with
  | Raise exc => error_document ("Failed to open DOCX: " ++ exc)
  | Ok archive =>
      match read_archive archive with
      | Raise exc => error_document ("Failed to open DOCX: " ++ exc)
      | Ok (document_xml, comments_xml_parts, people_xml) =>
          match fromstring document_xml with
          | None => error_document ("Failed to parse DOCX XML: " ++ xml_error document_xml)
          | Some r => extract r comments_xml_parts people_xml
          end
      end
  end.

End Library.
End CorpusParserService.

(* ------------------------------------------------------------------ *)
(** * The library functions, for the examples

    The theorems below hold for every behaviour of the library functions that
    the services take as parameters.  The examples run the services with the
    definitions of this module. *)

Module Lib.

Import Xml.

Definition DQ : string := String (ascii_of_nat 34) "".

(** ** [difflib.SequenceMatcher(None, a, b).ratio()], for [b] shorter than
    200 characters (no element of [b] is then treated as junk). *)

Fixpoint common_prefix (a b : list ascii) : nat :=
  match a, b with
  | x :: a', y :: b' => if Ascii.eqb x y then S (common_prefix a' b') else 0
  | _, _ => 0
  end.

(** [find_longest_match]: the longest block; of those the one that starts
    earliest in [a]; of those the one that starts earliest in [b]. *)
Definition find_longest_match (a b : list ascii) : nat * nat * nat :=
  fold_left
    (fun best i =>
       fold_left
         (fun best j =>
            let k := common_prefix (skipn i a) (skipn j b) in
            if snd best <? k then (i, j, k) else best)
         (seq 0 (length b)) best)
    (seq 0 (length a)) (0, 0, 0).

(** The number of matched characters of [get_matching_blocks]. *)
Fixpoint matches (fuel : nat) (a b : list ascii) : nat :=
  match fuel with
  | 0 => 0
  | S f =>
      let '(i, j, k) := find_longest_match a b in
      if k =? 0 then 0
      else k + matches f (firstn i a) (firstn j b)
             + matches f (skipn (i + k) a) (skipn (j + k) b)
  end.

Definition ratio (a b : string) : Q :=
  let la := list_ascii_of_string a in
  let lb := list_ascii_of_string b in
  match (length la + length lb)%nat with
  | 0%nat => 1%Q
  | S n => Z.of_nat (2 * matches (S (length la)) la lb)%nat # Pos.of_succ_nat n
  end.

(** ** [int(s)] for an optional sign and decimal digits between white space. *)

Fixpoint digits (l : list ascii) (acc : Z) : option Z :=
  match l with
  | [] => Some acc
  | c :: r =>
      if Py.isdigit c
      then digits r (10 * acc + Z.of_nat (nat_of_ascii c - 48))%Z
      else None
  end.

Definition int_of_str (s : string) : option Z :=
  match list_ascii_of_string (Py.strip s) with
  | [] => None
  | c :: r =>
      if Ascii.eqb c "-" then
        match r with [] => None | _ => option_map Z.opp (digits r 0%Z) end
      else if Ascii.eqb c "+" then
        match r with [] => None | _ => digits r 0%Z end
      else digits (c :: r) 0%Z
  end.

(** ** [ET.tostring(e, encoding="utf-8", xml_declaration=True)] for a tree
    whose qualified names are in the WordprocessingML or the XML namespace. *)

Definition escape_char (in_attr : bool) (c : ascii) : string :=
  if Ascii.eqb c "&" then "&amp;"
  else if Ascii.eqb c "<" then "&lt;"
  else if Ascii.eqb c ">" then "&gt;"
  else if in_attr && Ascii.eqb c (ascii_of_nat 34) then "&quot;"
  else if in_attr && Ascii.eqb c (ascii_of_nat 13) then "&#13;"
  else if in_attr && Ascii.eqb c (ascii_of_nat 10) then "&#10;"
  else if in_attr && Ascii.eqb c (ascii_of_nat 9) then "&#09;"
  else String c "".

Fixpoint escape (in_attr : bool) (s : string) : string :=
  match s with
  | "" => ""
  | String c r => (escape_char in_attr c ++ escape in_attr r)%string
  end.

Definition strip_prefix (p s : string) : option string :=
  if String.prefix p s
  then Some (substring (String.length p) (String.length s - String.length p) s)
  else None.

Definition qname (prefix t : string) : string :=
  match strip_prefix ("{" ++ W_NS ++ "}") t with
  | Some local => (prefix ++ ":" ++ local)%string
  | None =>
      match strip_prefix ("{" ++ XML_NS ++ "}") t with
      | Some local => ("xml:" ++ local)%string
      | None => t
      end
  end.

Definition attributes (prefix : string) (a : list (string * string)) : string :=
  String.concat ""
    (map (fun kv => (" " ++ qname prefix (fst kv) ++ "=" ++ DQ
                     ++ escape true (snd kv) ++ DQ)%string) a).

(** The element [e] written with [prefix] for the WordprocessingML
    namespace; [ns] is the namespace declaration of the root. *)
Fixpoint serialize (prefix ns : string) (e : Element) : string :=
  match e with
  | Elem _ t a x y cs =>
      let body := (escape false (Py.or_empty x)
                   ++ String.concat "" (map (serialize prefix "") cs))%string in
      let short := negb (Py.truthy (Py.or_empty x)) && match cs with [] => true | _ => false end in
      ("<" ++ qname prefix t ++ ns ++ attributes prefix a
       ++ (if short then " />" else ">" ++ body ++ "</" ++ qname prefix t ++ ">")
       ++ escape false (Py.or_empty y))%string
  end.

Definition tostring (e : Element) : string :=
  ("<?xml version='1.0' encoding='utf-8'?>" ++ NL
   ++ serialize "ns0" (" xmlns:ns0=" ++ DQ ++ W_NS ++ DQ) e)%string.

(** ** A part as Word writes it: the prefix [w] and Word's declaration. *)
Definition word_xml (e : Element) : string :=
  ("<?xml version=" ++ DQ ++ "1.0" ++ DQ ++ " encoding=" ++ DQ ++ "UTF-8" ++ DQ
   ++ " standalone=" ++ DQ ++ "yes" ++ DQ ++ "?>" ++ NL
   ++ serialize "w" (" xmlns:w=" ++ DQ ++ W_NS ++ DQ) e)%string.

(** ** [ET.fromstring] on the parts of the examples: a part, as Word writes
    it or as [tostring] writes it, reads as its tree. *)
Definition fromstring (trees : list Element) (bytes : string) : option Element :=
  List.find (fun t => (word_xml t =? bytes)%string || (tostring t =? bytes)%string) trees.

(** A tree written without identities gets them in document order. *)
Definition number (first : nat) (e : Element) : Element :=
  fst (DocxRedlineEditorService.deepcopy first e).

Definition el (name : string) (a : list (string * string)) (cs : list Element) : Element :=
  Elem 0 (w name) a None None cs.

Definition leaf (name txt : string) : Element :=
  Elem 0 (w name) [] (Some txt) None [].

(** [<w:r><w:t>txt</w:t></w:r>] *)
Definition run (txt : string) : Element := el "r" [] [leaf "t" txt].

(** [<w:r><w:delText>txt</w:delText></w:r>] *)
Definition del_run (txt : string) : Element := el "r" [] [leaf "delText" txt].

(** ** The exceptions of the library, for archives whose entries all read. *)
Definition xml_error (bytes : string) : string := "syntax error: line 1, column 0".

Definition read_error (z : Archive) (name : string) : option string := None.

Definition decision (src : string) (i : Z) (act : string) : RedlineDecision :=
  {| source_type := src; source_index := i; action := act;
     source_position := None; source_comment_id := None; source_text := None;
     source_context_text := None; modified_text := None; reply_comment := None |}.

Definition with_source_text (d : RedlineDecision) (s : string) : RedlineDecision :=
  {| source_type := source_type d; source_index := source_index d; action := action d;
     source_position := source_position d; source_comment_id := source_comment_id d;
     source_text := Some s; source_context_text := source_context_text d;
     modified_text := modified_text d; reply_comment := reply_comment d |}.

Definition with_modified_text (d : RedlineDecision) (s : string) : RedlineDecision :=
  {| source_type := source_type d; source_index := source_index d; action := action d;
     source_position := source_position d; source_comment_id := source_comment_id d;
     source_text := source_text d; source_context_text := source_context_text d;
     modified_text := Some s; reply_comment := reply_comment d |}.

Definition with_reply (d : RedlineDecision) (s : string) : RedlineDecision :=
  {| source_type := source_type d; source_index := source_index d; action := action d;
     source_position := source_position d; source_comment_id := source_comment_id d;
     source_text := source_text d; source_context_text := source_context_text d;
     modified_text := modified_text d; reply_comment := Some s |}.

End Lib.

(* ------------------------------------------------------------------ *)
(** * Example documents *)

Module Example.

Import Xml Lib.

(** A clause with one tracked insertion and one tracked deletion, and a
    second paragraph. *)
Definition contract : Element :=
  number 1
    (el "document" []
       [el "body" []
          [el "p" []
             [run "Payment within ";
              el "ins" [(w "id", "7"); (w "author", "Counsel")] [run "45 days"];
              el "del" [(w "id", "8"); (w "author", "Counsel")] [del_run "30 days"];
              run " of invoice."];
           el "p" [] [run "Governing law."]]]).

(** The same clause where the paragraph mark is a tracked insertion, as
    Word writes it when the paragraph itself was inserted. *)
Definition inserted_paragraph : Element :=
  number 1
    (el "document" []
       [el "body" []
          [el "p" []
             [el "pPr" [] [el "rPr" [] [el "ins" [(w "id", "5"); (w "author", "Counsel")] []]];
              run "Payment within ";
              el "ins" [(w "id", "7"); (w "author", "Counsel")] [run "45 days"]]]]).

(** A paragraph that was deleted as a whole, inside a comment range. *)
Definition deleted_paragraph : Element :=
  number 1
    (el "document" []
       [el "body" []
          [el "p" [] [run "Payment within 45 days."];
           el "p" []
             [el "commentRangeStart" [(w "id", "2")] [];
              el "del" [(w "id", "9"); (w "author", "Counsel")] [del_run "Late fees apply."];
              el "commentRangeEnd" [(w "id", "2")] []]]]).

(** A document without tracked changes, with a comment range. *)
Definition commented : Element :=
  number 1
    (el "document" []
       [el "body" []
          [el "p" []
             [el "commentRangeStart" [(w "id", "1")] [];
              run "Payment within 45 days.";
              el "commentRangeEnd" [(w "id", "1")] []]]]).

(** The comments part: one comment, id 1. *)
Definition comments_part : Element :=
  number 1
    (el "comments" []
       [el "comment" [(w "id", "1"); (w "author", "Counsel")]
          [el "p" [] [run "too long"]]]).

(** A second comments part: one comment, id 42. *)
Definition comments_part2 : Element :=
  number 1
    (el "comments" []
       [el "comment" [(w "id", "42"); (w "author", "Counsel")]
          [el "p" [] [run "agreed"]]]).

Definition trees : list Element :=
  [contract; inserted_paragraph; deleted_paragraph; commented; comments_part; comments_part2].

Definition fromstring : string -> option Element := Lib.fromstring trees.

(** A package around [document] with the comments part. *)
Definition package (document : Element) : Archive :=
  [("[Content_Types].xml", "<Types/>");
   ("word/document.xml", word_xml document);
   ("word/comments.xml", word_xml comments_part);
   ("word/styles.xml", "<styles/>")].

(** A package with two comments parts, the first of which is not XML. *)
Definition package2 : Archive :=
  [("word/document.xml", word_xml contract);
   ("word/comments2.xml", word_xml comments_part2);
   ("word/comments.xml", "not xml");
   ("word/comments3.xml", word_xml comments_part)].

Definition clock (second : string) (k : nat) : string :=
  ("2026-01-01T00:00:" ++ second ++ "+00:00")%string.

(** The Mutator and the Extractor with the library of [Lib]. *)
Definition apply_decisions (now : nat -> string) (file_name : string)
    (file_bytes : Result Archive) (decisions : list RedlineDecision) : Result Archive :=
  DocxRedlineEditorService.apply_decisions
    fromstring xml_error read_error tostring ratio int_of_str now
    file_name file_bytes decisions.

Definition _parse_docx (file : Result Archive) : CorpusParserService.ParsedCorpusDocument :=
  CorpusParserService._parse_docx fromstring xml_error read_error file.

(** The document of a batch that starts on the tree [r]. *)
Definition document_of (r : Element) : Document :=
  DocxRedlineEditorService.doc (DocxRedlineEditorService.start_batch r).

(** The element with identity [n] of the tree [r]. *)
Definition at_id (r : Element) (n : nat) : Element :=
  match lookup n r with Some e => e | None => DocxRedlineEditorService.empty_element end.

(** Two paragraphs, the second of them inside a comment range. *)
Definition commented_second : Element :=
  number 1
    (el "document" []
       [el "body" []
          [el "p" [] [run "Payment within 45 days."];
           el "p" []
             [el "commentRangeStart" [(w "id", "3")] [];
              run "Late fees apply.";
              el "commentRangeEnd" [(w "id", "3")] []]]]).

End Example.

(* ------------------------------------------------------------------ *)
(** * Notions used to state the properties *)

(** What an element is apart from its children. *)
Definition label (e : Element)
    : nat * string * list (string * string) * option string * option string :=
  (eid e, tag e, attrib e, text e, tail e).

(** The identities of the objects of a forest, in document order. *)
Definition ids (l : list Element) : list nat := map eid (flat_map Xml.iter l).

(** The labels of the objects of a forest, in document order. *)
Definition labels (l : list Element)
    : list (nat * string * list (string * string) * option string * option string) :=
  map label (flat_map Xml.iter l).

(** The text a label contributes to [texts_of name]. *)
Definition text_of (name : string)
    (lab : nat * string * list (string * string) * option string * option string)
    : list string :=
  let '(_, t, _, x, _) := lab in
  if (t =? Xml.w name)%string
  then match x with
       | Some s => if Py.truthy s then [s] else []
       | None => []
       end
  else [].

(** A tree without the identities of its nodes. *)
Fixpoint erase (e : Element) : Element :=
  match e with
  | Elem _ t a x y cs => Elem 0 t a x y (map erase cs)
  end.

(** A check that the numbers of a list are distinct. *)
Fixpoint distinct (l : list nat) : bool :=
  match l with
  | [] => true
  | x :: r => negb (existsb (Nat.eqb x) r) && distinct r
  end.

(** What the scan of [_resolve_tracked_node] knows after the nodes of [seen]:
    the best score so far bounds the score of every node seen that has text,
    and it is the score of the best node so far. *)
Definition scan_invariant (ratio : string -> string -> Q) (d : Document) (src : string)
    (seen : list nat) (acc : option nat * Q) : Prop :=
  (0 <= snd acc)%Q /\
  (forall m, In m seen -> Py.truthy (DocxRedlineEditorService.node_text d m) = true ->
             (DocxRedlineEditorService.scan_score ratio d src m <= snd acc)%Q) /\
  match fst acc with
  | None => snd acc = 0%Q
  | Some best =>
      In best seen /\
      Py.truthy (DocxRedlineEditorService.node_text d best) = true /\
      snd acc = DocxRedlineEditorService.scan_score ratio d src best
  end.

(** What holds of the parsed comment parts while they are read: a name of
    [comments_parts] leads to the tree its bytes read as. *)
Definition parts_invariant (fromstring : string -> option Element)
    (read_error : Archive -> string -> option string) (z : Archive)
    (cp : DocxRedlineEditorService.CommentParts) : Prop :=
  forall name i,
    Py.dict_get String.eqb (DocxRedlineEditorService.comments_parts cp) name = Some i ->
    nth_error (DocxRedlineEditorService.objects cp) i <> None /\
    nth_error (DocxRedlineEditorService.objects cp) i
    = DocxRedlineEditorService.parsed_part fromstring read_error z name.

(** A decision that the loop of [apply_decisions] passes over: its source
    type is neither "redline" nor "comment", or it is a comment decision
    without a note. *)
Definition passed_over (decision : RedlineDecision) : bool :=
  negb (Py.mem (source_type decision) ["redline"; "comment"])
  || ((source_type decision =? "comment")%string
      && negb (Py.truthy (Py.strip (Py.or_empty (reply_comment decision))))).

(** The tracked insertions of a paragraph that have text, and its tracked
    deletions that have deleted text: the nodes the Extractor reports. *)
Definition insertions_with_text (paragraph : Element) : list Element :=
  filter (fun inserted => Py.truthy (Xml._collect_text inserted))
         (Xml.findall "ins" paragraph).

Definition deletions_with_text (paragraph : Element) : list Element :=
  filter (fun deleted => Py.truthy (Xml._collect_deleted_text deleted))
         (Xml.findall "del" paragraph).

(** Kind and text of the events the tracked nodes of a document give:
    paragraph after paragraph, the insertions of a paragraph before its
    deletions. *)
Definition expected_events (r : Element) : list (string * string) :=
  flat_map (fun paragraph =>
              map (fun inserted => ("insertion", Xml._collect_text inserted))
                  (insertions_with_text paragraph)
              ++ map (fun deleted => ("deletion", Xml._collect_deleted_text deleted))
                     (deletions_with_text paragraph))
           (Xml.findall "p" r).

(** Kind and text of an event. *)
Definition kind_text (e : CorpusParserService.RedlineEvent) : string * string :=
  (CorpusParserService.ev_type e, CorpusParserService.ev_text e).

(** The number of events of a kind. *)
Definition count_kind (kind : string) (events : list CorpusParserService.RedlineEvent) : nat :=
  length (filter (fun e => (CorpusParserService.ev_type e =? kind)%string) events).

(** A check on the shape of a document: no paragraph lies within a
    paragraph, and every tracked node lies within a paragraph.  [inside]
    tells whether [e] is within a paragraph. *)
Fixpoint tracked_in_paragraphs (inside : bool) (e : Element) : bool :=
  match e with
  | Elem _ _ _ _ _ cs =>
      forallb (fun c =>
                 if (tag c =? Xml.w "p")%string
                 then negb inside && tracked_in_paragraphs true c
                 else if (tag c =? Xml.w "ins")%string || (tag c =? Xml.w "del")%string
                 then inside && tracked_in_paragraphs inside c
                 else tracked_in_paragraphs inside c)
              cs
  end.

(** The span of a paragraph: the paragraph, where its text starts and where
    it stops. *)
Definition span_paragraph (span : nat * Z * Z) : nat := fst (fst span).
Definition span_start (span : nat * Z * Z) : Z := snd (fst span).
Definition span_stop (span : nat * Z * Z) : Z := snd span.

(** Whether a position lies in a span, and how far from its ends it lies. *)
Definition within (pos : Z) (span : nat * Z * Z) : Prop :=
  (span_start span <= pos <= span_stop span)%Z.

Definition distance (pos : Z) (span : nat * Z * Z) : Z :=
  Z.min (Z.abs (pos - span_start span)) (Z.abs (pos - span_stop span)).

(** Spans laid out one after the other from [cursor], two characters
    apart, none of them empty. *)
Fixpoint chained (cursor : Z) (spans : list (nat * Z * Z)) : Prop :=
  match spans with
  | [] => True
  | span :: rest =>
      span_start span = cursor /\ (span_start span < span_stop span)%Z /\
      chained (span_stop span + 2) rest
  end.

(** The text [_build_paragraph_spans] measures. *)
Definition clean_text (paragraph : Element) : string :=
  Py.strip (Py.join " " (Py.split (Xml._collect_text paragraph))).

(** What the loop over the spans of [_resolve_reply_paragraph] has found
    after the spans [seen]: a span that contains the position if there is
    one, and otherwise the first of the nearest spans. *)
Definition position_invariant (pos : Z) (seen : list (nat * Z * Z))
    (acc : option nat * option nat * option Z) : Prop :=
  let '(containing, best_by_pos, best_pos_distance) := acc in
  (forall p, containing = Some p ->
     exists span, In span seen /\ within pos span /\ span_paragraph span = p) /\
  (containing = None ->
     (forall span, In span seen -> ~ within pos span) /\
     match seen with
     | [] => best_by_pos = None /\ best_pos_distance = None
     | _ :: _ =>
         exists span,
           In span seen /\ best_by_pos = Some (span_paragraph span) /\
           best_pos_distance = Some (distance pos span) /\
           forall other, In other seen -> (distance pos span <= distance pos other)%Z
     end).

(** Kind and text of the event a tracked node gives. *)
Definition node_event (node : Element) : string * string :=
  if (tag node =? Xml.w "ins")%string
  then ("insertion", Xml._collect_text node)
  else ("deletion", Xml._collect_deleted_text node).

(** Whether the Extractor reports a tracked node: the node has text. *)
Definition reported (node : Element) : bool := Py.truthy (snd (node_event node)).

(** Where the text of a paragraph row starts in [raw_text] when the rows
    [before] come before it: the texts are joined by two line feeds. *)
Definition offset (before : list (string * list string)) : nat :=
  fold_right (fun row n => String.length (fst row) + 2 + n) 0 before.

(* ------------------------------------------------------------------ *)
(** * Properties of the Mutator: one decision *)

Import Xml.
Import DocxRedlineEditorService.

(** ** Trees *)

Lemma iter_eq e : iter e = e :: flat_map iter (children e).
Proof. destruct e; reflexivity. Qed.

Lemma ids_cons e l : ids (e :: l) = eid e :: ids (children e) ++ ids l.
Proof.
  unfold ids. simpl. rewrite (iter_eq e). simpl. now rewrite map_app.
Qed.

Lemma ids_app l1 l2 : ids (l1 ++ l2) = ids l1 ++ ids l2.
Proof. unfold ids. now rewrite flat_map_app, map_app. Qed.

Lemma in_ids_iter p l : In p (flat_map iter l) -> In (eid p) (ids l).
Proof. intros H. unfold ids. now apply in_map. Qed.

Lemma set_children_absent pid cs :
  (forall e, ~ In pid (ids [e]) -> set_children pid cs e = e).
Proof.
  intros e. induction e using Element_ind2 with
    (Q := fun l => ~ In pid (ids l) -> map (set_children pid cs) l = l).
  - intros H. rewrite ids_cons in H. simpl in H. rewrite app_nil_r in H. simpl.
    destruct (Nat.eqb_spec i pid) as [->|Hne]; [exfalso; apply H; now left|].
    f_equal. apply IHe. intros K. apply H. now right.
  - reflexivity.
  - intros H. rewrite ids_cons in H. simpl. f_equal.
    + apply IHe. rewrite ids_cons. simpl. rewrite app_nil_r.
      intros [K|K]; apply H; [now left|]. right. apply in_or_app. now left.
    + apply IHe0. intros K. apply H. right. apply in_or_app. now right.
Qed.

Lemma set_children_absent_list pid cs l :
  ~ In pid (ids l) -> map (set_children pid cs) l = l.
Proof.
  induction l as [|e l IH]; intros H; [reflexivity|].
  rewrite ids_cons in H. simpl. f_equal.
  - apply set_children_absent. rewrite ids_cons. simpl. rewrite app_nil_r.
    intros [K|K]; apply H; [now left|]. right. apply in_or_app. now left.
  - apply IH. intros K. apply H. right. apply in_or_app. now right.
Qed.

Lemma NoDup_app_disjoint {A} (l1 l2 : list A) :
  NoDup (l1 ++ l2) -> NoDup l1 /\ NoDup l2 /\ forall a, In a l1 -> ~ In a l2.
Proof.
  induction l1 as [|x l1 IH]; simpl; intros H.
  - repeat split; [constructor|assumption|tauto].
  - inversion H as [|? ? Hx Hnd]; subst. destruct (IH Hnd) as (H1 & H2 & H3).
    repeat split; trivial.
    + constructor; trivial. intros K. apply Hx. apply in_or_app. now left.
    + intros a [->|Ha] K; [apply Hx; apply in_or_app; now right|]. now apply (H3 a).
Qed.

Lemma labels_app l1 l2 : labels (l1 ++ l2) = labels l1 ++ labels l2.
Proof. unfold labels. now rewrite flat_map_app, map_app. Qed.

Lemma labels_cons e l : labels (e :: l) = label e :: labels (children e) ++ labels l.
Proof. unfold labels. simpl. rewrite (iter_eq e). simpl. now rewrite map_app. Qed.

Section Splice.
Variable p : Element.
Variables pre mid post : list Element.
Hypothesis Hchildren : children p = pre ++ mid ++ post.

Local Abbreviation sc new := (set_children (eid p) (pre ++ new ++ post)).

Lemma label_set_children new e : label (sc new e) = label e.
Proof. destruct e as [i t a x y cs]. simpl. now destruct (i =? eid p). Qed.

Let P (e : Element) : Prop :=
  NoDup (ids [e]) -> In p (iter e) ->
  exists A B,
    labels [e] = label e :: A ++ labels mid ++ B /\
    forall new, labels [sc new e] = label e :: A ++ labels new ++ B.

Let Q (l : list Element) : Prop :=
  NoDup (ids l) -> In p (flat_map iter l) ->
  exists A B,
    labels l = A ++ labels mid ++ B /\
    forall new, labels (map (sc new) l) = A ++ labels new ++ B.

Lemma splice_cons e l : P e -> Q l -> Q (e :: l).
Proof.
  intros HP HQ Hnd Hin.
  change (e :: l) with ([e] ++ l) in Hnd. rewrite ids_app in Hnd.
  destruct (NoDup_app_disjoint _ _ Hnd) as (Hnd1 & Hnd2 & Hdis).
  simpl in Hin. apply in_app_or in Hin. destruct Hin as [Hin|Hin].
  - destruct (HP Hnd1 Hin) as (A & B & HA & HB).
    exists (label e :: A), (B ++ labels l). split.
    + change (e :: l) with ([e] ++ l). rewrite labels_app, HA.
      simpl. now rewrite <- !app_assoc.
    + intros new. simpl map.
      change (sc new e :: map (sc new) l) with ([sc new e] ++ map (sc new) l).
      rewrite labels_app, HB.
      rewrite (set_children_absent_list (eid p) (pre ++ new ++ post) l).
      * simpl. now rewrite <- !app_assoc.
      * apply Hdis. unfold ids. simpl. rewrite app_nil_r. now apply in_map.
  - destruct (HQ Hnd2 Hin) as (A & B & HA & HB).
    exists (labels [e] ++ A), B. split.
    + change (e :: l) with ([e] ++ l). rewrite labels_app, HA.
      now rewrite <- !app_assoc.
    + intros new. simpl map.
      change (sc new e :: map (sc new) l) with ([sc new e] ++ map (sc new) l).
      rewrite labels_app, HB.
      rewrite (set_children_absent (eid p) (pre ++ new ++ post) e).
      * now rewrite <- !app_assoc.
      * intros K. apply (Hdis _ K). now apply in_ids_iter.
Qed.

Lemma splice_elem : forall e, P e.
Proof.
  induction e using Element_ind2 with (Q := Q).
  - intros Hnd Hin. rewrite ids_cons in Hnd. simpl in Hnd. rewrite app_nil_r in Hnd.
    inversion Hnd as [|? ? Hi Hcs]; subst.
    simpl in Hin. destruct Hin as [Heq|Hin].
    + subst p. simpl in Hchildren. subst cs.
      exists (labels pre), (labels post). split.
      * rewrite labels_cons. simpl. rewrite app_nil_r. now rewrite !labels_app.
      * intros new. simpl. rewrite Nat.eqb_refl.
        rewrite labels_cons. simpl. rewrite app_nil_r. now rewrite !labels_app.
    + destruct (IHe Hcs Hin) as (A & B & HA & HB).
      exists A, B. split.
      * rewrite labels_cons. simpl. rewrite app_nil_r. now rewrite HA.
      * intros new. simpl.
        destruct (Nat.eqb_spec i (eid p)) as [->|Hne].
        { exfalso. apply Hi. now apply in_ids_iter. }
        rewrite labels_cons. simpl. rewrite app_nil_r. f_equal. apply HB.
  - intros _ [].
  - now apply splice_cons.
Qed.
End Splice.

(** Replacing [mid] by [new] among the children of the object [p] replaces,
    in the document order of the tree, what [mid] holds by what [new] holds. *)
Lemma splice_descendants (r p : Element) (pre mid post : list Element) :
  NoDup (ids [r]) -> In p (iter r) -> children p = pre ++ mid ++ post ->
  exists A B,
    labels (children r) = A ++ labels mid ++ B /\
    forall new,
      labels (children (set_children (eid p) (pre ++ new ++ post) r))
      = A ++ labels new ++ B.
Proof.
  intros Hnd Hin Hch.
  destruct (splice_elem p pre mid post Hch r Hnd Hin) as (A & B & HA & HB).
  exists A, B. split.
  - rewrite labels_cons in HA. simpl in HA. rewrite app_nil_r in HA. now inversion HA.
  - intros new. specialize (HB new). rewrite labels_cons in HB. simpl in HB.
    rewrite app_nil_r in HB. now inversion HB.
Qed.

(** An element of a tree occupies a segment of its document order. *)
Lemma iter_segment (p : Element) :
  forall e, In p (iter e) -> exists A B, iter e = A ++ iter p ++ B.
Proof.
  induction e using Element_ind2 with
    (Q := fun l => In p (flat_map iter l) ->
                   exists A B, flat_map iter l = A ++ iter p ++ B).
  - intros [Heq|Hin].
    + subst p. exists [], []. now rewrite app_nil_r.
    + destruct (IHe Hin) as (A & B & HAB).
      exists (Elem i t a x y cs :: A), B. simpl. now rewrite HAB.
  - intros [].
  - simpl. intros Hin. apply in_app_or in Hin. destruct Hin as [Hin|Hin].
    + destruct (IHe Hin) as (A & B & HAB). exists A, (B ++ flat_map iter cs).
      rewrite HAB. now rewrite <- !app_assoc.
    + destruct (IHe0 Hin) as (A & B & HAB). exists (iter e ++ A), B.
      rewrite HAB. now rewrite <- !app_assoc.
Qed.

Lemma NoDup_ids_sub (r p : Element) :
  NoDup (ids [r]) -> In p (iter r) -> NoDup (ids [p]).
Proof.
  intros Hnd Hin. destruct (iter_segment p r Hin) as (A & B & HAB).
  unfold ids in *. simpl in *. rewrite !app_nil_r in *.
  rewrite HAB, !map_app in Hnd.
  apply NoDup_app_remove_l in Hnd. now apply NoDup_app_remove_r in Hnd.
Qed.

Lemma NoDup_ids_children (l : list Element) :
  NoDup (ids l) -> NoDup (map eid l).
Proof.
  induction l as [|e l IH]; intros Hnd; [constructor|].
  rewrite ids_cons in Hnd. inversion Hnd as [|? ? Hx Hrest]; subst.
  apply NoDup_app_remove_l in Hrest as Hl. simpl. constructor; [|now apply IH].
  intros K. apply Hx. apply in_or_app. right.
  apply in_map_iff in K. destruct K as (c & Hc & Hin).
  rewrite <- Hc. apply in_ids_iter. apply in_flat_map. exists c. split; trivial.
  rewrite iter_eq. now left.
Qed.

(** The children of an element of a tree with distinct identities have
    distinct identities. *)
Lemma NoDup_children (r p : Element) :
  NoDup (ids [r]) -> In p (iter r) -> NoDup (map eid (children p)).
Proof.
  intros Hnd Hin. apply NoDup_ids_children.
  pose proof (NoDup_ids_sub r p Hnd Hin) as H.
  rewrite ids_cons in H. simpl in H. rewrite app_nil_r in H. now inversion H.
Qed.

(** ** The child list *)

Lemma remove_child_middle n pre x post :
  eid x = n -> ~ In n (map eid pre) ->
  remove_child n (pre ++ x :: post) = pre ++ post.
Proof.
  intros Hx. induction pre as [|c pre IH]; simpl; intros Hn.
  - subst n. now rewrite Nat.eqb_refl.
  - destruct (Nat.eqb_spec (eid c) n) as [Heq|Hne]; [exfalso; apply Hn; now left|].
    f_equal. apply IH. intros K. apply Hn. now right.
Qed.

Lemma index_of_middle n pre x post :
  eid x = n -> ~ In n (map eid pre) ->
  index_of n (pre ++ x :: post) = length pre.
Proof.
  intros Hx. induction pre as [|c pre IH]; simpl; intros Hn.
  - subst n. now rewrite Nat.eqb_refl.
  - destruct (Nat.eqb_spec (eid c) n) as [Heq|Hne]; [exfalso; apply Hn; now left|].
    f_equal. apply IH. intros K. apply Hn. now right.
Qed.

Lemma list_insert_middle pre done x post :
  list_insert (length pre + length done) x (pre ++ done ++ post)
  = pre ++ (done ++ [x]) ++ post.
Proof.
  unfold list_insert. rewrite app_assoc.
  rewrite <- length_app.
  rewrite firstn_app, firstn_all, Nat.sub_diag. simpl. rewrite app_nil_r.
  rewrite skipn_app, skipn_all, Nat.sub_diag. simpl.
  rewrite <- !app_assoc. reflexivity.
Qed.

Lemma insert_all_middle pre post replacement : forall done,
  fst (fold_left (fun '(l, offset) r => (list_insert (length pre + offset) r l, S offset))
                 replacement (pre ++ done ++ post, length done))
  = pre ++ (done ++ replacement) ++ post.
Proof.
  induction replacement as [|x rest IH]; intros done; simpl.
  - now rewrite app_nil_r.
  - rewrite list_insert_middle.
    replace (S (length done)) with (length (done ++ [x])) by (rewrite length_app; simpl; lia).
    rewrite IH. now rewrite <- (app_assoc done [x] rest).
Qed.

(** [_replace_node] puts the replacement where the node was. *)
Lemma replace_node_middle pre node post replacement :
  ~ In (eid node) (map eid pre) ->
  _replace_node (pre ++ node :: post) (length pre) node replacement
  = pre ++ replacement ++ post.
Proof.
  intros Hn. unfold _replace_node. rewrite remove_child_middle; trivial.
  apply (insert_all_middle pre post replacement []).
Qed.

Lemma NoDup_middle {A} (pre : list A) x post :
  NoDup (pre ++ x :: post) -> ~ In x pre.
Proof.
  intros H K. apply NoDup_remove_2 in H. apply H. apply in_or_app. now left.
Qed.

(** ** Text nodes *)

Lemma texts_of_labels name e :
  texts_of name e = flat_map (text_of name) (labels (children e)).
Proof.
  unfold texts_of, findall, descendants, labels.
  induction (flat_map iter (children e)) as [|x l IH]; [reflexivity|].
  simpl. destruct x as [i t a tx tl cs]. simpl in *.
  destruct (t =? w name)%string; simpl; now rewrite IH.
Qed.

Lemma texts_of_node name node :
  tag node <> w name ->
  flat_map (text_of name) (labels [node]) = texts_of name node.
Proof.
  intros Ht. rewrite labels_cons, texts_of_labels. simpl. rewrite app_nil_r.
  destruct node as [i t a x y cs]. simpl in *.
  destruct (String.eqb_spec t (w name)); [contradiction|reflexivity].
Qed.

(** ** Copies *)

Lemma deepcopy_eq n i t a x y cs :
  deepcopy n (Elem i t a x y cs)
  = let '(cs', n') := deepcopy_list (S n) cs in (Elem n t a x y cs', n').
Proof.
  simpl. generalize (S n). induction cs as [|c cs IH]; intros m; [reflexivity|].
  simpl. destruct (deepcopy m c) as [c' n1]. simpl.
  specialize (IH n1).
  match type of IH with
  | (let '(_, _) := ?L in _) = (let '(_, _) := ?R in _) =>
      destruct L as [l1 k1]; destruct R as [l2 k2]
  end.
  inversion IH; subst. reflexivity.
Qed.

(** [copy.deepcopy] gives the same tree. *)
Lemma deepcopy_erase : forall e n, erase (fst (deepcopy n e)) = erase e.
Proof.
  induction e using Element_ind2 with
    (Q := fun l => forall n, map erase (fst (deepcopy_list n l)) = map erase l).
  - intros n. rewrite deepcopy_eq. specialize (IHe (S n)).
    destruct (deepcopy_list (S n) cs) as [cs' n']. simpl in *. now rewrite IHe.
  - reflexivity.
  - intros n. simpl. specialize (IHe n). destruct (deepcopy n e) as [c' n1].
    specialize (IHe0 n1). destruct (deepcopy_list n1 cs) as [r' n2].
    simpl in *. now rewrite IHe, IHe0.
Qed.

Lemma deepcopy_list_erase l n : map erase (fst (deepcopy_list n l)) = map erase l.
Proof.
  revert n. induction l as [|c l IH]; intros n; [reflexivity|].
  simpl. pose proof (deepcopy_erase c n) as Hc. destruct (deepcopy n c) as [c' n1].
  specialize (IH n1). destruct (deepcopy_list n1 l) as [r' n2].
  simpl in *. now rewrite Hc, IH.
Qed.

Lemma texts_erase name :
  forall l, flat_map (text_of name) (labels (map erase l))
            = flat_map (text_of name) (labels l).
Proof.
  assert (H : forall e, flat_map (text_of name) (labels [erase e])
                        = flat_map (text_of name) (labels [e])).
  { induction e using Element_ind2 with
      (Q := fun l => flat_map (text_of name) (labels (map erase l))
                     = flat_map (text_of name) (labels l)).
    - simpl erase. rewrite !labels_cons. simpl. rewrite !app_nil_r. now rewrite IHe.
    - reflexivity.
    - simpl map. change (erase e :: map erase cs) with ([erase e] ++ map erase cs).
      change (e :: cs) with ([e] ++ cs).
      rewrite !labels_app, !flat_map_app. now rewrite IHe, IHe0. }
  induction l as [|e l IH]; [reflexivity|].
  simpl map. change (erase e :: map erase l) with ([erase e] ++ map erase l).
  change (e :: l) with ([e] ++ l).
  rewrite !labels_app, !flat_map_app. now rewrite H, IH.
Qed.

(** The copies of a list of trees hold the same text nodes. *)
Lemma texts_deepcopy name l n :
  flat_map (text_of name) (labels (fst (deepcopy_list n l)))
  = flat_map (text_of name) (labels l).
Proof.
  rewrite <- texts_erase, deepcopy_list_erase. apply texts_erase.
Qed.

(** ** The parent map *)

Lemma dict_get_In {K V} (eqb : K -> K -> bool) (d : list (K * V)) k v :
  Py.dict_get eqb d k = Some v -> exists k', In (k', v) d /\ eqb k k' = true.
Proof.
  induction d as [|[k' v'] d IH]; simpl; [discriminate|].
  destruct (eqb k k') eqn:E.
  - intros [= ->]. exists k'. split; [now left|assumption].
  - intros H. destruct (IH H) as (k2 & Hin & Hk). exists k2. split; [now right|assumption].
Qed.

Lemma pm_get_parent r n parent :
  pm_get (_build_parent_map r) n = Some parent ->
  In parent (iter r) /\ In n (map eid (children parent)).
Proof.
  unfold pm_get. intros H. apply dict_get_In in H. destruct H as (k & Hin & Hk).
  apply Nat.eqb_eq in Hk. subst k. apply in_rev in Hin.
  unfold _build_parent_map in Hin. apply in_flat_map in Hin.
  destruct Hin as (p & Hp & Hc). apply in_map_iff in Hc.
  destruct Hc as (c & Heq & Hc). inversion Heq; subst. split; trivial.
  now apply in_map.
Qed.

(** ** One decision on one tracked node *)

Section SingleDecision.
Variable d : Document.
Variables parent node : Element.
Variables pre post : list Element.
Hypothesis Hunique : NoDup (map eid (iter (root d))).
Hypothesis Hparent : pm_get (_build_parent_map (root d)) (eid node) = Some parent.
Hypothesis Hchildren : children parent = pre ++ node :: post.

Lemma unique_ids_root : NoDup (ids [root d]).
Proof. unfold ids. simpl. now rewrite app_nil_r. Qed.

Lemma node_first : ~ In (eid node) (map eid pre).
Proof.
  destruct (pm_get_parent _ _ _ Hparent) as [Hin _].
  pose proof (NoDup_children _ _ unique_ids_root Hin) as Hnd.
  rewrite Hchildren, map_app in Hnd. simpl in Hnd.
  now apply NoDup_middle in Hnd.
Qed.

Lemma index_of_node : index_of (eid node) (children parent) = length pre.
Proof. rewrite Hchildren. apply index_of_middle; [reflexivity|apply node_first]. Qed.

Lemma remove_node : remove_child (eid node) (children parent) = pre ++ post.
Proof. rewrite Hchildren. apply remove_child_middle; [reflexivity|apply node_first]. Qed.

Lemma replace_node replacement :
  _replace_node (children parent) (index_of (eid node) (children parent)) node replacement
  = pre ++ replacement ++ post.
Proof.
  rewrite index_of_node, Hchildren. apply replace_node_middle, node_first.
Qed.

(** The text nodes of the body after the node has been replaced. *)
Lemma replaced_texts :
  tag node <> w "t" ->
  exists A B,
    texts_of "t" (root d) = A ++ texts_of "t" node ++ B /\
    forall replacement gone next,
      texts_of "t" (root (store_children d parent (pre ++ replacement ++ post) gone next))
      = A ++ flat_map (text_of "t") (labels replacement) ++ B.
Proof.
  intros Ht.
  destruct (pm_get_parent _ _ _ Hparent) as [Hin _].
  destruct (splice_descendants (root d) parent pre [node] post
              unique_ids_root Hin Hchildren) as (A & B & HA & HB).
  exists (flat_map (text_of "t") A), (flat_map (text_of "t") B). split.
  - rewrite texts_of_labels, HA, !flat_map_app. now rewrite texts_of_node.
  - intros replacement gone next. simpl.
    rewrite texts_of_labels, HB, !flat_map_app. reflexivity.
Qed.
End SingleDecision.

Lemma local_name_ins : _local_name (w "ins") = "ins".
Proof. reflexivity. Qed.

Lemma local_name_del : _local_name (w "del") = "del".
Proof. reflexivity. Qed.

Lemma make_run_texts n txt :
  flat_map (text_of "t") (labels [fst (_make_run n txt)])
  = if Py.truthy txt then [txt] else [].
Proof.
  unfold _make_run. simpl fst. rewrite !labels_cons. simpl.
  change ((w "r" =? w "t")%string) with false.
  change ((w "t" =? w "t")%string) with true. simpl.
  now destruct (Py.truthy txt).
Qed.

(** ** A decision in the loop *)

Lemma child_in_iter r p c : In p (iter r) -> In c (children p) -> In c (iter r).
Proof.
  intros Hp Hc. destruct (iter_segment p r Hp) as (A & B & ->).
  apply in_or_app. right. apply in_or_app. left.
  rewrite iter_eq. right. apply in_flat_map. exists c. split; trivial.
  rewrite iter_eq. now left.
Qed.




Lemma find_ancestor_absent pm n local_name :
  pm_get pm n = None -> _find_ancestor n pm local_name = None.
Proof. intros H. unfold _find_ancestor. simpl. now rewrite H. Qed.

(** Objects of a tree with distinct identities are told apart by their
    identities. *)
Lemma same_eid (l : list Element) x y :
  NoDup (map eid l) -> In x l -> In y l -> eid x = eid y -> x = y.
Proof.
  induction l as [|a l IH]; intros Hnd Hx Hy He; [destruct Hx|].
  simpl in Hnd. inversion Hnd as [|? ? Ha Hl]; subst.
  destruct Hx as [->|Hx], Hy as [->|Hy]; trivial.
  - exfalso. apply Ha. rewrite He. now apply in_map.
  - exfalso. apply Ha. rewrite <- He. now apply in_map.
  - now apply IH.
Qed.

(** The object that the list of tracked nodes holds for a child of [parent]
    is that child. *)
Lemma resolved_child d parent node :
  NoDup (map eid (iter (root d))) ->
  deref d (eid node) = Some node ->
  pm_get (_build_parent_map (root d)) (eid node) = Some parent ->
  exists pre post, children parent = pre ++ node :: post.
Proof.
  intros Hu Hd Hp. destruct (pm_get_parent _ _ _ Hp) as [Hin Hc].
  apply in_map_iff in Hc. destruct Hc as (c & Hec & Hc).
  pose proof (child_in_iter _ _ _ Hin Hc) as Hcr.
  assert (Hnode : node = c).
  { unfold deref in Hd. cbn [lookup_in] in Hd.
    destruct (lookup (eid node) (root d)) as [x|] eqn:El.
    - injection Hd as ->. unfold lookup in El. apply find_some in El.
      destruct El as [Hx He]. apply Nat.eqb_eq in He.
      apply (same_eid (iter (root d))); trivial. congruence.
    - exfalso. unfold lookup in El.
      apply (find_none _ _ El c) in Hcr. rewrite Hec, Nat.eqb_refl in Hcr. discriminate. }
  subst c. apply in_split in Hc. exact Hc.
Qed.

Section Step.

Variable ratio : string -> string -> Q.
Variable have_parts : bool.
Variable tracked_nodes : list nat.
Variable all_paragraphs : list nat.
Variable paragraph_spans : list (nat * Z * Z).

(** A redline decision that resolves to a tracked node, and whose action is
    not a reply, is carried out on that node. *)
Lemma step_resolved b decision n :
  source_type decision = "redline" ->
  Py.lower (Py.strip (action decision)) <> "reply" ->
  _resolve_tracked_node ratio (doc b) tracked_nodes decision = Some n ->
  step ratio have_parts tracked_nodes all_paragraphs paragraph_spans b decision
  = step_tracked b decision n.
Proof.
  intros Hs Ha Hr. unfold step. rewrite Hs, Hr.
  change (negb (Py.mem "redline" ["redline"; "comment"])) with false.
  change (("redline" =? "comment")%string) with false. cbv iota.
  destruct (String.eqb_spec (Py.lower (Py.strip (action decision))) "reply");
    [contradiction|reflexivity].
Qed.

End Step.

(** A decision on a node that is out of the tree does nothing. *)
Lemma step_tracked_detached b decision node :
  deref (doc b) (eid node) = Some node ->
  pm_get (_build_parent_map (root (doc b))) (eid node) = None ->
  step_tracked b decision (eid node) = Ok b.
Proof.
  intros Hd Hp. unfold step_tracked. rewrite Hd.
  unfold _apply_single_decision. rewrite Hp, (find_ancestor_absent _ _ _ Hp).
  destruct (negb _); destruct b; reflexivity.
Qed.

(** A decision on a node that is in the tree leaves the document that
    [_apply_single_decision] gives. *)
Lemma step_tracked_doc b decision node d' :
  deref (doc b) (eid node) = Some node ->
  _apply_single_decision (doc b) (_build_parent_map (root (doc b))) node
    (action decision) (modified_text decision) = Ok d' ->
  exists b', step_tracked b decision (eid node) = Ok b' /\ doc b' = d'.
Proof.
  intros Hd Ha. unfold step_tracked. rewrite Hd, Ha.
  destruct (_find_ancestor _ _ _); [|eexists; split; reflexivity].
  destruct (_ && _); eexists; split; reflexivity.
Qed.

(** The deleted text of a node, read from the text nodes it holds. *)
Lemma collect_deleted_text_labels node :
  _collect_deleted_text node
  = Py.strip (Py.join ""
      (match flat_map (text_of "delText") (labels (children node)) with
       | [] => flat_map (text_of "t") (labels (children node))
       | _ :: _ => flat_map (text_of "delText") (labels (children node))
       end)).
Proof.
  unfold _collect_deleted_text, _collect_text. rewrite !texts_of_labels.
  destruct (flat_map (text_of "delText") (labels (children node))); reflexivity.
Qed.

(** What accepting and rejecting do to a tracked node that is in the tree,
    where [parent] is its parent and [pre] and [post] are its siblings. *)
Lemma single_decision_accept_reject d parent node pre post act modified :
  NoDup (map eid (iter (root d))) ->
  pm_get (_build_parent_map (root d)) (eid node) = Some parent ->
  children parent = pre ++ node :: post ->
  tag node = w "ins" \/ tag node = w "del" ->
  let result := _apply_single_decision d (_build_parent_map (root d)) node act modified in
  let copies := fst (deepcopy_list (next_id d) (children node)) in
  let restored := _collect_deleted_text node in
  let plain_run := fst (_make_run (next_id d) restored) in
  exists A B,
    texts_of "t" (root d) = A ++ texts_of "t" node ++ B /\
    (tag node = w "ins" -> Py.lower (Py.strip act) = "accept" ->
       exists d',
         result = Ok d' /\
         root d' = set_children (eid parent) (pre ++ copies ++ post) (root d) /\
         map erase copies = map erase (children node) /\
         texts_of "t" (root d') = A ++ texts_of "t" node ++ B) /\
    (tag node = w "ins" -> Py.lower (Py.strip act) = "reject" ->
       exists d',
         result = Ok d' /\
         root d' = set_children (eid parent) (pre ++ post) (root d) /\
         texts_of "t" (root d') = A ++ B) /\
    (tag node = w "del" -> Py.lower (Py.strip act) = "reject" ->
       exists d',
         result = Ok d' /\
         root d' = set_children (eid parent)
                     (pre ++ (if Py.truthy restored then [plain_run] else []) ++ post)
                     (root d) /\
         texts_of "t" (root d')
         = A ++ (if Py.truthy restored then [restored] else []) ++ B) /\
    (tag node = w "del" -> Py.lower (Py.strip act) = "accept" ->
       exists d',
         result = Ok d' /\
         root d' = set_children (eid parent) (pre ++ post) (root d) /\
         texts_of "t" (root d') = A ++ B).
Proof.
  intros Hu Hp Hc Htag result copies restored plain_run.
  assert (Ht : tag node <> w "t") by (destruct Htag as [H|H]; rewrite H; discriminate).
  destruct (replaced_texts d parent node pre post Hu Hp Hc Ht) as (A & B & HA & HB).
  pose proof (remove_node d parent node pre post Hu Hp Hc) as Hrem.
  pose proof (replace_node d parent node pre post Hu Hp Hc) as Hrep.
  exists A, B. split; [exact HA|].
  subst result. unfold _apply_single_decision. rewrite Hp.
  repeat split.
  - intros Hins Hact. rewrite Hins, local_name_ins, Hact. simpl.
    fold copies. destruct (deepcopy_list (next_id d) (children node)) as [cs next] eqn:E.
    eexists. split; [reflexivity|]. rewrite Hrep. subst copies. simpl fst.
    split; [reflexivity|]. split.
    + pose proof (deepcopy_list_erase (children node) (next_id d)) as He.
      now rewrite E in He.
    + rewrite HB. pose proof (texts_deepcopy "t" (children node) (next_id d)) as Hx.
      rewrite E in Hx. simpl in Hx. rewrite Hx. now rewrite <- texts_of_labels.
  - intros Hins Hact. rewrite Hins, local_name_ins, Hact. simpl.
    eexists. split; [reflexivity|]. rewrite Hrem. split; [reflexivity|].
    pose proof (HB [] [node] (next_id d)) as Hx. simpl in Hx. exact Hx.
  - intros Hdel Hact. rewrite Hdel, local_name_del, Hact. simpl.
    fold restored. destruct (Py.truthy restored) eqn:Etr.
    + pose proof (make_run_texts (next_id d) restored) as Hm.
      fold plain_run in Hm. rewrite Etr in Hm.
      assert (Hrun : plain_run
                     = Elem (next_id d) (w "r") [] None None
                         [Elem (S (next_id d)) (w "t")
                            (if true && (Py.startswith restored " " || Py.endswith restored " ")
                             then [(("{" ++ XML_NS ++ "}space")%string, "preserve")] else [])
                            (Some restored) None []]).
      { subst plain_run. unfold _make_run. simpl fst. now rewrite Etr. }
      rewrite Hrun in *.
      eexists. split; [reflexivity|]. rewrite Hrep. split; [reflexivity|].
      rewrite HB. f_equal. f_equal. exact Hm.
    + eexists. split; [reflexivity|]. rewrite Hrep. split; [reflexivity|].
      rewrite HB. reflexivity.
  - intros Hdel Hact. rewrite Hdel, local_name_del, Hact. simpl.
    eexists. split; [reflexivity|]. rewrite Hrem. split; [reflexivity|].
    pose proof (HB [] [node] (next_id d)) as Hx. simpl in Hx. exact Hx.
Qed.

(** C1, as the code has it.  A redline decision that resolves to a tracked
    node, at any point of a batch.  When the node is still in the tree:
    accepting an insertion puts copies of the children of the node in its
    place (the run content stays, the wrapper goes) and the text nodes of the
    body are the same; rejecting an insertion removes the node with its
    content, so its text nodes leave the body; rejecting a deletion puts in
    its place one plain run with the deleted text, which is the text of the
    w:delText elements of the node put together and trimmed (that of its w:t
    elements when it has no w:delText), so that text enters the body;
    accepting a deletion removes the node with its content.  When an earlier
    decision has taken the node out of the tree, the decision changes
    nothing. *)
Theorem accept_reject_on_resolved_node :
  forall (ratio : string -> string -> Q) (have_parts : bool)
         (tracked_nodes all_paragraphs : list nat) (paragraph_spans : list (nat * Z * Z))
         (b : Batch) (decision : RedlineDecision) (node : Element),
    NoDup (map eid (iter (root (doc b)))) ->
    source_type decision = "redline" ->
    _resolve_tracked_node ratio (doc b) tracked_nodes decision = Some (eid node) ->
    deref (doc b) (eid node) = Some node ->
    tag node = w "ins" \/ tag node = w "del" ->
    let act := Py.lower (Py.strip (action decision)) in
    let result :=
      step ratio have_parts tracked_nodes all_paragraphs paragraph_spans b decision in
    let body := fun r : Element => flat_map (text_of "t") (labels (children r)) in
    let inner := flat_map (text_of "t") (labels (children node)) in
    let deleted := flat_map (text_of "delText") (labels (children node)) in
    let restored :=
      Py.strip (Py.join "" (match deleted with [] => inner | _ :: _ => deleted end)) in
    let copies := fst (deepcopy_list (next_id (doc b)) (children node)) in
    let plain_run := fst (_make_run (next_id (doc b)) restored) in
    (pm_get (_build_parent_map (root (doc b))) (eid node) = None ->
     In act ["accept"; "reject"] ->
     result = Ok b) /\
    (forall parent,
       pm_get (_build_parent_map (root (doc b))) (eid node) = Some parent ->
       exists pre post A B,
         children parent = pre ++ node :: post /\
         body (root (doc b)) = A ++ inner ++ B /\
         (tag node = w "ins" -> act = "accept" ->
            exists b',
              result = Ok b' /\
              root (doc b')
              = set_children (eid parent) (pre ++ copies ++ post) (root (doc b)) /\
              map erase copies = map erase (children node) /\
              body (root (doc b')) = A ++ inner ++ B) /\
         (tag node = w "ins" -> act = "reject" ->
            exists b',
              result = Ok b' /\
              root (doc b') = set_children (eid parent) (pre ++ post) (root (doc b)) /\
              body (root (doc b')) = A ++ B) /\
         (tag node = w "del" -> act = "reject" ->
            exists b',
              result = Ok b' /\
              root (doc b')
              = set_children (eid parent)
                  (pre ++ (if Py.truthy restored then [plain_run] else []) ++ post)
                  (root (doc b)) /\
              body (root (doc b'))
              = A ++ (if Py.truthy restored then [restored] else []) ++ B) /\
         (tag node = w "del" -> act = "accept" ->
            exists b',
              result = Ok b' /\
              root (doc b') = set_children (eid parent) (pre ++ post) (root (doc b)) /\
              body (root (doc b')) = A ++ B)).
Proof.
  intros ratio have_parts tracked_nodes all_paragraphs paragraph_spans b decision node
         Hu Hs Hr Hd Htag act result body inner deleted restored copies plain_run.
  assert (Hstep : act <> "reply" -> result = step_tracked b decision (eid node)).
  { intros Ha. subst result. now apply step_resolved. }
  split.
  - intros Hp Hact. rewrite Hstep.
    + now apply step_tracked_detached.
    + destruct Hact as [<-|[<-|[]]]; discriminate.
  - intros parent Hp.
    destruct (resolved_child (doc b) parent node Hu Hd Hp) as (pre & post & Hc).
    destruct (single_decision_accept_reject (doc b) parent node pre post
                (action decision) (modified_text decision) Hu Hp Hc Htag)
      as (A & B & HA & Hia & Hir & Hdr & Hda).
    fold act in Hia, Hir, Hdr, Hda.
    pose proof (collect_deleted_text_labels node) as Hrest.
    fold deleted inner in Hrest. fold restored in Hrest.
    rewrite Hrest in Hdr.
    assert (Hbody : forall r, texts_of "t" r = body r)
      by (intros r; apply texts_of_labels).
    assert (Hinner : texts_of "t" node = inner) by apply texts_of_labels.
    rewrite Hbody, Hinner in HA.
    exists pre, post, A, B. split; [exact Hc|]. split; [exact HA|].
    repeat split.
    + intros Ht Ha. destruct (Hia Ht Ha) as (d' & Hres & Hroot & Her & Htx).
      destruct (step_tracked_doc b decision node d' Hd Hres) as (b' & Hb' & Hdoc).
      exists b'. rewrite Hstep by (rewrite Ha; discriminate). rewrite Hdoc.
      rewrite Hbody, Hinner in Htx. now repeat split.
    + intros Ht Ha. destruct (Hir Ht Ha) as (d' & Hres & Hroot & Htx).
      destruct (step_tracked_doc b decision node d' Hd Hres) as (b' & Hb' & Hdoc).
      exists b'. rewrite Hstep by (rewrite Ha; discriminate). rewrite Hdoc.
      rewrite Hbody in Htx. now repeat split.
    + intros Ht Ha. destruct (Hdr Ht Ha) as (d' & Hres & Hroot & Htx).
      destruct (step_tracked_doc b decision node d' Hd Hres) as (b' & Hb' & Hdoc).
      exists b'. rewrite Hstep by (rewrite Ha; discriminate). rewrite Hdoc.
      rewrite Hbody in Htx. now repeat split.
    + intros Ht Ha. destruct (Hda Ht Ha) as (d' & Hres & Hroot & Htx).
      destruct (step_tracked_doc b decision node d' Hd Hres) as (b' & Hb' & Hdoc).
      exists b'. rewrite Hstep by (rewrite Ha; discriminate). rewrite Hdoc.
      rewrite Hbody in Htx. now repeat split.
Qed.

Lemma distinct_NoDup l : distinct l = true -> NoDup l.
Proof.
  induction l as [|x l IH]; simpl; intros H; [constructor|].
  apply andb_true_iff in H. destruct H as [Hx Hl]. constructor; [|now apply IH].
  intros K. apply negb_true_iff in Hx.
  assert (existsb (Nat.eqb x) l = true); [|congruence].
  apply existsb_exists. exists x. split; [assumption|apply Nat.eqb_refl].
Qed.

(** C1, on the example contract: accepting the insertion "45 days", which is
    in the tree, leaves the text nodes of the body as they were. *)
Lemma accept_reject_on_resolved_node_witness :
  exists b',
    step Lib.ratio true
      (map eid (_collect_tracked_nodes Example.contract))
      (map eid (findall "p" Example.contract))
      (_build_paragraph_spans (findall "p" Example.contract))
      (start_batch Example.contract) (Lib.decision "redline" 0 "Accept") = Ok b' /\
    flat_map (text_of "t") (labels (children (root (doc b'))))
    = ["Payment within "; "45 days"; " of invoice."; "Governing law."].
Proof.
  assert (Hu : NoDup (map eid (iter (root (doc (start_batch Example.contract))))))
    by (apply distinct_NoDup; vm_compute; reflexivity).
  destruct (accept_reject_on_resolved_node Lib.ratio true
              (map eid (_collect_tracked_nodes Example.contract))
              (map eid (findall "p" Example.contract))
              (_build_paragraph_spans (findall "p" Example.contract))
              (start_batch Example.contract) (Lib.decision "redline" 0 "Accept")
              (Example.at_id Example.contract 6) Hu)
    as [_ Hin].
  - reflexivity.
  - vm_compute. reflexivity.
  - vm_compute. reflexivity.
  - left. vm_compute. reflexivity.
  - destruct (Hin (Example.at_id Example.contract 3))
      as (pre & post & A & B & _ & HA & Haccept & _).
    + vm_compute. reflexivity.
    + destruct Haccept as (b' & Hres & _ & _ & Htexts).
      * vm_compute. reflexivity.
      * vm_compute. reflexivity.
      * exists b'. split; [exact Hres|]. rewrite Htexts, <- HA.
        vm_compute. reflexivity.
Defined.

(** C1 as stated fails for a decision that resolves to a tracked node that an
    earlier decision of the batch has decided.  After the insertion
    "45 days" of the example contract is accepted, a decision to reject the
    redline of index 0 still resolves to that insertion, and it changes
    nothing: the text stays in the body, and the package written is the one
    that the first decision alone gives. *)
Lemma reject_after_accept_changes_nothing :
  exists b1,
    step Lib.ratio true
      (map eid (_collect_tracked_nodes Example.contract))
      (map eid (findall "p" Example.contract))
      (_build_paragraph_spans (findall "p" Example.contract))
      (start_batch Example.contract) (Lib.decision "redline" 0 "accept") = Ok b1 /\
    _resolve_tracked_node Lib.ratio (doc b1)
      (map eid (_collect_tracked_nodes Example.contract))
      (Lib.decision "redline" 0 "reject")
    = Some (eid (Example.at_id Example.contract 6)) /\
    tag (Example.at_id Example.contract 6) = w "ins" /\
    step Lib.ratio true
      (map eid (_collect_tracked_nodes Example.contract))
      (map eid (findall "p" Example.contract))
      (_build_paragraph_spans (findall "p" Example.contract))
      b1 (Lib.decision "redline" 0 "reject") = Ok b1 /\
    texts_of "t" (root (doc b1))
    = ["Payment within "; "45 days"; " of invoice."; "Governing law."] /\
    Example.apply_decisions (Example.clock "00") "contract.docx"
      (Ok (Example.package Example.contract))
      [Lib.decision "redline" 0 "accept"; Lib.decision "redline" 0 "reject"]
    = Example.apply_decisions (Example.clock "00") "contract.docx"
        (Ok (Example.package Example.contract))
        [Lib.decision "redline" 0 "accept"].
Proof.
  eexists. split; [vm_compute; reflexivity|].
  split; [vm_compute; reflexivity|].
  split; [vm_compute; reflexivity|].
  split; [vm_compute; reflexivity|].
  split; vm_compute; reflexivity.
Qed.

Lemma sor_empty x : Py.sor x "" = x.
Proof.
  unfold Py.sor, Py.truthy. destruct (String.eqb_spec x ""); simpl; congruence.
Qed.

(** What a Modify decision does to a tracked deletion that is in the tree. *)
Lemma single_decision_modify_deletion d parent node pre post act modified :
  NoDup (map eid (iter (root d))) ->
  pm_get (_build_parent_map (root d)) (eid node) = Some parent ->
  children parent = pre ++ node :: post ->
  tag node = w "del" ->
  Py.lower (Py.strip act) = "modify" ->
  let replacement_text :=
    Py.strip (if Py.truthy (Py.or_empty modified)
              then Py.or_empty modified
              else _collect_deleted_text node) in
  let replacement :=
    if Py.truthy replacement_text
    then [fst (_make_run (next_id d) replacement_text)] else [] in
  exists d',
    _apply_single_decision d (_build_parent_map (root d)) node act modified = Ok d' /\
    root d' = set_children (eid parent) (pre ++ replacement ++ post) (root d) /\
    flat_map (text_of "t") (labels replacement)
    = (if Py.truthy replacement_text then [replacement_text] else []) /\
    exists A B,
      texts_of "t" (root d) = A ++ texts_of "t" node ++ B /\
      texts_of "t" (root d')
      = A ++ (if Py.truthy replacement_text then [replacement_text] else []) ++ B.
Proof.
  intros Hu Hp Hc Hdel Hact replacement_text replacement.
  pose proof (replace_node d parent node pre post Hu Hp Hc) as Hrep.
  assert (Ht : tag node <> w "t") by (rewrite Hdel; discriminate).
  destruct (replaced_texts d parent node pre post Hu Hp Hc Ht) as (A & B & HA & HB).
  unfold _apply_single_decision. rewrite Hp, Hdel, local_name_del, Hact.
  rewrite sor_empty.
  change (Py.sor (Py.or_empty modified) (_collect_deleted_text node))
    with (if Py.truthy (Py.or_empty modified)
          then Py.or_empty modified else _collect_deleted_text node).
  fold replacement_text. cbn [Py.mem existsb negb String.eqb Ascii.eqb Bool.eqb orb andb is_action Py.lower Py.strip].
  subst replacement. destruct (Py.truthy replacement_text) eqn:E.
  - destruct (_make_run (next_id d) replacement_text) as [run next] eqn:Er.
    pose proof (make_run_texts (next_id d) replacement_text) as Hm.
    rewrite Er, E in Hm. cbn [fst] in Hm.
    eexists. split; [reflexivity|]. rewrite Hrep. split; [reflexivity|].
    split; [exact Hm|].
    exists A, B. split; [exact HA|]. rewrite HB. cbn [fst]. now rewrite Hm.
  - eexists. split; [reflexivity|]. rewrite Hrep. split; [reflexivity|].
    split; [reflexivity|].
    exists A, B. split; [exact HA|]. rewrite HB. reflexivity.
Qed.

(** C7, as the code has it.  A Modify decision that resolves to a tracked
    deletion, at any point of a batch.  When the node is still in the tree, a
    plain run takes its place whose text is [modified_text] without
    surrounding white space when [modified_text] is not empty, and the
    deleted text of the node itself (the text of its w:delText elements put
    together and trimmed, or of its w:t elements when it has none) when
    [modified_text] is absent or empty; there is no run when the text so
    chosen is empty.  When an earlier decision has taken the node out of the
    tree, the decision changes nothing. *)
Theorem modify_deletion_replacement :
  forall (ratio : string -> string -> Q) (have_parts : bool)
         (tracked_nodes all_paragraphs : list nat) (paragraph_spans : list (nat * Z * Z))
         (b : Batch) (decision : RedlineDecision) (node : Element),
    NoDup (map eid (iter (root (doc b)))) ->
    source_type decision = "redline" ->
    _resolve_tracked_node ratio (doc b) tracked_nodes decision = Some (eid node) ->
    deref (doc b) (eid node) = Some node ->
    tag node = w "del" ->
    Py.lower (Py.strip (action decision)) = "modify" ->
    let result :=
      step ratio have_parts tracked_nodes all_paragraphs paragraph_spans b decision in
    let body := fun r : Element => flat_map (text_of "t") (labels (children r)) in
    let inner := flat_map (text_of "t") (labels (children node)) in
    let deleted := flat_map (text_of "delText") (labels (children node)) in
    let deleted_text :=
      Py.strip (Py.join "" (match deleted with [] => inner | _ :: _ => deleted end)) in
    let modified := Py.or_empty (modified_text decision) in
    let replacement_text :=
      Py.strip (if Py.truthy modified then modified else deleted_text) in
    let replacement :=
      if Py.truthy replacement_text
      then [fst (_make_run (next_id (doc b)) replacement_text)] else [] in
    (pm_get (_build_parent_map (root (doc b))) (eid node) = None -> result = Ok b) /\
    (forall parent,
       pm_get (_build_parent_map (root (doc b))) (eid node) = Some parent ->
       exists pre post A B b',
         children parent = pre ++ node :: post /\
         result = Ok b' /\
         root (doc b')
         = set_children (eid parent) (pre ++ replacement ++ post) (root (doc b)) /\
         flat_map (text_of "t") (labels replacement)
         = (if Py.truthy replacement_text then [replacement_text] else []) /\
         body (root (doc b)) = A ++ inner ++ B /\
         body (root (doc b'))
         = A ++ (if Py.truthy replacement_text then [replacement_text] else []) ++ B).
Proof.
  intros ratio have_parts tracked_nodes all_paragraphs paragraph_spans b decision node
         Hu Hs Hr Hd Hdel Hact result body inner deleted deleted_text modified
         replacement_text replacement.
  assert (Hstep : result = step_tracked b decision (eid node)).
  { subst result. apply step_resolved; trivial. rewrite Hact. discriminate. }
  split.
  - intros Hp. rewrite Hstep. now apply step_tracked_detached.
  - intros parent Hp.
    destruct (resolved_child (doc b) parent node Hu Hd Hp) as (pre & post & Hc).
    destruct (single_decision_modify_deletion (doc b) parent node pre post
                (action decision) (modified_text decision) Hu Hp Hc Hdel Hact)
      as (d' & Hres & Hroot & Hrun & A & B & HA & HB).
    pose proof (collect_deleted_text_labels node) as Hrest.
    fold deleted inner in Hrest. fold deleted_text in Hrest.
    rewrite Hrest in Hroot, Hrun, HB.
    fold modified in Hroot, Hrun, HB. fold replacement_text in Hroot, Hrun, HB.
    fold replacement in Hroot, Hrun.
    destruct (step_tracked_doc b decision node d' Hd Hres) as (b' & Hb' & Hdoc).
    assert (Hbody : forall r, texts_of "t" r = body r)
      by (intros r; apply texts_of_labels).
    assert (Hinner : texts_of "t" node = inner) by apply texts_of_labels.
    rewrite Hbody, Hinner in HA. rewrite Hbody in HB.
    exists pre, post, A, B, b'. rewrite Hstep, Hdoc. now repeat split.
Qed.

(** C7, on the example contract: modifying the deletion "30 days" with the
    text " 60 days " puts the run "60 days" where the deletion was. *)
Lemma modify_deletion_replacement_witness :
  exists b' A B,
    step Lib.ratio true
      (map eid (_collect_tracked_nodes Example.contract))
      (map eid (findall "p" Example.contract))
      (_build_paragraph_spans (findall "p" Example.contract))
      (start_batch Example.contract)
      (Lib.with_modified_text (Lib.decision "redline" 1 "modify") " 60 days ") = Ok b' /\
    ["Payment within "; "45 days"; " of invoice."; "Governing law."] = A ++ B /\
    flat_map (text_of "t") (labels (children (root (doc b')))) = A ++ ["60 days"] ++ B.
Proof.
  assert (Hu : NoDup (map eid (iter (root (doc (start_batch Example.contract))))))
    by (apply distinct_NoDup; vm_compute; reflexivity).
  destruct (modify_deletion_replacement Lib.ratio true
              (map eid (_collect_tracked_nodes Example.contract))
              (map eid (findall "p" Example.contract))
              (_build_paragraph_spans (findall "p" Example.contract))
              (start_batch Example.contract)
              (Lib.with_modified_text (Lib.decision "redline" 1 "modify") " 60 days ")
              (Example.at_id Example.contract 9) Hu)
    as [_ Hin].
  - reflexivity.
  - vm_compute. reflexivity.
  - vm_compute. reflexivity.
  - vm_compute. reflexivity.
  - vm_compute. reflexivity.
  - destruct (Hin (Example.at_id Example.contract 3))
      as (pre & post & A & B & b' & _ & Hres & _ & _ & HA & HB).
    + vm_compute. reflexivity.
    + exists b', A, B. split; [exact Hres|]. split; [exact HA|exact HB].
Defined.

(** C7 as stated fails: a Modify decision without [modified_text] on the
    deletion "30 days" does not remove the node without replacement; a run
    with the deleted text takes its place, and the paragraph keeps four
    children. *)
Lemma modify_deletion_without_text_restores :
  exists d',
    _apply_single_decision (Example.document_of Example.contract)
      (_build_parent_map Example.contract) (Example.at_id Example.contract 9)
      "modify" None = Ok d' /\
    texts_of "t" (root d')
    = ["Payment within "; "45 days"; "30 days"; " of invoice."; "Governing law."] /\
    length (children (Example.at_id (root d') 3)) = 4 /\
    root d'
    <> set_children 3
         (firstn 2 (children (Example.at_id Example.contract 3))
          ++ skipn 3 (children (Example.at_id Example.contract 3)))
         Example.contract.
Proof.
  eexists. split; [vm_compute; reflexivity|].
  split; [vm_compute; reflexivity|].
  split; [vm_compute; reflexivity|].
  vm_compute. discriminate.
Qed.

(* ------------------------------------------------------------------ *)
(** * Properties of the Mutator: resolving a decision to a tracked node *)

Section Resolution.

Variable ratio : string -> string -> Q.
Variable d : Document.
Variable src : string.

Local Abbreviation score := (scan_score ratio d src).
Local Abbreviation has_text n := (Py.truthy (node_text d n) = true).

Lemma qlt_iff a b : qlt a b = true <-> (a < b)%Q.
Proof.
  unfold qlt. rewrite negb_true_iff. split.
  - intros H. apply Qnot_le_lt. intros K. apply Qle_bool_iff in K. congruence.
  - intros H. destruct (Qle_bool b a) eqn:E; trivial.
    apply Qle_bool_iff in E. exfalso. now apply (Qlt_not_le _ _ H).
Qed.

Lemma qlt_false_iff a b : qlt a b = false <-> (b <= a)%Q.
Proof.
  unfold qlt. rewrite negb_false_iff. apply Qle_bool_iff.
Qed.

Local Abbreviation scan_inv := (scan_invariant ratio d src).

Lemma scan_step_inv seen acc n :
  scan_inv seen acc -> scan_inv (seen ++ [n]) (scan_step ratio d src acc n).
Proof.
  unfold scan_invariant. intros (H0 & Hall & Hbest). unfold scan_step.
  destruct (Py.truthy (node_text d n)) eqn:Et; simpl.
  - destruct (qlt (snd acc) (score n)) eqn:El.
    + apply qlt_iff in El. repeat split; simpl.
      * apply Qlt_le_weak. eapply Qle_lt_trans; eassumption.
      * intros m Hm Ht. apply in_app_or in Hm. destruct Hm as [Hm|[<-|[]]].
        -- apply Qlt_le_weak. eapply Qle_lt_trans; [now apply Hall|exact El].
        -- apply Qle_refl.
      * apply in_or_app. right. now left.
      * exact Et.
    + apply qlt_false_iff in El. repeat split; trivial.
      * intros m Hm Ht. apply in_app_or in Hm. destruct Hm as [Hm|[<-|[]]]; auto.
      * destruct (fst acc); trivial. destruct Hbest as (Hi & Hb). split; trivial.
        apply in_or_app. now left.
  - repeat split; trivial.
    + intros m Hm Ht. apply in_app_or in Hm. destruct Hm as [Hm|[<-|[]]]; auto.
      congruence.
    + destruct (fst acc); trivial. destruct Hbest as (Hi & Hb). split; trivial.
      apply in_or_app. now left.
Qed.

Lemma scan_fold_inv l : forall seen acc,
  scan_inv seen acc -> scan_inv (seen ++ l) (fold_left (scan_step ratio d src) l acc).
Proof.
  induction l as [|n l IH]; intros seen acc H; simpl.
  - now rewrite app_nil_r.
  - replace (seen ++ n :: l) with ((seen ++ [n]) ++ l) by now rewrite <- app_assoc.
    apply IH. now apply scan_step_inv.
Qed.

(** The scan returns a node of best score among the nodes that have text. *)
Lemma scan_best tracked : scan_inv tracked (scan ratio d src tracked).
Proof.
  apply (scan_fold_inv tracked [] (None, 0%Q)).
  unfold scan_invariant. repeat split; simpl; try apply Qle_refl. intros m [].
Qed.

End Resolution.

Lemma truthy_iff s : Py.truthy s = true <-> s <> "".
Proof.
  unfold Py.truthy. destruct (String.eqb_spec s ""); simpl; split; congruence.
Qed.

Lemma truthy_false_iff s : Py.truthy s = false <-> s = "".
Proof.
  unfold Py.truthy. destruct (String.eqb_spec s ""); simpl; split; congruence.
Qed.

(** The indexed node fails the first check: the result is that of the scan. *)
Lemma resolve_by_scan ratio d tracked decision :
  let src := _normalize_text (Py.or_empty (source_text decision)) in
  src <> "" ->
  (forall n, indexed_node tracked (source_index decision) = Some n ->
             (_similarity ratio (node_text d n) src < 3 # 4)%Q) ->
  _resolve_tracked_node ratio d tracked decision
  = match scan ratio d src tracked with
    | (Some best_node, best_score) =>
        if Qle_bool (9 # 20) best_score then Some best_node else None
    | (None, _) => None
    end.
Proof.
  intros src Hsrc Hidx. unfold _resolve_tracked_node. fold src.
  apply truthy_iff in Hsrc. rewrite Hsrc.
  destruct tracked as [|t0 tracked]; [reflexivity|].
  destruct (indexed_node (t0 :: tracked) (source_index decision)) as [n|]; [|reflexivity].
  specialize (Hidx n eq_refl).
  destruct (Qle_bool (3 # 4) (_similarity ratio (node_text d n) src)) eqn:E.
  - apply Qle_bool_iff in E. exfalso. now apply (Qlt_not_le _ _ Hidx).
  - now rewrite andb_false_r.
Qed.

Lemma indexed_node_nil i : indexed_node [] i = None.
Proof.
  unfold indexed_node. destruct (_ && _); trivial. now destruct (Z.to_nat i).
Qed.

Lemma similarity_empty ratio b : _similarity ratio "" b = 0%Q.
Proof. reflexivity. Qed.

Lemma doc_push b r : doc (push b r) = doc b.
Proof. reflexivity. Qed.

(** C3.  A redline decision is resolved in two stages.  The node at
    [source_index] is taken when no source text was given or when its text
    is similar enough to the source text (0.75).  Otherwise every tracked node
    is scored, a score being at least 0.92 when one text contains the other,
    and a node of best score is taken when that score reaches 0.45.  When no
    node reaches 0.45 there is no node, and the loop goes on to the next
    decision with the document as it was. *)
Theorem resolve_tracked_node_policy :
  forall (ratio : string -> string -> Q) (d : Document) (tracked : list nat)
         (decision : RedlineDecision),
    let src := _normalize_text (Py.or_empty (source_text decision)) in
    let indexed := indexed_node tracked (source_index decision) in
    let similarity n := _similarity ratio (node_text d n) src in
    let score := scan_score ratio d src in
    let resolved := _resolve_tracked_node ratio d tracked decision in
    (forall n, indexed = Some n <->
               (0 <= source_index decision < Z.of_nat (length tracked))%Z /\
               nth_error tracked (Z.to_nat (source_index decision)) = Some n) /\
    (forall n, indexed = Some n -> src = "" -> resolved = Some n) /\
    (forall n, indexed = Some n -> (3 # 4 <= similarity n)%Q -> resolved = Some n) /\
    (src <> "" -> (forall n, indexed = Some n -> (similarity n < 3 # 4)%Q) ->
       (forall best, resolved = Some best ->
          In best tracked /\ node_text d best <> "" /\ (9 # 20 <= score best)%Q /\
          forall m, In m tracked -> node_text d m <> "" -> (score m <= score best)%Q) /\
       (resolved = None <->
          forall m, In m tracked -> node_text d m <> "" -> (score m < 9 # 20)%Q)) /\
    (forall m,
       (Py.contains src (node_text d m) || Py.contains (node_text d m) src = true ->
          (23 # 25 <= score m)%Q /\ (similarity m <= score m)%Q) /\
       (Py.contains src (node_text d m) || Py.contains (node_text d m) src = false ->
          score m = similarity m)) /\
    (forall have_parts all_paragraphs paragraph_spans b rest,
       doc b = d -> source_type decision = "redline" -> resolved = None ->
       exists b',
         step ratio have_parts tracked all_paragraphs paragraph_spans b decision = Ok b' /\
         doc b' = doc b /\
         run ratio have_parts tracked all_paragraphs paragraph_spans b (decision :: rest)
         = run ratio have_parts tracked all_paragraphs paragraph_spans b' rest).
Proof.
  intros ratio d tracked decision src indexed similarity score resolved.
  assert (Hscan : src <> "" ->
                  (forall n, indexed = Some n -> (similarity n < 3 # 4)%Q) ->
                  resolved = match scan ratio d src tracked with
                             | (Some best_node, best_score) =>
                                 if Qle_bool (9 # 20) best_score then Some best_node else None
                             | (None, _) => None
                             end)
    by (intros H1 H2; apply (resolve_by_scan ratio d tracked decision H1 H2)).
  pose proof (scan_best ratio d src tracked) as Hinv.
  unfold scan_invariant in Hinv. fold score in Hinv.
  split; [|split; [|split; [|split; [|split]]]].
  - intros n. subst indexed. unfold indexed_node.
    destruct ((0 <=? source_index decision)%Z) eqn:E1;
    destruct ((source_index decision <? Z.of_nat (length tracked))%Z) eqn:E2; simpl;
      (split; [try discriminate|try (intros [? ?]; lia)]).
    + intros H. split; [lia|exact H].
    + now intros [_ H].
  - intros n Hi Hs. subst resolved indexed. unfold _resolve_tracked_node. fold src.
    rewrite Hi. apply truthy_false_iff in Hs. rewrite Hs.
    destruct tracked; [now rewrite indexed_node_nil in Hi|reflexivity].
  - intros n Hi Hs. subst resolved indexed. unfold _resolve_tracked_node. fold src.
    rewrite Hi. destruct tracked; [now rewrite indexed_node_nil in Hi|].
    destruct (Py.truthy src); [|reflexivity].
    apply Qle_bool_iff in Hs. fold (similarity n). rewrite Hs.
    destruct (Py.truthy (node_text d n)) eqn:Et; [reflexivity|].
    apply truthy_false_iff in Et. subst similarity. simpl in Hs. rewrite Et in Hs.
    discriminate.
  - intros Hsrc Hidx. rewrite (Hscan Hsrc Hidx).
    destruct Hinv as (H0 & Hall & Hb).
    destruct (scan ratio d src tracked) as [[b|] bs]; simpl in *.
    + destruct Hb as (Hin & Ht & Hbs).
      destruct (Qle_bool (9 # 20) bs) eqn:E.
      * split.
        -- intros best [= <-]. split; [exact Hin|]. split; [now apply truthy_iff|].
           split; [rewrite <- Hbs; now apply Qle_bool_iff|].
           intros m Hm Htm. rewrite <- Hbs. apply Hall; trivial. now apply truthy_iff.
        -- split; [discriminate|]. intros Hlow. exfalso.
           apply Qle_bool_iff in E. rewrite Hbs in E.
           apply (Qlt_not_le _ _ (Hlow b Hin (proj1 (truthy_iff _) Ht)) E).
      * split; [discriminate|]. split; trivial. intros _ m Hm Htm.
        eapply Qle_lt_trans; [apply Hall; trivial; now apply truthy_iff|].
        apply Qnot_le_lt. intros K. apply Qle_bool_iff in K. congruence.
    + split; [discriminate|]. split; trivial. intros _ m Hm Htm. subst bs.
      eapply Qle_lt_trans; [apply Hall; trivial; now apply truthy_iff|]. reflexivity.
  - intros m. split; intros H.
    + subst score similarity. unfold scan_score. fold src. rewrite H. unfold qmax.
      destruct (Qle_bool (23 # 25) (_similarity ratio (node_text d m) src)) eqn:E.
      * split; [now apply Qle_bool_iff|apply Qle_refl].
      * split; [apply Qle_refl|].
        apply Qlt_le_weak, Qnot_le_lt. intros K. apply Qle_bool_iff in K. congruence.
    + subst score similarity. unfold scan_score. fold src. now rewrite H.
  - intros have_parts all_paragraphs paragraph_spans b rest Hd Hs Hr.
    assert (Hstep : exists b', step ratio have_parts tracked all_paragraphs paragraph_spans
                                    b decision = Ok b' /\ doc b' = doc b).
    { unfold step. rewrite Hs. simpl. rewrite Hd. fold resolved. rewrite Hr.
      destruct (Py.lower (Py.strip (action decision)) =? "reply")%string.
      - eexists. split; [reflexivity|]. unfold step_reply.
        destruct (negb _); trivial. destruct (by_comment_id _ _ _); trivial.
        destruct (reply_paragraph _ _ _ _ _ _); trivial.
      - eexists. split; [reflexivity|]. unfold step_untracked.
        destruct (Py.truthy _); trivial. destruct (reply_paragraph _ _ _ _ _ _); trivial. }
    destruct Hstep as (b' & Hb' & Hdoc). exists b'. repeat split; trivial.
    simpl. now rewrite Hb'.
Qed.

(** C3, on the example contract, whose tracked nodes are the insertion
    "45 days" (6) and the deletion "30 days" (9): without source text the
    node at the index is taken; with the source text "45 days" as well; with
    the source text "30 days" the index fails (10/14 is below 0.75) and the
    scan finds the deletion; with a source text that matches nothing the
    decision is skipped and the document is as it was. *)
Lemma resolve_tracked_node_policy_witness :
  _resolve_tracked_node Lib.ratio (Example.document_of Example.contract) [6; 9]
    (Lib.decision "redline" 0 "accept") = Some 6 /\
  _resolve_tracked_node Lib.ratio (Example.document_of Example.contract) [6; 9]
    (Lib.with_source_text (Lib.decision "redline" 0 "accept") "45 Days") = Some 6 /\
  (9 # 20 <= scan_score Lib.ratio (Example.document_of Example.contract)
                (_normalize_text
                   (Py.or_empty
                      (source_text
                         (Lib.with_source_text (Lib.decision "redline" 0 "accept") "30 days"))))
                9)%Q /\
  exists b',
    step Lib.ratio true [6; 9] [3; 14] [] (start_batch Example.contract)
      (Lib.with_source_text (Lib.decision "redline" 0 "accept") "force majeure") = Ok b' /\
    doc b' = doc (start_batch Example.contract).
Proof.
  split; [|split; [|split]].
  - apply (proj1 (proj2 (resolve_tracked_node_policy Lib.ratio
                           (Example.document_of Example.contract) [6; 9]
                           (Lib.decision "redline" 0 "accept"))) 6);
      vm_compute; reflexivity.
  - apply (proj1 (proj2 (proj2 (resolve_tracked_node_policy Lib.ratio
                           (Example.document_of Example.contract) [6; 9]
                           (Lib.with_source_text (Lib.decision "redline" 0 "accept") "45 Days")))) 6).
    + vm_compute. reflexivity.
    + apply Qle_bool_iff. vm_compute. reflexivity.
  - destruct (proj1 (proj2 (proj2 (proj2 (resolve_tracked_node_policy Lib.ratio
                           (Example.document_of Example.contract) [6; 9]
                           (Lib.with_source_text (Lib.decision "redline" 0 "accept") "30 days"))))))
      as [Hbest _].
    + vm_compute. discriminate.
    + intros n Hn. vm_compute in Hn. injection Hn as <-. vm_compute. reflexivity.
    + assert (Hres : _resolve_tracked_node Lib.ratio (Example.document_of Example.contract)
                       [6; 9]
                       (Lib.with_source_text (Lib.decision "redline" 0 "accept") "30 days")
                     = Some 9) by (vm_compute; reflexivity).
      destruct (Hbest 9 Hres) as (_ & _ & Hscore & _). exact Hscore.
  - destruct (proj2 (proj2 (proj2 (proj2 (proj2 (resolve_tracked_node_policy Lib.ratio
                           (Example.document_of Example.contract) [6; 9]
                           (Lib.with_source_text (Lib.decision "redline" 0 "accept")
                                                 "force majeure"))))))
                    true [3; 14] [] (start_batch Example.contract) [])
      as (b' & Hstep & Hdoc & _).
    + reflexivity.
    + reflexivity.
    + vm_compute. reflexivity.
    + exists b'. split; assumption.
Defined.

(* ------------------------------------------------------------------ *)
(** * Properties of the Mutator: comment parts and reply comments *)

(** ** Sorting the part names *)

Lemma compare_refl a : String.compare a a = Eq.
Proof. exact (proj2 (String_as_OT.cmp_eq a a) eq_refl). Qed.

Lemma leb_trans a b c :
  (a <=? b)%string = true -> (b <=? c)%string = true -> (a <=? c)%string = true.
Proof.
  unfold String.leb. intros H1 H2.
  destruct (String.compare a b) eqn:E1; try discriminate;
  destruct (String.compare b c) eqn:E2; try discriminate.
  - apply String.compare_eq_iff in E1, E2. subst. now rewrite compare_refl.
  - apply String.compare_eq_iff in E1. subst. now rewrite E2.
  - apply String.compare_eq_iff in E2. subst. now rewrite E1.
  - pose proof (String_as_OT.lt_trans _ _ _
                  (proj1 (String_as_OT.cmp_lt a b) E1)
                  (proj1 (String_as_OT.cmp_lt b c) E2)) as H.
    apply String_as_OT.cmp_lt in H. unfold String_as_OT.cmp in H. now rewrite H.
Qed.

Lemma ltb_leb a b : (a <? b)%string = true -> (a <=? b)%string = true.
Proof. unfold String.ltb, String.leb. now destruct (String.compare a b). Qed.

Lemma ltb_false_leb a b : (a <? b)%string = false -> (b <=? a)%string = true.
Proof.
  unfold String.ltb, String.leb. rewrite (String.compare_antisym a b).
  now destruct (String.compare b a).
Qed.

Lemma in_insert_sorted x l y : In y (Py.insert_sorted x l) <-> y = x \/ In y l.
Proof.
  induction l as [|z l IH]; simpl.
  - intuition congruence.
  - destruct (x <? z)%string; simpl; rewrite ?IH; intuition congruence.
Qed.

Lemma in_sort_acc l : forall acc y,
  In y (fold_left (fun acc x => Py.insert_sorted x acc) l acc) <-> In y l \/ In y acc.
Proof.
  induction l as [|x l IH]; intros acc y; simpl.
  - tauto.
  - rewrite IH, in_insert_sorted. intuition congruence.
Qed.

(** Sorting keeps the names. *)
Lemma in_sort l y : In y (Py.sort l) <-> In y l.
Proof. unfold Py.sort. rewrite in_sort_acc. simpl. tauto. Qed.

Lemma insert_sorted_sorted x l :
  StronglySorted (fun a b => (a <=? b)%string = true) l ->
  StronglySorted (fun a b => (a <=? b)%string = true) (Py.insert_sorted x l).
Proof.
  induction 1 as [|z l Hs IH Hz]; simpl.
  - constructor; constructor.
  - destruct (x <? z)%string eqn:E.
    + constructor; [now constructor|]. constructor; [now apply ltb_leb|].
      apply Forall_forall. intros y Hy. rewrite Forall_forall in Hz.
      apply (leb_trans x z y); [now apply ltb_leb|now apply Hz].
    + constructor; trivial. apply Forall_forall. intros y Hy.
      apply in_insert_sorted in Hy. destruct Hy as [->|Hy].
      * now apply ltb_false_leb.
      * rewrite Forall_forall in Hz. now apply Hz.
Qed.

(** Sorting puts the names in ascending order. *)
Lemma sort_sorted l : StronglySorted (fun a b => (a <=? b)%string = true) (Py.sort l).
Proof.
  unfold Py.sort.
  assert (H : forall acc, StronglySorted (fun a b => (a <=? b)%string = true) acc ->
                          StronglySorted (fun a b => (a <=? b)%string = true)
                            (fold_left (fun acc x => Py.insert_sorted x acc) l acc)).
  { induction l as [|x l IH]; intros acc Hacc; simpl; trivial.
    apply IH. now apply insert_sorted_sorted. }
  apply H. constructor.
Qed.

(** ** Parsing the comment parts *)

Section Parts.

Variable fromstring : string -> option Element.
Variable read_error : Archive -> string -> option string.
Variable z : Archive.

Local Abbreviation parsed name :=
  (match parsed_part fromstring read_error z name with Some t => [t] | None => [] end).

Lemma parse_parts_objects names : forall acc,
  objects (fold_left (parse_part fromstring read_error z) names acc)
  = objects acc ++ flat_map (fun name => parsed name) names.
Proof.
  induction names as [|name names IH]; intros acc; simpl.
  - now rewrite app_nil_r.
  - rewrite IH. unfold parse_part.
    destruct (parsed_part fromstring read_error z name); simpl.
    + now rewrite <- app_assoc.
    + reflexivity.
Qed.

Lemma dict_mem_set {V} (dct : list (string * V)) k v k' :
  Py.dict_mem String.eqb (Py.dict_set String.eqb dct k v) k'
  = (k' =? k)%string || Py.dict_mem String.eqb dct k'.
Proof.
  unfold Py.dict_mem. induction dct as [|[k0 v0] dct IH]; simpl.
  - now destruct (k' =? k)%string.
  - destruct (String.eqb_spec k k0) as [->|Hne]; simpl.
    + destruct (k' =? k0)%string; reflexivity.
    + destruct (String.eqb_spec k' k0) as [->|Hne'].
      * now rewrite orb_true_r.
      * exact IH.
Qed.

Lemma parse_parts_names names : forall acc name,
  Py.dict_mem String.eqb (comments_parts (fold_left (parse_part fromstring read_error z) names acc)) name
  = Py.dict_mem String.eqb (comments_parts acc) name
    || existsb (fun n => (name =? n)%string
                         && match parsed_part fromstring read_error z n with
                            | Some _ => true
                            | None => false
                            end) names.
Proof.
  induction names as [|n names IH]; intros acc name; simpl.
  - now rewrite orb_false_r.
  - rewrite IH. unfold parse_part.
    destruct (parsed_part fromstring read_error z n); simpl.
    + rewrite dict_mem_set. rewrite andb_true_r.
      destruct (name =? n)%string, (Py.dict_mem String.eqb (comments_parts acc) name);
        reflexivity.
    + now rewrite andb_false_r.
Qed.

(** A part is in [comments_parts] exactly when its name is that of a comment
    part of the archive, and the part reads and its bytes parse. *)
Lemma comments_parts_spec name :
  Py.dict_mem String.eqb (comments_parts (parse_comment_parts fromstring read_error z)) name = true
  <-> In name (Zip.namelist z) /\ is_comment_part name = true
      /\ parsed_part fromstring read_error z name <> None.
Proof.
  unfold parse_comment_parts. rewrite parse_parts_names. simpl.
  rewrite existsb_exists. split.
  - intros (n & Hn & Hc). apply andb_true_iff in Hc. destruct Hc as [He Hp].
    apply String.eqb_eq in He. subst n.
    unfold comment_part_names in Hn. apply in_sort, filter_In in Hn.
    destruct Hn as [Hn Hc]. repeat split; trivial.
    destruct (parsed_part _ _ _ _); [discriminate|discriminate].
  - intros (Hn & Hc & Hp). exists name. split.
    + unfold comment_part_names. apply in_sort, filter_In. now split.
    + rewrite String.eqb_refl. simpl. now destruct (parsed_part _ _ _ _).
Qed.

End Parts.

(** ** New comment ids *)

Section NextId.

Variable int_of_str : string -> option Z.

Local Abbreviation bump :=
  (fun (max_id : Z) (comment : Element) =>
     match get comment (w "id") with
     | Some raw =>
         match int_of_str raw with
         | Some v => Z.max max_id v
         | None => max_id
         end
     | None => max_id
     end).

Lemma fold_max_spec l : forall init,
  let r := fold_left bump l init in
  (init <= r)%Z /\
  (forall comment raw v, In comment l -> get comment (w "id") = Some raw ->
                         int_of_str raw = Some v -> (v <= r)%Z) /\
  (r = init \/
   exists comment raw, In comment l /\ get comment (w "id") = Some raw /\
                       int_of_str raw = Some r).
Proof.
  induction l as [|c l IH]; intros init; simpl.
  - repeat split; [lia| intros ? ? ? []|now left].
  - assert (Hb : exists i', i' = bump init c /\ (init <= i')%Z /\
                   (forall raw v, get c (w "id") = Some raw -> int_of_str raw = Some v ->
                                  (v <= i')%Z) /\
                   (i' = init \/ exists raw, get c (w "id") = Some raw /\
                                             int_of_str raw = Some i')).
    { eexists. split; [reflexivity|].
      destruct (get c (w "id")) as [raw|]; [|repeat split; [lia|discriminate|now left]].
      destruct (int_of_str raw) as [v|] eqn:Ev.
      - split; [lia|]. split.
        + intros raw' v' [= <-] Hv. rewrite Ev in Hv. injection Hv as <-. lia.
        + destruct (Z.max_spec init v) as [[_ ->]|[_ ->]]; [|now left].
          right. exists raw. now split.
      - split; [lia|]. split; [|now left].
        intros raw' v' [= <-] Hv. congruence. }
    destruct Hb as (i' & <- & Hi1 & Hi2 & Hi3).
    destruct (IH i') as (H1 & H2 & H3). cbv zeta in *.
    split; [lia|]. split.
    + intros comment raw v [<-|Hin] Hraw Hv.
      * specialize (Hi2 raw v Hraw Hv). lia.
      * now apply (H2 comment raw v).
    + destruct H3 as [H3|(comment & raw & Hin & Hraw & Hv)].
      * rewrite H3. destruct Hi3 as [->|(raw & Hraw & Hv)]; [now left|].
        right. exists c, raw. repeat split; trivial. now left.
      * right. exists comment, raw. repeat split; trivial. now right.
Qed.

(** The first new id is one more than the greatest id of the part that
    reads as an integer, and 0 when the greatest is below 0 or there is
    none. *)
Lemma next_comment_id_spec comments_root :
  let first := _next_comment_id int_of_str comments_root in
  (0 <= first)%Z /\
  (forall comment raw v,
     In comment (findall "comment" comments_root) ->
     get comment (w "id") = Some raw -> int_of_str raw = Some v -> (v < first)%Z) /\
  (first = 0%Z \/
   exists comment raw,
     In comment (findall "comment" comments_root) /\
     get comment (w "id") = Some raw /\ int_of_str raw = Some (first - 1)%Z).
Proof.
  unfold _next_comment_id.
  destruct (fold_max_spec (findall "comment" comments_root) (-1)%Z) as (H1 & H2 & H3).
  cbv zeta in *. split; [lia|]. split.
  - intros comment raw v Hin Hraw Hv. specialize (H2 comment raw v Hin Hraw Hv). lia.
  - destruct H3 as [->|(comment & raw & Hin & Hraw & Hv)]; [now left|].
    right. exists comment, raw. repeat split; trivial. rewrite Hv. f_equal. lia.
Qed.

Variable now_iso : nat -> string.

Lemma make_comment_node_erase n k i txt author parent :
  erase (_make_comment_node now_iso n k i txt author parent)
  = erase (_make_comment_node now_iso 0 k i txt author None).
Proof. reflexivity. Qed.

Lemma with_children_twice c l1 l2 :
  with_children (with_children c l1) l2 = with_children c l2.
Proof. now destruct c. Qed.

Lemma children_with_children c l : children (with_children c l) = l.
Proof. now destruct c. Qed.

(** The comment node made for the [k]-th reply of a batch whose first new
    id is [first]. *)
Local Abbreviation new_comment first clock0 :=
  (fun kr : nat * Reply =>
     erase (_make_comment_node now_iso 0 (clock0 + fst kr) (first + Z.of_nat (fst kr))
                               (snd (fst (snd kr))) "Nego User" None)).

Lemma combine_seq_shift {A} (l : list A) (f : nat * A -> Element) n :
  map f (combine (seq (S n) (length l)) l)
  = map (fun kr => f (S (fst kr), snd kr)) (combine (seq n (length l)) l).
Proof.
  revert n. induction l as [|x l IH]; intros n; simpl; [reflexivity|].
  f_equal. apply IH.
Qed.

Lemma replies_fold replies : forall st,
  let st' := fold_left (reply_step now_iso) replies st in
  exists new,
    rs_comments st' = with_children (rs_comments st) (children (rs_comments st) ++ new) /\
    map erase new
    = map (new_comment (rs_next st) (rs_clock st)) (combine (seq 0 (length replies)) replies).
Proof.
  induction replies as [|r replies IH]; intros st; simpl.
  - exists []. rewrite app_nil_r. split; [now destruct (rs_comments st)|reflexivity].
  - destruct (IH (reply_step now_iso st r)) as (new & Hc & Hn). cbv zeta in *.
    destruct r as [[paragraph txt] parent_ids].
    exists (_make_comment_node now_iso (next_id (rs_doc st)) (rs_clock st) (rs_next st)
              txt "Nego User" (_first_matching_comment_id (rs_comments st) parent_ids)
            :: new).
    split.
    + rewrite Hc. simpl. rewrite with_children_twice, children_with_children.
      now rewrite <- app_assoc.
    + simpl map. rewrite Hn. f_equal.
      * simpl. now rewrite Z.add_0_r, Nat.add_0_r.
      * etransitivity;
          [|symmetry; apply (combine_seq_shift replies
                               (new_comment (rs_next st) (rs_clock st)) 0)].
        apply map_ext. intros [k rr]. simpl.
        replace (rs_clock st + S k) with (S (rs_clock st + k)) by lia.
        replace (rs_next st + Z.pos (Pos.of_succ_nat k))%Z
          with (rs_next st + 1 + Z.of_nat k)%Z by lia.
        reflexivity.
Qed.

End NextId.

(** C10.  The comment parts are read in ascending order of their names, and
    the first that parses (it reads, and its bytes parse) is the only one that
    receives the reply comments of a batch: the other parsed parts are left as
    they were read.  The new
    comments are appended after the comments of that part; the k-th receives
    the id [first + k], where [first] is one more than the greatest id of a
    comment of that part that reads as an integer (0 when there is none), the
    author "Nego User" and the time of the clock. *)
Theorem replies_go_to_first_parsed_part :
  forall (fromstring : string -> option Element)
         (read_error : Archive -> string -> option string)
         (int_of_str : string -> option Z)
         (now_iso : nat -> string) (z : Archive) (b : Batch),
    let cp := parse_comment_parts fromstring read_error z in
    let names := comment_part_names z in
    StronglySorted (fun x y => (x <=? y)%string = true) names /\
    (forall name, In name names <->
                  In name (Zip.namelist z) /\ is_comment_part name = true) /\
    objects cp
    = flat_map (fun name => match parsed_part fromstring read_error z name with
                            | Some t => [t]
                            | None => []
                            end) names /\
    (forall comments_root others,
       objects cp = comments_root :: others ->
       pending_replies b <> [] ->
       let st := _apply_replies_as_docx_comments int_of_str now_iso comments_root
                   (doc b) (pending_replies b) in
       let first := _next_comment_id int_of_str comments_root in
       snd (finish int_of_str now_iso cp b) = rs_comments st :: others /\
       (exists new,
          rs_comments st
          = with_children comments_root (children comments_root ++ new) /\
          map erase new
          = map (fun kr : nat * Reply =>
                   erase (_make_comment_node now_iso 0 (fst kr) (first + Z.of_nat (fst kr))
                                             (snd (fst (snd kr))) "Nego User" None))
                (combine (seq 0 (length (pending_replies b))) (pending_replies b))) /\
       (0 <= first)%Z /\
       (forall comment raw v,
          In comment (findall "comment" comments_root) ->
          get comment (w "id") = Some raw -> int_of_str raw = Some v -> (v < first)%Z) /\
       (first = 0%Z \/
        exists comment raw,
          In comment (findall "comment" comments_root) /\
          get comment (w "id") = Some raw /\ int_of_str raw = Some (first - 1)%Z)).
Proof.
  intros fromstring read_error int_of_str now_iso z b cp names.
  split; [apply sort_sorted|]. split.
  { intros name. subst names. unfold comment_part_names.
    rewrite in_sort, filter_In. tauto. }
  split.
  { subst cp names. unfold parse_comment_parts. now rewrite parse_parts_objects. }
  intros comments_root others Hobj Hpending st first.
  split.
  { unfold finish. rewrite Hobj. destruct (pending_replies b); [contradiction|reflexivity]. }
  split.
  { subst st. unfold _apply_replies_as_docx_comments.
    destruct (replies_fold now_iso (pending_replies b)
                {| rs_comments := comments_root; rs_doc := doc b;
                   rs_next := _next_comment_id int_of_str comments_root;
                   rs_clock := 0 |}) as (new & Hc & Hn).
    exists new. split; [exact Hc|]. exact Hn. }
  apply next_comment_id_spec.
Qed.

(** C10, on the package whose comment parts are comments.xml (not XML),
    comments2.xml (one comment, id 42) and comments3.xml (one comment, id 1):
    the reply goes to comments2.xml with the id 43, and the tree of
    comments3.xml is as it was read. *)
Lemma replies_go_to_first_parsed_part_witness :
  exists root2,
    snd (finish Lib.int_of_str (Example.clock "00")
           (parse_comment_parts Example.fromstring Lib.read_error Example.package2)
           {| doc := Example.document_of Example.contract;
              pending_replies := [(3, "ok", [])] |})
    = [root2; Example.comments_part] /\
    map (fun c => get c (w "id")) (children root2) = [Some "42"; Some "43"].
Proof.
  destruct (proj2 (proj2 (proj2
              (replies_go_to_first_parsed_part Example.fromstring Lib.read_error
                 Lib.int_of_str
                 (Example.clock "00") Example.package2
                 {| doc := Example.document_of Example.contract;
                    pending_replies := [(3, "ok", [])] |})))
              Example.comments_part2 [Example.comments_part])
    as (Hfinish & _).
  - vm_compute. reflexivity.
  - discriminate.
  - eexists. split; [exact Hfinish|]. vm_compute. reflexivity.
Defined.

(* ------------------------------------------------------------------ *)
(** * Properties of the Mutator: the archive written *)

Lemma dict_get_set_same {V} (dct : list (string * V)) k v :
  Py.dict_get String.eqb (Py.dict_set String.eqb dct k v) k = Some v.
Proof.
  induction dct as [|[k0 v0] dct IH]; simpl.
  - now rewrite String.eqb_refl.
  - destruct (String.eqb_spec k k0) as [->|Hne]; simpl.
    + now rewrite String.eqb_refl.
    + destruct (String.eqb_spec k k0); [contradiction|exact IH].
Qed.

Lemma dict_get_set_other {V} (dct : list (string * V)) k v k' :
  k' <> k ->
  Py.dict_get String.eqb (Py.dict_set String.eqb dct k v) k'
  = Py.dict_get String.eqb dct k'.
Proof.
  intros Hne. induction dct as [|[k0 v0] dct IH]; simpl.
  - destruct (String.eqb_spec k' k); [contradiction|reflexivity].
  - destruct (String.eqb_spec k k0) as [->|Hne0]; simpl.
    + destruct (String.eqb_spec k' k0); [contradiction|reflexivity].
    + destruct (String.eqb_spec k' k0); [reflexivity|exact IH].
Qed.

Lemma dict_mem_get {V} (dct : list (string * V)) k :
  Py.dict_mem String.eqb dct k = true <-> exists v, Py.dict_get String.eqb dct k = Some v.
Proof.
  unfold Py.dict_mem. destruct (Py.dict_get String.eqb dct k) as [v|]; split.
  - intros _. now exists v.
  - reflexivity.
  - discriminate.
  - intros [v Hv]. discriminate.
Qed.

(** ** Reading an archive *)

Lemma read_rev_app (z1 z2 : Archive) name :
  Py.dict_get String.eqb (rev z2 ++ z1) name
  = match Py.dict_get String.eqb (rev z2) name with
    | Some v => Some v
    | None => Py.dict_get String.eqb z1 name
    end.
Proof.
  induction (rev z2) as [|[k v] l IH]; simpl; [reflexivity|].
  destruct (name =? k)%string; [reflexivity|exact IH].
Qed.

Lemma dict_get_app {V} (d1 d2 : list (string * V)) name :
  Py.dict_get String.eqb (d1 ++ d2) name
  = match Py.dict_get String.eqb d1 name with
    | Some v => Some v
    | None => Py.dict_get String.eqb d2 name
    end.
Proof.
  induction d1 as [|[k v] l IH]; simpl; [reflexivity|].
  destruct (name =? k)%string; [reflexivity|exact IH].
Qed.

(** A name of the archive can be read. *)
Lemma read_present (z : Archive) name :
  In name (Zip.namelist z) -> exists bytes, Zip.read z name = Some bytes.
Proof.
  unfold Zip.read, Zip.namelist. induction z as [|[k v] z IH]; simpl; [intros []|].
  rewrite dict_get_app. intros [->|Hin].
  - destruct (Py.dict_get String.eqb (rev z) name) as [b|]; [now exists b|].
    simpl. rewrite String.eqb_refl. now exists v.
  - destruct (IH Hin) as (b & Hb). rewrite Hb. now exists b.
Qed.

Lemma read_absent (z : Archive) name :
  ~ In name (Zip.namelist z) -> Zip.read z name = None.
Proof.
  unfold Zip.read, Zip.namelist. induction z as [|[k v] z IH]; simpl; [reflexivity|].
  intros H. rewrite dict_get_app, IH by tauto. simpl.
  destruct (String.eqb_spec name k); [subst; tauto|reflexivity].
Qed.

(** An archive written name by name reads as it was written. *)
Lemma read_map (z : Archive) (g : string -> string) name :
  Zip.read (map (fun item => (fst item, g (fst item))) z) name
  = if Py.mem name (Zip.namelist z) then Some (g name) else None.
Proof.
  unfold Zip.read, Zip.namelist, Py.mem. induction z as [|[k v] z IH]; simpl; [reflexivity|].
  rewrite dict_get_app, IH. simpl.
  destruct (existsb (String.eqb name) (map fst z)).
  - now rewrite orb_true_r.
  - rewrite orb_false_r. destruct (String.eqb_spec name k); [now subst|reflexivity].
Qed.

Lemma mem_In x l : Py.mem x l = true <-> In x l.
Proof.
  unfold Py.mem. rewrite existsb_exists. split.
  - intros (y & Hy & He). apply String.eqb_eq in He. now subst.
  - intros H. exists x. split; [assumption|apply String.eqb_refl].
Qed.

(** ** The parsed parts and their trees *)

Section PartsTrees.

Variable fromstring : string -> option Element.
Variable read_error : Archive -> string -> option string.
Variable z : Archive.

Local Abbreviation parts_inv := (parts_invariant fromstring read_error z).

Lemma parse_part_inv cp name :
  parts_inv cp -> parts_inv (parse_part fromstring read_error z cp name).
Proof.
  unfold parts_invariant. intros H. unfold parse_part.
  destruct (parsed_part fromstring read_error z name) as [t|] eqn:E; [|exact H].
  intros n i. simpl. destruct (String.eqb_spec n name) as [->|Hne].
  - rewrite dict_get_set_same. intros [= <-].
    rewrite nth_error_app2, Nat.sub_diag by lia. simpl. rewrite E. split; congruence.
  - rewrite dict_get_set_other by assumption. intros Hi.
    destruct (H n i Hi) as [H1 H2]. rewrite nth_error_app1.
    + now split.
    + now apply nth_error_Some.
Qed.

Lemma parse_parts_inv : parts_inv (parse_comment_parts fromstring read_error z).
Proof.
  unfold parse_comment_parts.
  assert (H : forall names cp, parts_inv cp ->
                parts_inv (fold_left (parse_part fromstring read_error z) names cp)).
  { induction names as [|n names IH]; intros cp Hcp; simpl; trivial.
    apply IH. now apply parse_part_inv. }
  apply H. unfold parts_invariant. intros name i. simpl. discriminate.
Qed.

(** A part that was parsed was read. *)
Lemma parsed_part_read name t :
  parsed_part fromstring read_error z name = Some t ->
  read_error z name = None /\ fromstring (Py.or_empty (Zip.read z name)) = Some t.
Proof.
  unfold parsed_part, Zip.read_entry.
  destruct (read_error z name); [discriminate|]. now split.
Qed.

Lemma parsed_part_of_read name :
  read_error z name = None ->
  parsed_part fromstring read_error z name = fromstring (Py.or_empty (Zip.read z name)).
Proof. intros H. unfold parsed_part, Zip.read_entry. now rewrite H. Qed.

End PartsTrees.

Section Written.

Variable fromstring : string -> option Element.
Variable xml_error : string -> string.
Variable read_error : Archive -> string -> option string.
Variable tostring : Element -> string.
Variable ratio : string -> string -> Q.
Variable int_of_str : string -> option Z.
Variable now_iso : nat -> string.

Local Abbreviation apply :=
  (apply_decisions fromstring xml_error read_error tostring ratio int_of_str now_iso).

(** The batch that a call of [apply_decisions] on the tree [r] runs. *)
Local Abbreviation batch_of z r decisions :=
  (run ratio
       (negb (length (comments_parts (parse_comment_parts fromstring read_error z)) =? 0))
       (map eid (_collect_tracked_nodes r)) (map eid (findall "p" r))
       (_build_paragraph_spans (findall "p" r)) (start_batch r) decisions).

(** The entry written for an item when every entry that is copied reads. *)
Local Abbreviation written z cp final :=
  (fun item : string * string =>
     (fst item,
      if (fst item =? "word/document.xml")%string
      then tostring (root (fst final))
      else match Py.dict_get String.eqb (comments_parts cp) (fst item) with
           | Some i => tostring (nth i (snd final) empty_element)
           | None => Py.or_empty (Zip.read z (fst item))
           end)).

(** The loop that writes the entries completes when the entries it copies
    read, and only then. *)
Lemma write_items_ok z cp (final : Document * list Element) items : forall out,
  write_items read_error tostring z cp final items = Ok out ->
  out = map (written z cp final) items /\
  forall item, In item items ->
    fst item <> "word/document.xml" ->
    Py.dict_get String.eqb (comments_parts cp) (fst item) = None ->
    read_error z (fst item) = None.
Proof.
  induction items as [|item items IH]; intros out; cbn [write_items].
  - intros [= <-]. split; [reflexivity|intros ? []].
  - destruct (write_item read_error tostring z cp final item) as [entry|exc] eqn:Ew;
      [|discriminate].
    destruct (write_items read_error tostring z cp final items) as [rest|exc];
      [|discriminate].
    intros [= <-]. destruct (IH rest eq_refl) as [-> Hread].
    unfold write_item in Ew. split.
    + cbn [map]. f_equal.
      destruct (fst item =? "word/document.xml")%string; [now injection Ew as <-|].
      destruct (Py.dict_get String.eqb (comments_parts cp) (fst item));
        [now injection Ew as <-|].
      unfold Zip.read_entry in Ew. destruct (read_error z (fst item)); [discriminate|].
      now injection Ew as <-.
    + intros it [<-|Hin] Hd Hg; [|now apply Hread].
      destruct (String.eqb_spec (fst item) "word/document.xml"); [contradiction|].
      rewrite Hg in Ew. unfold Zip.read_entry in Ew.
      destruct (read_error z (fst item)); [discriminate|reflexivity].
Qed.

Lemma write_items_complete z cp (final : Document * list Element) items :
  (forall item, In item items -> read_error z (fst item) = None) ->
  write_items read_error tostring z cp final items = Ok (map (written z cp final) items).
Proof.
  induction items as [|item items IH]; intros H; cbn [write_items map]; [reflexivity|].
  rewrite IH by (intros it Hit; apply H; now right).
  unfold write_item, Zip.read_entry. rewrite (H item) by now left.
  destruct (fst item =? "word/document.xml")%string; [reflexivity|].
  destruct (Py.dict_get String.eqb (comments_parts cp) (fst item)); reflexivity.
Qed.

(** What a successful call went through. *)
Lemma apply_decisions_ok file_name z decisions out :
  apply file_name (Ok z) decisions = Ok out ->
  exists r b,
    Py.lower (Py.path_suffix file_name) = ".docx" /\
    decisions <> [] /\
    In "word/document.xml" (Zip.namelist z) /\
    read_error z "word/document.xml" = None /\
    fromstring (Py.or_empty (Zip.read z "word/document.xml")) = Some r /\
    batch_of z r decisions = Ok b /\
    write_items read_error tostring z (parse_comment_parts fromstring read_error z)
      (finish int_of_str now_iso (parse_comment_parts fromstring read_error z) b) z
    = Ok out.
Proof.
  unfold apply_decisions.
  destruct (String.eqb_spec (Py.lower (Py.path_suffix file_name)) ".docx") as [Hs|];
    [|discriminate]. simpl.
  destruct decisions as [|d0 ds]; [discriminate|].
  destruct (Py.mem "word/document.xml" (Zip.namelist z)) eqn:Hm; [|discriminate]. simpl.
  unfold Zip.read_entry.
  destruct (read_error z "word/document.xml") eqn:Hread; [discriminate|].
  destruct (fromstring (Py.or_empty (Zip.read z "word/document.xml"))) as [r|];
    [|discriminate].
  match goal with
  | |- match ?R with _ => _ end = _ -> _ => destruct R as [b|msg] eqn:Hrun
  end; [|discriminate].
  intros Hw. exists r, b. repeat split; trivial; [discriminate|now apply mem_In].
Qed.

(** In a successful call every entry of the archive was read. *)
Lemma apply_decisions_read file_name z decisions out :
  apply file_name (Ok z) decisions = Ok out ->
  forall name, In name (Zip.namelist z) -> read_error z name = None.
Proof.
  intros Hok name Hname.
  destruct (apply_decisions_ok _ _ _ _ Hok) as (r & b & _ & _ & _ & Hdoc & _ & _ & Hw).
  apply write_items_ok in Hw. destruct Hw as [_ Hread].
  unfold Zip.namelist in Hname. apply in_map_iff in Hname.
  destruct Hname as (item & <- & Hitem).
  destruct (String.eqb_spec (fst item) "word/document.xml") as [->|Hd]; [exact Hdoc|].
  destruct (Py.dict_get String.eqb
              (comments_parts (parse_comment_parts fromstring read_error z)) (fst item))
    as [i|] eqn:Hget; [|now apply Hread].
  destruct (parse_parts_inv fromstring read_error z _ _ Hget) as [Hsome Hnth].
  destruct (parsed_part fromstring read_error z (fst item)) as [t|] eqn:Ep;
    [|congruence].
  now apply parsed_part_read in Ep.
Qed.

(** C2, as the code has it.  A successful call has read every entry of the
    archive, and it writes the parts of the input under their names and in
    their order.  The document part is the serialisation of the tree the
    batch leaves.  Every comment part whose bytes parse is the serialisation
    of its tree, whether or not it received a comment: the tree is as it was
    read unless it is the first parsed part and the batch has replies.
    Every other part, and every comment part that does not parse, has the
    bytes it had. *)
Theorem apply_decisions_parts :
  forall (file_name : string) (z : Archive) (decisions : list RedlineDecision)
         (out : Archive),
    apply file_name (Ok z) decisions = Ok out ->
    let cp := parse_comment_parts fromstring read_error z in
    exists r b,
      (forall name, In name (Zip.namelist z) -> read_error z name = None) /\
      fromstring (Py.or_empty (Zip.read z "word/document.xml")) = Some r /\
      batch_of z r decisions = Ok b /\
      Zip.namelist out = Zip.namelist z /\
      forall name bytes,
        In (name, bytes) out ->
        (name = "word/document.xml" ->
           bytes = tostring (root (fst (finish int_of_str now_iso cp b)))) /\
        (name <> "word/document.xml" -> is_comment_part name = true ->
           forall tree,
             fromstring (Py.or_empty (Zip.read z name)) = Some tree ->
             exists i tree',
               Py.dict_get String.eqb (comments_parts cp) name = Some i /\
               bytes = tostring tree' /\
               (i <> 0 -> tree' = tree) /\
               (pending_replies b = [] -> tree' = tree)) /\
        (name <> "word/document.xml" ->
           is_comment_part name = false
           \/ fromstring (Py.or_empty (Zip.read z name)) = None ->
           Zip.read z name = Some bytes).
Proof.
  intros file_name z decisions out Hok cp.
  pose proof (apply_decisions_read _ _ _ _ Hok) as Hreads.
  destruct (apply_decisions_ok _ _ _ _ Hok) as (r & b & _ & _ & _ & _ & Hr & Hrun & Hw).
  apply write_items_ok in Hw. destruct Hw as [-> _].
  exists r, b. split; [exact Hreads|]. split; [exact Hr|]. split; [exact Hrun|]. split.
  { unfold Zip.namelist. rewrite map_map. apply map_ext. intros item. reflexivity. }
  intros name bytes Hin. apply in_map_iff in Hin. destruct Hin as (item & Hw & Hitem).
  assert (Hname : In name (Zip.namelist z)).
  { unfold Zip.namelist. apply in_map_iff. exists item. split; trivial.
    now injection Hw as <- _. }
  fold cp in Hw.
  assert (Hparsed : parsed_part fromstring read_error z name
                    = fromstring (Py.or_empty (Zip.read z name)))
    by (apply parsed_part_of_read; now apply Hreads).
  destruct (String.eqb_spec (fst item) "word/document.xml") as [Hd|Hd].
  - injection Hw as <- <-. split; [reflexivity|]. split; intros K; contradiction.
  - destruct (Py.dict_get String.eqb (comments_parts cp) (fst item)) as [i|] eqn:Hget;
      injection Hw as <- <-.
    + split; [intros K; contradiction|]. split.
      * intros _ _ tree Htree.
        destruct (parse_parts_inv fromstring read_error z _ _ Hget) as [_ Hnth].
        fold cp in Hnth. rewrite Hparsed, Htree in Hnth.
        exists i, (nth i (snd (finish int_of_str now_iso cp b)) empty_element).
        split; [exact Hget|]. split; [reflexivity|].
        assert (Hsame : nth i (objects cp) empty_element = tree)
          by (now apply nth_error_nth).
        split.
        -- intros Hi. unfold finish.
           destruct (pending_replies b); [exact Hsame|].
           destruct (objects cp) as [|c0 others] eqn:Eo; [exact Hsame|].
           simpl snd. destruct i; [contradiction|exact Hsame].
        -- intros Hp. unfold finish. rewrite Hp. exact Hsame.
      * intros _ [Hc|Hp].
        -- exfalso.
           assert (Hm : Py.dict_mem String.eqb (comments_parts cp) (fst item) = true)
             by (apply dict_mem_get; now exists i).
           apply comments_parts_spec in Hm. destruct Hm as (_ & Hc' & _). congruence.
        -- exfalso.
           assert (Hm : Py.dict_mem String.eqb (comments_parts cp) (fst item) = true)
             by (apply dict_mem_get; now exists i).
           apply comments_parts_spec in Hm. destruct Hm as (_ & _ & Hp').
           rewrite Hparsed in Hp'. contradiction.
    + split; [intros K; contradiction|]. split.
      * intros _ Hc tree Htree. exfalso.
        assert (Hm : Py.dict_mem String.eqb (comments_parts cp) (fst item) = true).
        { apply comments_parts_spec. repeat split; trivial. rewrite Hparsed. congruence. }
        apply dict_mem_get in Hm. destruct Hm as [v Hv]. congruence.
      * intros _ _. destruct (read_present z _ Hname) as (bytes & Hb). now rewrite Hb.
Qed.

End Written.

(** C2, on the example contract with the decision to reject its insertion:
    the styles part has the bytes it had. *)
Lemma apply_decisions_parts_witness :
  exists out,
    Example.apply_decisions (Example.clock "00") "contract.docx"
      (Ok (Example.package Example.contract)) [Lib.decision "redline" 0 "reject"]
    = Ok out /\
    Zip.namelist out = Zip.namelist (Example.package Example.contract) /\
    forall bytes, In ("word/styles.xml", bytes) out -> bytes = "<styles/>".
Proof.
  assert (H : exists out,
            Example.apply_decisions (Example.clock "00") "contract.docx"
              (Ok (Example.package Example.contract)) [Lib.decision "redline" 0 "reject"]
            = Ok out) by (eexists; vm_compute; reflexivity).
  destruct H as [out Hout]. exists out. split; [exact Hout|].
  destruct (apply_decisions_parts Example.fromstring Lib.xml_error Lib.read_error
              Lib.tostring Lib.ratio
              Lib.int_of_str (Example.clock "00") "contract.docx"
              (Example.package Example.contract) [Lib.decision "redline" 0 "reject"]
              out Hout)
    as (r & b & _ & _ & _ & Hnames & Hparts).
  split; [exact Hnames|].
  intros bytes Hin. destruct (Hparts _ _ Hin) as (_ & _ & Hcopy).
  assert (Hread : Zip.read (Example.package Example.contract) "word/styles.xml" = Some bytes).
  { apply Hcopy; [discriminate|]. left. vm_compute. reflexivity. }
  vm_compute in Hread. now injection Hread as <-.
Defined.

(** C2 as stated fails: with the decision to reject the insertion of the
    example contract no reply is made, and yet the comments part is written
    anew, as the serialisation of the tree it was read as; its bytes are not
    the bytes of the input. *)
Lemma comment_part_rewritten_without_reply :
  exists out,
    Example.apply_decisions (Example.clock "00") "contract.docx"
      (Ok (Example.package Example.contract)) [Lib.decision "redline" 0 "reject"]
    = Ok out /\
    Zip.read out "word/comments.xml" = Some (Lib.tostring Example.comments_part) /\
    Zip.read (Example.package Example.contract) "word/comments.xml"
    = Some (Lib.word_xml Example.comments_part) /\
    Zip.read out "word/comments.xml"
    <> Zip.read (Example.package Example.contract) "word/comments.xml".
Proof.
  eexists. split; [vm_compute; reflexivity|].
  split; [vm_compute; reflexivity|].
  split; [vm_compute; reflexivity|].
  vm_compute. discriminate.
Qed.

(* ------------------------------------------------------------------ *)
(** * Properties of the Mutator: the batch and the clock *)

Section Batch.

Variable ratio : string -> string -> Q.
Variable have_parts : bool.
Variable tracked_nodes : list nat.
Variable all_paragraphs : list nat.
Variable paragraph_spans : list (nat * Z * Z).

Local Abbreviation step' := (step ratio have_parts tracked_nodes all_paragraphs paragraph_spans).
Local Abbreviation run' := (run ratio have_parts tracked_nodes all_paragraphs paragraph_spans).

Lemma pending_push b r : pending_replies (push b r) = pending_replies b ++ [r].
Proof. reflexivity. Qed.

(** A decision adds at most one reply, and none without a note. *)
Lemma step_pending b decision b' :
  step' b decision = Ok b' ->
  (pending_replies b' = pending_replies b
   \/ exists r, pending_replies b' = pending_replies b ++ [r]
                /\ Py.truthy (Py.strip (Py.or_empty (reply_comment decision))) = true).
Proof.
  unfold step.
  destruct (negb (Py.mem (source_type decision) ["redline"; "comment"]));
    [intros [= <-]; now left|].
  destruct (source_type decision =? "comment")%string.
  { intros [= <-]. unfold step_comment.
    destruct (Py.truthy (Py.strip (Py.or_empty (reply_comment decision)))) eqn:En; simpl;
      [|now left].
    destruct (by_comment_id _ _ _); [right; eexists; split; reflexivity|].
    destruct (reply_paragraph _ _ _ _ _ _); [right; eexists; split; reflexivity|now left]. }
  destruct (Py.lower (Py.strip (action decision)) =? "reply")%string.
  { intros [= <-]. unfold step_reply.
    destruct (Py.truthy (Py.strip (Py.or_empty (reply_comment decision)))) eqn:En; simpl;
      [|now left].
    destruct (by_comment_id _ _ _); [right; eexists; split; reflexivity|].
    match goal with
    | |- context [match ?X with Some p => push _ _ | None => _ end] => destruct X
    end; [right; eexists; split; reflexivity|now left]. }
  destruct (_resolve_tracked_node ratio (doc b) tracked_nodes decision) as [n|].
  - unfold step_tracked. destruct (deref (doc b) n); [|intros [= <-]; now left].
    destruct (_apply_single_decision _ _ _ _ _); [|discriminate].
    destruct (_find_ancestor _ _ _); [|intros [= <-]; now left].
    destruct (Py.truthy (Py.or_empty (reply_comment decision))); simpl;
      [|intros [= <-]; now left].
    destruct (Py.truthy (Py.strip (Py.or_empty (reply_comment decision)))) eqn:En;
      intros [= <-]; [right; eexists; split; reflexivity|now left].
  - intros [= <-]. unfold step_untracked.
    destruct (Py.truthy (Py.strip (Py.or_empty (reply_comment decision)))) eqn:En;
      [|now left].
    destruct (reply_paragraph _ _ _ _ _ _); [right; eexists; split; reflexivity|now left].
Qed.

Lemma run_pending_length decisions : forall b b',
  run' b decisions = Ok b' ->
  length (pending_replies b') <= length (pending_replies b) + length decisions.
Proof.
  induction decisions as [|decision rest IH]; intros b b'; simpl.
  - intros [= <-]. lia.
  - destruct (step' b decision) as [b1|] eqn:E; [|discriminate].
    intros Hrun. specialize (IH _ _ Hrun).
    destruct (step_pending _ _ _ E) as [->|(r & -> & _)] in IH;
      rewrite ?length_app in IH; simpl in IH; lia.
Qed.

Lemma run_pending_quiet decisions : forall b b',
  (forall decision, In decision decisions ->
                    Py.strip (Py.or_empty (reply_comment decision)) = "") ->
  run' b decisions = Ok b' ->
  pending_replies b' = pending_replies b.
Proof.
  induction decisions as [|decision rest IH]; intros b b' Hq; simpl.
  - now intros [= <-].
  - destruct (step' b decision) as [b1|] eqn:E; [|discriminate].
    intros Hrun. rewrite (IH b1 b') by (trivial; intros; apply Hq; now right).
    destruct (step_pending _ _ _ E) as [->|(r & _ & Ht)]; trivial.
    rewrite (Hq decision) in Ht by now left. discriminate.
Qed.

(** The decisions are taken one after the other, in the order of the list. *)
Lemma run_app ds1 : forall b ds2,
  run' b (ds1 ++ ds2)
  = match run' b ds1 with
    | Ok b' => run' b' ds2
    | Raise msg => Raise msg
    end.
Proof.
  induction ds1 as [|decision rest IH]; intros b ds2; simpl; [reflexivity|].
  destruct (step' b decision); [apply IH|reflexivity].
Qed.

End Batch.

Section Clock.

Variable int_of_str : string -> option Z.
Variables now1 now2 : nat -> string.

Lemma reply_fold_clock replies : forall st,
  (forall k, rs_clock st <= k < rs_clock st + length replies -> now1 k = now2 k) ->
  fold_left (reply_step now1) replies st = fold_left (reply_step now2) replies st.
Proof.
  induction replies as [|r replies IH]; intros st H; simpl; [reflexivity|].
  assert (Hstep : reply_step now1 st r = reply_step now2 st r).
  { unfold reply_step. destruct r as [[p txt] ids']. unfold _make_comment_node.
    rewrite (H (rs_clock st)) by (simpl; lia). reflexivity. }
  rewrite Hstep. apply IH. intros k Hk. apply H.
  destruct r as [[p txt] ids']. simpl in *. lia.
Qed.

Lemma finish_clock cp b :
  (forall k, k < length (pending_replies b) -> now1 k = now2 k) ->
  finish int_of_str now1 cp b = finish int_of_str now2 cp b.
Proof.
  intros H. unfold finish, _apply_replies_as_docx_comments.
  destruct (pending_replies b) as [|r0 rs] eqn:E; [reflexivity|].
  destruct (objects cp) as [|c others]; [reflexivity|].
  rewrite reply_fold_clock; [reflexivity|]. intros k Hk. apply H. simpl in *. lia.
Qed.

End Clock.

Lemma apply_decisions_clock fromstring xml_error read_error tostring ratio int_of_str
    now1 now2 file_name file_bytes decisions :
  (forall have tracked paragraphs spans r b,
     run ratio have tracked paragraphs spans (start_batch r) decisions = Ok b ->
     forall k, k < length (pending_replies b) -> now1 k = now2 k) ->
  apply_decisions fromstring xml_error read_error tostring ratio int_of_str now1
       file_name file_bytes decisions
  = apply_decisions fromstring xml_error read_error tostring ratio int_of_str now2
         file_name file_bytes decisions.
Proof.
  intros H. unfold apply_decisions.
  destruct (negb _); [reflexivity|].
  destruct decisions as [|d0 ds] eqn:Ed; [reflexivity|]. rewrite <- Ed in *.
  destruct file_bytes as [z|]; [|reflexivity].
  destruct (negb _); [reflexivity|].
  destruct (Zip.read_entry _ _ _) as [document_xml|exc]; [|reflexivity].
  destruct (fromstring _) as [r|]; [|reflexivity].
  match goal with
  | |- match ?R with _ => _ end = _ => destruct R as [b|msg] eqn:Hrun
  end; [|reflexivity].
  rewrite (finish_clock int_of_str now1 now2 _ b); [reflexivity|].
  now apply (H _ _ _ _ _ _ Hrun).
Qed.

(** C9, as the code has it.  The bytes written are a function of the input
    and of the clock: two calls on the same input give the same result when
    the clock reads the same at each reply (there is at most one reply for
    each decision), and whatever the clock reads when no decision carries a
    note.  The decisions are taken one after the other, in the order of the
    list. *)
Theorem apply_decisions_deterministic_up_to_clock :
  forall (fromstring : string -> option Element) (xml_error : string -> string)
         (read_error : Archive -> string -> option string)
         (tostring : Element -> string)
         (ratio : string -> string -> Q) (int_of_str : string -> option Z)
         (now1 now2 : nat -> string)
         (file_name : string) (file_bytes : Result Archive)
         (decisions : list RedlineDecision),
    ((forall k, k < length decisions -> now1 k = now2 k) ->
     apply_decisions fromstring xml_error read_error tostring ratio int_of_str now1
       file_name file_bytes decisions
     = apply_decisions fromstring xml_error read_error tostring ratio int_of_str now2
         file_name file_bytes decisions)
    /\
    ((forall decision, In decision decisions ->
                       Py.strip (Py.or_empty (reply_comment decision)) = "") ->
     apply_decisions fromstring xml_error read_error tostring ratio int_of_str now1
       file_name file_bytes decisions
     = apply_decisions fromstring xml_error read_error tostring ratio int_of_str now2
         file_name file_bytes decisions)
    /\
    (forall have_parts tracked_nodes all_paragraphs paragraph_spans b ds1 ds2,
       decisions = ds1 ++ ds2 ->
       run ratio have_parts tracked_nodes all_paragraphs paragraph_spans b decisions
       = match run ratio have_parts tracked_nodes all_paragraphs paragraph_spans b ds1 with
         | Ok b' => run ratio have_parts tracked_nodes all_paragraphs paragraph_spans b' ds2
         | Raise msg => Raise msg
         end).
Proof.
  intros fromstring xml_error read_error tostring ratio int_of_str now1 now2
         file_name file_bytes decisions.
  split; [|split].
  - intros H. apply apply_decisions_clock.
    intros have tracked paragraphs spans r b Hrun k Hk. apply H.
    pose proof (run_pending_length _ _ _ _ _ _ _ _ Hrun) as Hlen. simpl in Hlen. lia.
  - intros H. apply apply_decisions_clock.
    intros have tracked paragraphs spans r b Hrun k Hk.
    rewrite (run_pending_quiet _ _ _ _ _ _ _ _ H Hrun) in Hk. simpl in Hk. lia.
  - intros have_parts tracked_nodes all_paragraphs paragraph_spans b ds1 ds2 ->.
    apply run_app.
Qed.

(** C9, on the example contract: the decision to reject the insertion
    carries no note, and the result is the same whatever the clock reads. *)
Lemma apply_decisions_deterministic_up_to_clock_witness :
  Example.apply_decisions (Example.clock "00") "contract.docx"
    (Ok (Example.package Example.contract)) [Lib.decision "redline" 0 "reject"]
  = Example.apply_decisions (Example.clock "01") "contract.docx"
      (Ok (Example.package Example.contract)) [Lib.decision "redline" 0 "reject"].
Proof.
  unfold Example.apply_decisions.
  apply (proj1 (proj2 (apply_decisions_deterministic_up_to_clock
                         Example.fromstring Lib.xml_error Lib.read_error
                         Lib.tostring Lib.ratio Lib.int_of_str
                         (Example.clock "00") (Example.clock "01") "contract.docx"
                         (Ok (Example.package Example.contract))
                         [Lib.decision "redline" 0 "reject"]))).
  intros decision [<-|[]]. vm_compute. reflexivity.
Defined.

(** C9 as stated fails: a reply comment carries the time of the clock, so
    two calls on the same file name, bytes and decisions, one second apart,
    write different bytes. *)
Lemma reply_carries_the_clock :
  exists out1 out2,
    Example.apply_decisions (Example.clock "00") "contract.docx"
      (Ok (Example.package Example.contract))
      [Lib.with_reply (Lib.decision "comment" 0 "reply") "agreed"] = Ok out1 /\
    Example.apply_decisions (Example.clock "01") "contract.docx"
      (Ok (Example.package Example.contract))
      [Lib.with_reply (Lib.decision "comment" 0 "reply") "agreed"] = Ok out2 /\
    out1 <> out2.
Proof.
  eexists. eexists. split; [vm_compute; reflexivity|].
  split; [vm_compute; reflexivity|].
  vm_compute. discriminate.
Qed.

(* ------------------------------------------------------------------ *)
(** * Properties of the Extractor *)

Import CorpusParserService.

(** ** Positions *)

Section AnnotateFacts.

Context {R A : Type} (pos : R -> option nat) (key : R -> string)
        (setpos : R -> nat -> R) (f : R -> A).
Hypothesis f_setpos : forall e i, f (setpos e i) = f e.

Lemma annotate_step_map lowered acc e :
  map f (fst (annotate_step pos key setpos lowered acc e)) = map f (fst acc) ++ [f e].
Proof.
  unfold annotate_step. destruct acc as [done cursor]. cbn [fst].
  destruct (pos e); [cbn [fst]; now rewrite map_app|].
  destruct (negb _); [cbn [fst]; now rewrite map_app|].
  destruct (match Py.find lowered _ cursor with Some i => Some i | None => _ end);
    cbn [fst]; rewrite map_app; simpl; now rewrite ?f_setpos.
Qed.

Lemma annotate_fold_map lowered events : forall acc,
  map f (fst (fold_left (annotate_step pos key setpos lowered) events acc))
  = map f (fst acc) ++ map f events.
Proof.
  induction events as [|e events IH]; intros acc; simpl.
  - now rewrite app_nil_r.
  - rewrite IH, annotate_step_map. now rewrite <- app_assoc.
Qed.

(** Writing positions changes nothing else in the rows. *)
Lemma annotate_map raw events :
  map f (_annotate_event_positions pos key setpos raw events) = map f events.
Proof.
  unfold _annotate_event_positions. destruct (negb _); [reflexivity|].
  destruct events as [|e events]; [reflexivity|].
  now rewrite annotate_fold_map.
Qed.

End AnnotateFacts.

(** ** The events of the tracked nodes *)

Lemma flat_map_if_filter {A B} (c : A -> bool) (g : A -> B) (l : list A) :
  flat_map (fun x => if c x then [g x] else []) l = map g (filter c l).
Proof.
  induction l as [|x l IH]; simpl; [reflexivity|].
  destruct (c x); simpl; now rewrite IH.
Qed.

Lemma map_flat_map {A B C} (g : B -> C) (h : A -> list B) (l : list A) :
  map g (flat_map h l) = flat_map (fun x => map g (h x)) l.
Proof.
  induction l as [|x l IH]; simpl; [reflexivity|]. now rewrite map_app, IH.
Qed.

Lemma paragraph_events_kinds active comments_by_id paragraph :
  map kind_text (paragraph_events active comments_by_id paragraph)
  = map (fun inserted => ("insertion", _collect_text inserted))
        (insertions_with_text paragraph)
    ++ map (fun deleted => ("deletion", _collect_deleted_text deleted))
           (deletions_with_text paragraph).
Proof.
  unfold paragraph_events. rewrite map_app, !map_flat_map. f_equal.
  - unfold insertions_with_text.
    rewrite <- (flat_map_if_filter (fun i => Py.truthy (_collect_text i))
                  (fun i => ("insertion", _collect_text i))).
    apply flat_map_ext. intros i. now destruct (Py.truthy (_collect_text i)).
  - unfold deletions_with_text.
    rewrite <- (flat_map_if_filter (fun x => Py.truthy (_collect_deleted_text x))
                  (fun x => ("deletion", _collect_deleted_text x))).
    apply flat_map_ext. intros x. now destruct (Py.truthy (_collect_deleted_text x)).
Qed.

Lemma tracked_events_kinds active comments_by_id r :
  map kind_text (tracked_events active comments_by_id r) = expected_events r.
Proof.
  unfold tracked_events, expected_events. rewrite map_flat_map.
  apply flat_map_ext. intros p. apply paragraph_events_kinds.
Qed.

Lemma range_events_kind comments_by_id ranges e :
  In e (range_events comments_by_id ranges) -> ev_type e = "comment_range".
Proof.
  unfold range_events. intros H. apply in_flat_map in H. destruct H as (item & _ & H).
  destruct (negb _); [destruct H|]. destruct H as [<-|[]]. reflexivity.
Qed.

Section Extract.

Variable fromstring : string -> option Element.

(** The events of [extract], before their positions are written. *)
Lemma extract_events r parts people :
  exists active comments_by_id,
    map kind_text (redline_events (extract fromstring r parts people))
    = map kind_text
        (match tracked_events active comments_by_id r with
         | [] => range_events comments_by_id (_collect_comment_range_texts r)
         | tracked => tracked
         end).
Proof.
  unfold extract.
  destruct (read_parts fromstring _ _ parts ([], [])) as [st parsed].
  match goal with
  | |- context [fold_left (anchor_comment ?ex) ?an ?s] =>
      destruct (fold_left (anchor_comment ex) an s) as [rows_c comments_by_id]
  end.
  exists (_collect_active_comment_ids_by_element r), comments_by_id.
  simpl redline_events. rewrite (annotate_map _ _ _ kind_text) by reflexivity.
  now destruct (tracked_events _ _ r).
Qed.

End Extract.

(** ** Documents whose tracked nodes lie in paragraphs that are not nested *)

Section Flat.

Variable name : string.
Hypothesis name_tracked : name = "ins" \/ name = "del".

Local Abbreviation is_p := (fun x : Element => (tag x =? w "p")%string).
Local Abbreviation is_t := (fun x : Element => (tag x =? w name)%string).

Lemma tracked_not_p x : is_t x = true -> is_p x = false.
Proof.
  intros H. apply String.eqb_eq in H. simpl. rewrite H.
  destruct name_tracked as [Hn | Hn]; rewrite Hn; reflexivity.
Qed.

Lemma is_t_tracked x :
  is_t x = true -> (tag x =? w "ins")%string || (tag x =? w "del")%string = true.
Proof.
  intros H. apply String.eqb_eq in H. rewrite H.
  destruct name_tracked as [Hn | Hn]; rewrite Hn; reflexivity.
Qed.

(** Within a paragraph there is no paragraph. *)
Lemma no_paragraph_inside :
  forall e, tracked_in_paragraphs true e = true ->
            filter is_p (flat_map iter (children e)) = [].
Proof.
  induction e using Element_ind2 with
    (Q := fun cs =>
            forallb (fun c =>
                       if (tag c =? w "p")%string
                       then negb true && tracked_in_paragraphs true c
                       else if (tag c =? w "ins")%string || (tag c =? w "del")%string
                       then true && tracked_in_paragraphs true c
                       else tracked_in_paragraphs true c) cs = true ->
            filter is_p (flat_map iter cs) = []).
  - simpl. exact IHe.
  - reflexivity.
  - simpl. intros H. apply andb_true_iff in H. destruct H as [Hc Hcs].
    rewrite filter_app, (IHe0 Hcs), app_nil_r. rewrite (iter_eq e). simpl.
    destruct (tag e =? w "p")%string eqn:Ep; [discriminate|].
    apply IHe. now destruct ((tag e =? w "ins")%string || (tag e =? w "del")%string).
Qed.

(** Going through the paragraphs and through the tracked nodes of each finds
    the tracked nodes of the document, in document order. *)
Lemma tracked_by_paragraph :
  forall e, tracked_in_paragraphs false e = true ->
            flat_map (fun p => filter is_t (flat_map iter (children p)))
                     (filter is_p (flat_map iter (children e)))
            = filter is_t (flat_map iter (children e)).
Proof.
  induction e using Element_ind2 with
    (Q := fun cs =>
            forallb (fun c =>
                       if (tag c =? w "p")%string
                       then negb false && tracked_in_paragraphs true c
                       else if (tag c =? w "ins")%string || (tag c =? w "del")%string
                       then false && tracked_in_paragraphs false c
                       else tracked_in_paragraphs false c) cs = true ->
            flat_map (fun p => filter is_t (flat_map iter (children p)))
                     (filter is_p (flat_map iter cs))
            = filter is_t (flat_map iter cs)).
  - simpl. exact IHe.
  - reflexivity.
  - simpl. intros H. apply andb_true_iff in H. destruct H as [Hc Hcs].
    rewrite !filter_app, flat_map_app, (IHe0 Hcs). f_equal.
    rewrite (iter_eq e). simpl.
    destruct (tag e =? w "p")%string eqn:Ep.
    + simpl in Hc. rewrite (no_paragraph_inside e Hc). simpl. rewrite app_nil_r.
      destruct (is_t e) eqn:Et; [|reflexivity].
      apply tracked_not_p in Et. simpl in Et. congruence.
    + destruct ((tag e =? w "ins")%string || (tag e =? w "del")%string) eqn:Etr;
        [discriminate|].
      destruct (is_t e) eqn:Et.
      * apply is_t_tracked in Et. congruence.
      * now apply IHe.
Qed.

End Flat.

Lemma findall_by_paragraph name r :
  name = "ins" \/ name = "del" ->
  tracked_in_paragraphs false r = true ->
  flat_map (findall name) (findall "p" r) = findall name r.
Proof.
  intros Hn Hr. unfold findall, descendants. now apply tracked_by_paragraph.
Qed.

Lemma filter_all {A} (c : A -> bool) (l : list A) :
  (forall x, In x l -> c x = true) -> filter c l = l.
Proof.
  induction l as [|x l IH]; intros H; simpl; [reflexivity|].
  rewrite (H x) by now left. f_equal. apply IH. intros y Hy. apply H. now right.
Qed.

Lemma filter_none {A} (c : A -> bool) (l : list A) :
  (forall x, In x l -> c x = false) -> filter c l = [].
Proof.
  induction l as [|x l IH]; intros H; simpl; [reflexivity|].
  rewrite (H x) by now left. apply IH. intros y Hy. apply H. now right.
Qed.

Lemma count_kind_kinds kind events :
  count_kind kind events
  = length (filter (fun kt => (fst kt =? kind)%string) (map kind_text events)).
Proof.
  unfold count_kind. induction events as [|e events IH]; simpl; [reflexivity|].
  destruct (ev_type e =? kind)%string; simpl; now rewrite IH.
Qed.

Lemma expected_insertions r :
  length (filter (fun kt => (fst kt =? "insertion")%string) (expected_events r))
  = length (flat_map insertions_with_text (findall "p" r)).
Proof.
  unfold expected_events. induction (findall "p" r) as [|p l IH]; simpl; [reflexivity|].
  rewrite !filter_app, !length_app, IH. f_equal.
  rewrite filter_all, (filter_none _ (map _ (deletions_with_text p))).
  - rewrite length_map. simpl. lia.
  - intros x Hx. apply in_map_iff in Hx. now destruct Hx as (? & <- & _).
  - intros x Hx. apply in_map_iff in Hx. now destruct Hx as (? & <- & _).
Qed.

Lemma expected_deletions r :
  length (filter (fun kt => (fst kt =? "deletion")%string) (expected_events r))
  = length (flat_map deletions_with_text (findall "p" r)).
Proof.
  unfold expected_events. induction (findall "p" r) as [|p l IH]; simpl; [reflexivity|].
  rewrite !filter_app, !length_app, IH. f_equal.
  rewrite (filter_none _ (map _ (insertions_with_text p))), filter_all.
  - rewrite length_map. simpl. lia.
  - intros x Hx. apply in_map_iff in Hx. now destruct Hx as (? & <- & _).
  - intros x Hx. apply in_map_iff in Hx. now destruct Hx as (? & <- & _).
Qed.

Lemma expected_length r :
  length (expected_events r)
  = length (flat_map insertions_with_text (findall "p" r))
    + length (flat_map deletions_with_text (findall "p" r)).
Proof.
  unfold expected_events. induction (findall "p" r) as [|p l IH]; simpl; [reflexivity|].
  rewrite !length_app, IH, !length_map. lia.
Qed.

Lemma flat_map_filter_all {A} (c : Element -> bool) (h : A -> list Element) (l : list A) :
  (forall x, In x (flat_map h l) -> c x = true) ->
  flat_map (fun p => filter c (h p)) l = flat_map h l.
Proof.
  induction l as [|p l IH]; intros H; simpl; [reflexivity|].
  rewrite filter_all, IH; trivial.
  - intros x Hx. apply H. simpl. apply in_or_app. now right.
  - intros x Hx. apply H. simpl. apply in_or_app. now left.
Qed.

(** C4, as the code has it.  The events of the Extractor are made from the
    tracked nodes that have text: paragraph after paragraph, the insertions
    of a paragraph before its deletions; a tracked node without text gives
    no event.  When no tracked node gives an event, the events are made from
    the comment ranges and all have the kind "comment_range".  So the numbers
    of insertion and deletion events are those of the tracked nodes with text
    that the paragraphs hold; they are the numbers N and M of the tracked
    nodes of the document when every tracked node has text and lies in one
    paragraph, and then there are N+M events unless N+M is 0. *)
Theorem extract_redline_events_count :
  forall (fromstring : string -> option Element) (r : Element)
         (comments_xml_parts : list string) (people_xml : option string),
    let events := redline_events (extract fromstring r comments_xml_parts people_xml) in
    (expected_events r <> [] -> map kind_text events = expected_events r) /\
    (expected_events r = [] -> forall e, In e events -> ev_type e = "comment_range") /\
    count_kind "insertion" events
    = length (flat_map insertions_with_text (findall "p" r)) /\
    count_kind "deletion" events
    = length (flat_map deletions_with_text (findall "p" r)) /\
    (tracked_in_paragraphs false r = true ->
     (forall n, In n (findall "ins" r) -> Py.truthy (_collect_text n) = true) ->
     (forall n, In n (findall "del" r) -> Py.truthy (_collect_deleted_text n) = true) ->
     count_kind "insertion" events = length (findall "ins" r) /\
     count_kind "deletion" events = length (findall "del" r) /\
     (findall "ins" r ++ findall "del" r <> [] ->
      length events = length (findall "ins" r) + length (findall "del" r))).
Proof.
  intros fromstring r parts people events.
  destruct (extract_events fromstring r parts people) as (active & by_id & Hk).
  fold events in Hk.
  pose proof (tracked_events_kinds active by_id r) as Ht.
  assert (H1 : expected_events r <> [] -> map kind_text events = expected_events r).
  { intros Hne. rewrite Hk. destruct (tracked_events active by_id r); [|exact Ht].
    simpl in Ht. congruence. }
  assert (H2 : expected_events r = [] ->
               forall e, In e events -> ev_type e = "comment_range").
  { intros He e Hin. rewrite He in Ht.
    destruct (tracked_events active by_id r); [|discriminate].
    apply (in_map kind_text) in Hin. rewrite Hk in Hin. apply in_map_iff in Hin.
    destruct Hin as (e' & Heq & Hin'). apply range_events_kind in Hin'.
    unfold kind_text in Heq. congruence. }
  assert (H3 : count_kind "insertion" events
               = length (flat_map insertions_with_text (findall "p" r))
               /\ count_kind "deletion" events
                  = length (flat_map deletions_with_text (findall "p" r))).
  { destruct (expected_events r) as [|x l] eqn:Ee.
    - pose proof (expected_length r) as Hl. rewrite Ee in Hl. simpl in Hl.
      assert (Hz : forall kind, kind <> "comment_range" -> count_kind kind events = 0).
      { intros kind Hkind. unfold count_kind. rewrite filter_none; [reflexivity|].
        intros e He. rewrite (H2 eq_refl e He).
        destruct (String.eqb_spec "comment_range" kind); congruence. }
      rewrite !Hz by discriminate. lia.
    - rewrite !count_kind_kinds, H1 by discriminate. rewrite <- Ee.
      now rewrite expected_insertions, expected_deletions. }
  split; [exact H1|]. split; [exact H2|]. split; [apply H3|]. split; [apply H3|].
  intros Hflat Hins Hdel.
  assert (Hi : flat_map insertions_with_text (findall "p" r) = findall "ins" r).
  { unfold insertions_with_text.
    rewrite (flat_map_filter_all _ (findall "ins")).
    - apply findall_by_paragraph; [now left|exact Hflat].
    - intros x Hx. apply Hins. now rewrite <- (findall_by_paragraph "ins" r) by tauto. }
  assert (Hd : flat_map deletions_with_text (findall "p" r) = findall "del" r).
  { unfold deletions_with_text.
    rewrite (flat_map_filter_all _ (findall "del")).
    - apply findall_by_paragraph; [now right|exact Hflat].
    - intros x Hx. apply Hdel. now rewrite <- (findall_by_paragraph "del" r) by tauto. }
  destruct H3 as [H3i H3d]. rewrite Hi in H3i. rewrite Hd in H3d.
  split; [exact H3i|]. split; [exact H3d|].
  intros Hne. rewrite <- (length_map kind_text events).
  rewrite H1, expected_length, Hi, Hd; [reflexivity|].
  intros He. pose proof (expected_length r) as Hl. rewrite He, Hi, Hd in Hl. simpl in Hl.
  apply Hne. destruct (findall "ins" r), (findall "del" r); simpl in *; try lia. reflexivity.
Qed.

(** C4, on the example contract: its tracked nodes have text and lie in one
    paragraph, and there are as many events as tracked nodes. *)
Lemma extract_redline_events_count_witness :
  tracked_in_paragraphs false Example.contract = true /\
  length (redline_events
            (extract Example.fromstring Example.contract
                     [Lib.word_xml Example.comments_part] None))
  = length (findall "ins" Example.contract) + length (findall "del" Example.contract).
Proof.
  split; [vm_compute; reflexivity|].
  apply (proj2 (proj2 (proj2 (proj2
           (extract_redline_events_count Example.fromstring Example.contract
              [Lib.word_xml Example.comments_part] None))))).
  - vm_compute. reflexivity.
  - intros n Hn. vm_compute in Hn. destruct Hn as [<-|[]]. vm_compute. reflexivity.
  - intros n Hn. vm_compute in Hn. destruct Hn as [<-|[]]. vm_compute. reflexivity.
  - vm_compute. discriminate.
Defined.

(** C4 as stated fails.  A paragraph whose mark is a tracked insertion holds
    two tracked insertions, and the Extractor reports one event: the
    insertion of the mark has no text.  A document without tracked nodes and
    with a comment range has N+M = 0, and the Extractor reports one event,
    of the kind "comment_range". *)
Lemma insertion_without_text_gives_no_event :
  (length (findall "ins" Example.inserted_paragraph)
   + length (findall "del" Example.inserted_paragraph) = 2 /\
   map kind_text
       (redline_events (Example._parse_docx (Ok (Example.package Example.inserted_paragraph))))
   = [("insertion", "45 days")]) /\
  (length (findall "ins" Example.commented)
   + length (findall "del" Example.commented) = 0 /\
   map kind_text
       (redline_events (Example._parse_docx (Ok (Example.package Example.commented))))
   = [("comment_range", "Payment within 45 days.")]).
Proof.
  repeat split; vm_compute; reflexivity.
Qed.

(** C5 fails on a paragraph whose mark is a tracked insertion.  The
    Extractor reports one event, the insertion "45 days", at index 0.  The
    Mutator collects two tracked nodes, and the one at index 0 is the
    insertion of the paragraph mark, which has no text.  The decision to
    reject the redline of index 0 removes that node, and "45 days" stays in
    the body. *)
Lemma tracked_nodes_out_of_step :
  map ev_text
      (redline_events (Example._parse_docx (Ok (Example.package Example.inserted_paragraph))))
  = ["45 days"] /\
  map _collect_text
      (DocxRedlineEditorService._collect_tracked_nodes Example.inserted_paragraph)
  = [""; "45 days"] /\
  exists out,
    Example.apply_decisions (Example.clock "00") "contract.docx"
      (Ok (Example.package Example.inserted_paragraph))
      [Lib.decision "redline" 0 "reject"] = Ok out /\
    Zip.read out "word/document.xml"
    = Some (Lib.tostring
              (DocxRedlineEditorService.set_children 5 [] Example.inserted_paragraph)) /\
    texts_of "t" (DocxRedlineEditorService.set_children 5 [] Example.inserted_paragraph)
    = ["Payment within "; "45 days"].
Proof.
  split; [vm_compute; reflexivity|]. split; [vm_compute; reflexivity|].
  eexists. split; [vm_compute; reflexivity|]. split; vm_compute; reflexivity.
Qed.

(** C8 fails on a paragraph that was deleted as a whole inside a comment
    range.  The paragraph has no body text, so its comment id 2 gets no
    anchor; the comments part has the comment 1, so no comment is made from
    the events either.  The event of the deletion refers to the comment 2,
    and no row of [comments] has that id. *)
Lemma comment_id_without_entity :
  map ev_comment_ids
      (redline_events (Example._parse_docx (Ok (Example.package Example.deleted_paragraph))))
  = [["2"]] /\
  map cm_id
      (comments (Example._parse_docx (Ok (Example.package Example.deleted_paragraph))))
  = [Some "1"].
Proof.
  split; vm_compute; reflexivity.
Qed.

(* ------------------------------------------------------------------ *)
(** * The Mutator followed by the Extractor *)

Section RoundTrip.

Variable fromstring : string -> option Element.
Variable xml_error : string -> string.
Variable read_error : Archive -> string -> option string.
Variable tostring : Element -> string.
Variable ratio : string -> string -> Q.
Variable int_of_str : string -> option Z.
Variable now_iso : nat -> string.

(** A decision that is passed over leaves the batch as it is. *)
Lemma step_passed_over have tracked paragraphs spans b decision :
  passed_over decision = true ->
  DocxRedlineEditorService.step ratio have tracked paragraphs spans b decision = Ok b.
Proof.
  unfold passed_over, DocxRedlineEditorService.step. intros H.
  destruct (negb (Py.mem (source_type decision) ["redline"; "comment"])); [reflexivity|].
  simpl in H. apply andb_true_iff in H. destruct H as [Hc Hn]. rewrite Hc.
  unfold DocxRedlineEditorService.step_comment. now rewrite Hn.
Qed.

Lemma run_passed_over have tracked paragraphs spans decisions : forall b,
  (forall decision, In decision decisions -> passed_over decision = true) ->
  DocxRedlineEditorService.run ratio have tracked paragraphs spans b decisions = Ok b.
Proof.
  induction decisions as [|decision rest IH]; intros b H; simpl; [reflexivity|].
  rewrite step_passed_over by (apply H; now left). apply IH. intros x Hx. apply H. now right.
Qed.

(** The Extractor reads the comment parts through [fromstring] only. *)
Lemma read_parts_trees anchors people parts1 : forall parts2 st,
  map fromstring parts1 = map fromstring parts2 ->
  CorpusParserService.read_parts fromstring anchors people parts1 st
  = CorpusParserService.read_parts fromstring anchors people parts2 st.
Proof.
  induction parts1 as [|x parts1 IH]; intros [|y parts2] st H; simpl in *;
    try discriminate; [reflexivity|].
  injection H as Hxy Hrest. rewrite <- Hxy.
  destruct (fromstring x); [|reflexivity]. now apply IH.
Qed.

Lemma extract_trees r parts1 parts2 people :
  map fromstring parts1 = map fromstring parts2 ->
  CorpusParserService.extract fromstring r parts1 people
  = CorpusParserService.extract fromstring r parts2 people.
Proof.
  intros H. unfold CorpusParserService.extract.
  now rewrite (read_parts_trees _ _ parts1 parts2 _ H).
Qed.

Lemma extractor_part_is_mutator_part name :
  CorpusParserService.is_comment_part name = true ->
  DocxRedlineEditorService.is_comment_part name = true.
Proof.
  unfold CorpusParserService.is_comment_part, DocxRedlineEditorService.is_comment_part.
  now destruct (Py.startswith name "word/comments" && Py.endswith name ".xml").
Qed.


(** What the Extractor reads from an archive whose entries all read. *)
Lemma read_parts_bytes_complete a names :
  (forall name, In name names -> read_error a name = None) ->
  CorpusParserService.read_parts_bytes read_error a names
  = Ok (map (fun name => Py.or_empty (Zip.read a name)) names).
Proof.
  induction names as [|name names IH]; intros H; cbn [CorpusParserService.read_parts_bytes map];
    [reflexivity|].
  unfold Zip.read_entry. rewrite (H name) by now left.
  rewrite IH by (intros n Hn; apply H; now right). reflexivity.
Qed.

Lemma read_archive_complete a :
  In "word/document.xml" (Zip.namelist a) ->
  (forall name, In name (Zip.namelist a) -> read_error a name = None) ->
  CorpusParserService.read_archive read_error a
  = Ok (Py.or_empty (Zip.read a "word/document.xml"),
        map (fun name => Py.or_empty (Zip.read a name))
            (CorpusParserService.comment_part_names a),
        if Py.mem "word/people.xml" (Zip.namelist a)
        then Some (Py.or_empty (Zip.read a "word/people.xml")) else None).
Proof.
  intros Hdoc Hread. unfold CorpusParserService.read_archive.
  rewrite (proj2 (mem_In _ _) Hdoc). cbn [negb]. unfold Zip.read_entry.
  rewrite (Hread _ Hdoc). rewrite read_parts_bytes_complete.
  - destruct (Py.mem "word/people.xml" (Zip.namelist a)) eqn:Em; [|reflexivity].
    apply mem_In in Em. now rewrite (Hread _ Em).
  - intros name Hin. apply Hread. unfold CorpusParserService.comment_part_names in Hin.
    apply in_sort, filter_In in Hin. tauto.
Qed.

(** The bytes written for a name when no decision applies. *)
Local Abbreviation rewritten z r :=
  (fun name : string =>
     if (name =? "word/document.xml")%string then tostring r
     else match Py.dict_get String.eqb
                  (DocxRedlineEditorService.comments_parts
                     (DocxRedlineEditorService.parse_comment_parts fromstring read_error z))
                  name with
          | Some i =>
              tostring (nth i (DocxRedlineEditorService.objects
                                 (DocxRedlineEditorService.parse_comment_parts
                                    fromstring read_error z))
                            DocxRedlineEditorService.empty_element)
          | None => Py.or_empty (Zip.read z name)
          end).

Lemma passed_over_output file_name z decisions r :
  Py.lower (Py.path_suffix file_name) = ".docx" ->
  decisions <> [] ->
  (forall decision, In decision decisions -> passed_over decision = true) ->
  In "word/document.xml" (Zip.namelist z) ->
  (forall name, In name (Zip.namelist z) -> read_error z name = None) ->
  fromstring (Py.or_empty (Zip.read z "word/document.xml")) = Some r ->
  DocxRedlineEditorService.apply_decisions fromstring xml_error read_error tostring ratio
    int_of_str now_iso file_name (Ok z) decisions
  = Ok (map (fun item => (fst item, rewritten z r (fst item))) z).
Proof.
  intros Hs Hne Hp Hdoc Hread Hr. unfold DocxRedlineEditorService.apply_decisions.
  rewrite Hs. simpl negb. cbv iota.
  destruct decisions as [|d0 ds]; [contradiction|].
  rewrite (proj2 (mem_In _ _) Hdoc). simpl negb. cbv iota.
  unfold Zip.read_entry at 1. rewrite (Hread _ Hdoc), Hr.
  rewrite run_passed_over by exact Hp.
  rewrite write_items_complete.
  - reflexivity.
  - intros item Hin. apply Hread. unfold Zip.namelist. now apply in_map.
Qed.

(** A part that the Extractor reads has, after a batch in which no decision
    applies, bytes that read as the same tree. *)
Lemma rewritten_reads_same z r name :
  In name (Zip.namelist z) ->
  name <> "word/document.xml" ->
  (forall name, In name (Zip.namelist z) -> read_error z name = None) ->
  (forall n t, In n (Zip.namelist z) ->
               fromstring (Py.or_empty (Zip.read z n)) = Some t ->
               fromstring (tostring t) = Some t) ->
  fromstring (rewritten z r name) = fromstring (Py.or_empty (Zip.read z name)).
Proof.
  intros Hin Hne Hread Hrt. cbv beta. destruct (String.eqb_spec name "word/document.xml");
    [contradiction|].
  destruct (Py.dict_get String.eqb _ name) as [i|] eqn:Hget; [|reflexivity].
  destruct (parse_parts_inv fromstring read_error z _ _ Hget) as [Hsome Hnth].
  rewrite (parsed_part_of_read fromstring read_error z name (Hread _ Hin)) in Hnth.
  destruct (nth_error _ i) as [t|] eqn:Et; [|contradiction].
  rewrite (nth_error_nth _ _ _ Et). rewrite <- Hnth. apply (Hrt name); trivial.
  now rewrite <- Hnth.
Qed.

Lemma rewritten_copies z r name :
  name <> "word/document.xml" ->
  DocxRedlineEditorService.is_comment_part name = false ->
  rewritten z r name = Py.or_empty (Zip.read z name).
Proof.
  intros Hne Hc. cbv beta. destruct (String.eqb_spec name "word/document.xml");
    [contradiction|].
  destruct (Py.dict_get String.eqb _ name) as [i|] eqn:Hget; [|reflexivity].
  assert (Hm : Py.dict_mem String.eqb
                 (DocxRedlineEditorService.comments_parts
                    (DocxRedlineEditorService.parse_comment_parts fromstring read_error z))
                 name = true)
    by (apply dict_mem_get; now exists i).
  apply comments_parts_spec in Hm. destruct Hm as (_ & Hc' & _). congruence.
Qed.

(** C6, as the code has it.  An empty list of decisions is refused.  After
    a batch in which every decision is passed over, on a package whose
    entries all read, the document part is the serialisation of the tree
    that was read; when the serialisation of each tree read from the package
    reads as that tree again, and the archive written reads, the Extractor
    gives for the output what it gives for the input: the same text, the
    same events and the same comments. *)
Theorem passed_over_batch_round_trip :
  forall (file_name : string) (z : Archive) (decisions : list RedlineDecision)
         (r : Element),
    Py.lower (Py.path_suffix file_name) = ".docx" ->
    DocxRedlineEditorService.apply_decisions fromstring xml_error read_error tostring ratio
      int_of_str now_iso file_name (Ok z) [] = Raise "No redline decisions provided"
    /\
    (decisions <> [] ->
     (forall decision, In decision decisions -> passed_over decision = true) ->
     In "word/document.xml" (Zip.namelist z) ->
     (forall name, In name (Zip.namelist z) -> read_error z name = None) ->
     fromstring (Py.or_empty (Zip.read z "word/document.xml")) = Some r ->
     (forall name t, In name (Zip.namelist z) ->
                     fromstring (Py.or_empty (Zip.read z name)) = Some t ->
                     fromstring (tostring t) = Some t) ->
     exists out,
       DocxRedlineEditorService.apply_decisions fromstring xml_error read_error tostring
         ratio int_of_str now_iso file_name (Ok z) decisions = Ok out /\
       Zip.read out "word/document.xml" = Some (tostring r) /\
       ((forall name, In name (Zip.namelist out) -> read_error out name = None) ->
        CorpusParserService._parse_docx fromstring xml_error read_error (Ok out)
        = CorpusParserService._parse_docx fromstring xml_error read_error (Ok z))).
Proof.
  intros file_name z decisions r Hs. split.
  { unfold DocxRedlineEditorService.apply_decisions. now rewrite Hs. }
  intros Hne Hp Hdoc Hreadz Hr Hrt.
  exists (map (fun item => (fst item, rewritten z r (fst item))) z).
  split; [now apply passed_over_output|].
  assert (Hread : forall name,
            Zip.read (map (fun item => (fst item, rewritten z r (fst item))) z) name
            = if Py.mem name (Zip.namelist z) then Some (rewritten z r name) else None)
    by (intros name; apply (read_map z (rewritten z r) name)).
  assert (Hnames : Zip.namelist (map (fun item => (fst item, rewritten z r (fst item))) z)
                   = Zip.namelist z)
    by (unfold Zip.namelist; rewrite map_map; reflexivity).
  split.
  { rewrite Hread, (proj2 (mem_In _ _) Hdoc). now rewrite String.eqb_refl. }
  intros Hreadout.
  unfold CorpusParserService._parse_docx.
  rewrite (read_archive_complete z Hdoc Hreadz).
  rewrite read_archive_complete; [|now rewrite Hnames|exact Hreadout].
  rewrite Hread, (proj2 (mem_In _ _) Hdoc).
  rewrite String.eqb_refl. cbn [Py.or_empty].
  rewrite (Hrt "word/document.xml" r Hdoc) by exact Hr.
  rewrite Hr.
  unfold CorpusParserService.comment_part_names. rewrite Hnames.
  assert (Hpeople :
            (if Py.mem "word/people.xml" (Zip.namelist z)
             then Some (Py.or_empty
                          (Zip.read (map (fun item => (fst item, rewritten z r (fst item))) z)
                                    "word/people.xml"))
             else None)
            = (if Py.mem "word/people.xml" (Zip.namelist z)
               then Some (Py.or_empty (Zip.read z "word/people.xml")) else None)).
  { destruct (Py.mem "word/people.xml" (Zip.namelist z)) eqn:Em; [|reflexivity].
    rewrite Hread, Em. rewrite rewritten_copies by (discriminate || reflexivity).
    reflexivity. }
  rewrite Hpeople. apply extract_trees.
  rewrite !map_map. apply map_ext_in. intros name Hin.
  apply in_sort, filter_In in Hin. destruct Hin as [Hin Hc].
  rewrite Hread, (proj2 (mem_In _ _) Hin). simpl Py.or_empty.
  apply rewritten_reads_same; trivial.
  intros ->. discriminate.
Qed.

End RoundTrip.

(** C6, on the example contract, with a decision of a source type that the
    Mutator passes over: the Extractor gives for the output what it gives
    for the input. *)
Lemma passed_over_batch_round_trip_witness :
  exists out,
    Example.apply_decisions (Example.clock "00") "contract.docx"
      (Ok (Example.package Example.contract)) [Lib.decision "note" 0 "accept"] = Ok out /\
    Example._parse_docx (Ok out)
    = Example._parse_docx (Ok (Example.package Example.contract)).
Proof.
  assert (Hs : Py.lower (Py.path_suffix "contract.docx") = ".docx")
    by (vm_compute; reflexivity).
  destruct (proj2 (passed_over_batch_round_trip Example.fromstring Lib.xml_error
                     Lib.read_error Lib.tostring Lib.ratio
                     Lib.int_of_str (Example.clock "00") "contract.docx"
                     (Example.package Example.contract) [Lib.decision "note" 0 "accept"]
                     Example.contract Hs))
    as (out & Hout & _ & Hsame).
  - discriminate.
  - intros decision [<-|[]]. vm_compute. reflexivity.
  - vm_compute. tauto.
  - reflexivity.
  - vm_compute. reflexivity.
  - intros name t _ Ht. unfold Example.fromstring, Lib.fromstring in Ht.
    apply find_some in Ht. destruct Ht as [Hin _]. unfold Example.trees in Hin.
    destruct Hin as [<-|[<-|[<-|[<-|[<-|[<-|[]]]]]]]; vm_compute; reflexivity.
  - exists out. split; [exact Hout|]. apply Hsame. reflexivity.
Defined.

(** C6 as stated fails: an empty list of decisions is refused, and no bytes
    are returned. *)
Lemma empty_decision_list_is_refused :
  Example.apply_decisions (Example.clock "00") "contract.docx"
    (Ok (Example.package Example.contract)) []
  = Raise "No redline decisions provided".
Proof.
  vm_compute. reflexivity.
Qed.

(* ------------------------------------------------------------------ *)
(** * Further properties of the Mutator: what stops a batch *)

Import DocxRedlineEditorService.

Lemma apply_single_decision_raise d pm node act modified msg :
  _apply_single_decision d pm node act modified = Raise msg ->
  msg = ("Unsupported action: " ++ act)%string /\
  is_action (Py.lower (Py.strip act)) = false.
Proof.
  unfold _apply_single_decision.
  destruct (negb (Py.mem (_local_name (tag node)) ["ins"; "del"])); [discriminate|].
  destruct (pm_get pm (eid node)); [|discriminate].
  destruct (is_action (Py.lower (Py.strip act))) eqn:Ea; simpl negb; cbv iota.
  - repeat match goal with
           | |- context [if ?c then _ else _] => destruct c
           | |- context [let '(_, _) := ?c in _] => destruct c
           end; discriminate.
  - intros [= <-]. now split.
Qed.

Section Stops.

Variable ratio : string -> string -> Q.
Variable have_parts : bool.
Variable tracked_nodes : list nat.
Variable all_paragraphs : list nat.
Variable paragraph_spans : list (nat * Z * Z).

Local Abbreviation step' := (step ratio have_parts tracked_nodes all_paragraphs paragraph_spans).
Local Abbreviation run' := (run ratio have_parts tracked_nodes all_paragraphs paragraph_spans).

Lemma step_raise b decision msg :
  step' b decision = Raise msg ->
  source_type decision = "redline" /\
  msg = ("Unsupported action: " ++ action decision)%string /\
  is_action (Py.lower (Py.strip (action decision))) = false.
Proof.
  unfold step.
  destruct (Py.mem (source_type decision) ["redline"; "comment"]) eqn:Em; [|discriminate].
  simpl negb. cbv iota.
  destruct (String.eqb_spec (source_type decision) "comment") as [Hc|Hc]; [discriminate|].
  assert (Hr : source_type decision = "redline").
  { unfold Py.mem in Em. simpl in Em.
    destruct (String.eqb_spec (source_type decision) "redline"); trivial.
    destruct (String.eqb_spec (source_type decision) "comment"); [contradiction|discriminate]. }
  destruct (Py.lower (Py.strip (action decision)) =? "reply")%string; [discriminate|].
  destruct (_resolve_tracked_node ratio (doc b) tracked_nodes decision) as [n|];
    [|discriminate].
  unfold step_tracked. destruct (deref (doc b) n); [|discriminate].
  destruct (_apply_single_decision _ _ _ _ _) as [d'|m] eqn:Ea.
  - destruct (_find_ancestor _ _ _); [|discriminate].
    destruct (_ && _); discriminate.
  - intros [= <-]. apply apply_single_decision_raise in Ea. tauto.
Qed.

Lemma run_raise decisions : forall b msg,
  run' b decisions = Raise msg ->
  exists decision,
    In decision decisions /\
    source_type decision = "redline" /\
    msg = ("Unsupported action: " ++ action decision)%string /\
    is_action (Py.lower (Py.strip (action decision))) = false.
Proof.
  induction decisions as [|decision rest IH]; intros b msg; simpl; [discriminate|].
  destruct (step' b decision) as [b1|m] eqn:E.
  - intros H. destruct (IH _ _ H) as (x & Hin & Hx). exists x. split; [now right|exact Hx].
  - intros [= <-]. exists decision. split; [now left|]. now apply step_raise in E.
Qed.

Lemma run_completes decisions : forall b,
  (forall decision, In decision decisions -> source_type decision = "redline" ->
                    is_action (Py.lower (Py.strip (action decision))) = true) ->
  exists b', run' b decisions = Ok b'.
Proof.
  intros b H. destruct (run' b decisions) as [b'|msg] eqn:E; [now exists b'|].
  destruct (run_raise _ _ _ E) as (x & Hin & Hr & _ & Ha).
  rewrite (H x Hin Hr) in Ha. discriminate.
Qed.

End Stops.






(* ------------------------------------------------------------------ *)
(** * Decisions that only leave a note *)

Section Notes.

Variable ratio : string -> string -> Q.
Variable have_parts : bool.
Variable tracked_nodes : list nat.
Variable all_paragraphs : list nat.
Variable paragraph_spans : list (nat * Z * Z).

Local Abbreviation step' := (step ratio have_parts tracked_nodes all_paragraphs paragraph_spans).
Local Abbreviation run' := (run ratio have_parts tracked_nodes all_paragraphs paragraph_spans).

Lemma step_comment_doc b decision :
  doc (step_comment ratio have_parts all_paragraphs paragraph_spans b decision) = doc b.
Proof.
  unfold step_comment.
  destruct (negb _); [reflexivity|].
  destruct (by_comment_id _ _ _); [reflexivity|].
  destruct (reply_paragraph _ _ _ _ _ _); reflexivity.
Qed.

Lemma step_reply_doc b decision node :
  doc (step_reply ratio have_parts all_paragraphs paragraph_spans b decision node) = doc b.
Proof.
  unfold step_reply.
  destruct (negb _); [reflexivity|].
  destruct (by_comment_id _ _ _); [reflexivity|].
  destruct (reply_paragraph _ _ _ _ _ _); [reflexivity|].
  destruct node; [|reflexivity].
  destruct (option_map _ _); reflexivity.
Qed.

Lemma step_note b decision :
  source_type decision <> "redline" \/ Py.lower (Py.strip (action decision)) = "reply" ->
  exists b', step' b decision = Ok b' /\ doc b' = doc b.
Proof.
  intros H. unfold step.
  destruct (Py.mem (source_type decision) ["redline"; "comment"]) eqn:Em;
    simpl negb; cbv iota; [|now exists b].
  destruct (String.eqb_spec (source_type decision) "comment") as [Hc|Hc].
  { eexists. split; [reflexivity|apply step_comment_doc]. }
  destruct (String.eqb_spec (Py.lower (Py.strip (action decision))) "reply") as [Hr|Hr].
  { eexists. split; [reflexivity|apply step_reply_doc]. }
  exfalso. destruct H as [H|H]; [|contradiction].
  unfold Py.mem in Em. simpl in Em.
  destruct (String.eqb_spec (source_type decision) "redline"); [contradiction|].
  destruct (String.eqb_spec (source_type decision) "comment"); [contradiction|discriminate].
Qed.

Lemma run_notes decisions : forall b,
  (forall decision, In decision decisions ->
     source_type decision <> "redline"
     \/ Py.lower (Py.strip (action decision)) = "reply") ->
  exists b', run' b decisions = Ok b' /\ doc b' = doc b.
Proof.
  induction decisions as [|decision rest IH]; intros b H; simpl; [now exists b|].
  destruct (step_note b decision) as (b1 & -> & Hd); [apply H; now left|].
  destruct (IH b1) as (b' & Hrun & Hd'); [intros x Hx; apply H; now right|].
  exists b'. split; [exact Hrun|congruence].
Qed.

End Notes.

(** X4.  Decisions that are not redline decisions, and redline decisions
    whose action is a reply, never raise and never change the document tree
    while the loop runs: all they can do is leave a note for the end of the
    batch. *)
Theorem note_decisions_keep_the_tree :
  forall (ratio : string -> string -> Q) (have_parts : bool)
         (tracked_nodes all_paragraphs : list nat) (paragraph_spans : list (nat * Z * Z))
         (decisions : list RedlineDecision) (b : Batch),
    (forall decision, In decision decisions ->
       source_type decision <> "redline"
       \/ Py.lower (Py.strip (action decision)) = "reply") ->
    exists b',
      run ratio have_parts tracked_nodes all_paragraphs paragraph_spans b decisions = Ok b' /\
      doc b' = doc b /\
      length (pending_replies b') <= length (pending_replies b) + length decisions.
Proof.
  intros ratio have_parts tracked_nodes all_paragraphs paragraph_spans decisions b H.
  destruct (run_notes ratio have_parts tracked_nodes all_paragraphs paragraph_spans
              decisions b H) as (b' & Hrun & Hdoc).
  exists b'. split; [exact Hrun|]. split; [exact Hdoc|].
  exact (run_pending_length _ _ _ _ _ _ _ _ Hrun).
Qed.

Lemma note_decisions_keep_the_tree_witness :
  exists b',
    run Lib.ratio true
      (map eid (_collect_tracked_nodes Example.contract))
      (map eid (findall "p" Example.contract))
      (_build_paragraph_spans (findall "p" Example.contract))
      (start_batch Example.contract)
      [Lib.with_reply (Lib.decision "comment" 0 "") "agreed";
       Lib.with_reply (Lib.decision "redline" 1 " Reply ") "why?";
       Lib.decision "note" 0 "accept"] = Ok b' /\
    doc b' = doc (start_batch Example.contract) /\
    length (pending_replies b') <= length (pending_replies (start_batch Example.contract)) + 3.
Proof.
  apply (note_decisions_keep_the_tree Lib.ratio true
           (map eid (_collect_tracked_nodes Example.contract))
           (map eid (findall "p" Example.contract))
           (_build_paragraph_spans (findall "p" Example.contract))
           [Lib.with_reply (Lib.decision "comment" 0 "") "agreed";
            Lib.with_reply (Lib.decision "redline" 1 " Reply ") "why?";
            Lib.decision "note" 0 "accept"]
           (start_batch Example.contract)).
  intros decision [<-|[<-|[<-|[]]]].
  - left. discriminate.
  - right. vm_compute. reflexivity.
  - left. discriminate.
Defined.

(* ------------------------------------------------------------------ *)
(** * A node that was decided *)









Lemma below_all l n : forallb (fun i => i <? n) l = true -> forall i, In i l -> i < n.
Proof.
  intros H i Hi. rewrite forallb_forall in H. specialize (H i Hi). now apply Nat.ltb_lt.
Qed.


(* ------------------------------------------------------------------ *)
(** * Replies and the body of the document *)

Import DocxRedlineEditorService.

Lemma flat_map_concat_map {A B} (g : A -> list B) (l : list A) :
  flat_map g l = concat (map g l).
Proof. induction l as [|x l IH]; simpl; [reflexivity|]. now rewrite IH. Qed.

Lemma filter_filter {A} (c1 c2 : A -> bool) (l : list A) :
  filter c2 (filter c1 l) = filter (fun x => c1 x && c2 x) l.
Proof.
  induction l as [|x l IH]; simpl; [reflexivity|].
  destruct (c1 x); simpl; [destruct (c2 x)|]; now rewrite IH.
Qed.

Section Append.

Variable pid : nat.
Variable new : list Element.

Local Abbreviation ac := (append_children pid new).

Lemma append_label e : label (ac e) = label e.
Proof. destruct e as [i t a x y ch]. simpl. now destruct (i =? pid). Qed.

Lemma append_tag e : tag (ac e) = tag e.
Proof. destruct e as [i t a x y ch]. simpl. now destruct (i =? pid). Qed.

Lemma append_text e : text (ac e) = text e.
Proof. destruct e as [i t a x y ch]. simpl. now destruct (i =? pid). Qed.

Lemma append_eid e : eid (ac e) = eid e.
Proof. destruct e as [i t a x y ch]. simpl. now destruct (i =? pid). Qed.

Section Observed.

(** What is observed of the elements that pass the test [c]. *)
Context {X : Type}.
Variable c : Element -> bool.
Variable f : Element -> X.
Hypothesis c_append : forall e, c (ac e) = c e.
Hypothesis f_append : forall e, f (ac e) = f e.
Hypothesis c_new : forall x, In x (flat_map iter new) -> c x = false.

Lemma filter_new : filter c (flat_map iter new) = [].
Proof. apply filter_none. exact c_new. Qed.

Lemma append_iter :
  forall e, map f (filter c (iter (ac e))) = map f (filter c (iter e)).
Proof.
  induction e using Element_ind2 with
    (Q := fun l => map f (filter c (flat_map iter (map ac l)))
                   = map f (filter c (flat_map iter l))).
  - pose proof (c_append (Elem i t a x y cs)) as Hc.
    pose proof (f_append (Elem i t a x y cs)) as Hf.
    simpl in Hc, Hf |- *. destruct (i =? pid).
    + simpl. simpl in Hc. rewrite Hc.
      rewrite flat_map_app, filter_app, filter_new, app_nil_r.
      destruct (c (Elem i t a x y cs)); simpl; [now rewrite Hf|reflexivity].
    + simpl. simpl in Hc. rewrite Hc.
      destruct (c (Elem i t a x y cs)); simpl; [rewrite Hf; f_equal|]; exact IHe.
  - reflexivity.
  - simpl. rewrite !filter_app, !map_app. now rewrite IHe, IHe0.
Qed.

Lemma append_forest l :
  map f (filter c (flat_map iter (map ac l))) = map f (filter c (flat_map iter l)).
Proof.
  induction l as [|e l IH]; simpl; [reflexivity|].
  rewrite !filter_app, !map_app. now rewrite append_iter, IH.
Qed.

Lemma append_descendants e :
  map f (filter c (descendants (ac e))) = map f (filter c (descendants e)).
Proof.
  destruct e as [i t a x y ch]. unfold descendants. simpl. destruct (i =? pid); simpl.
  - now rewrite flat_map_app, filter_app, filter_new, app_nil_r.
  - apply append_forest.
Qed.

End Observed.

(** The names of the elements a reply appends are not [name]. *)
Local Abbreviation not_named name :=
  (forall x, In x (flat_map iter new) -> (tag x =? w name)%string = false).

Lemma append_texts_of name e :
  not_named name -> texts_of name (ac e) = texts_of name e.
Proof.
  intros Hn. unfold texts_of, findall. rewrite !flat_map_concat_map. f_equal.
  apply (append_descendants (fun x => (tag x =? w name)%string)); trivial.
  - intros x. now rewrite append_tag.
  - intros x. now rewrite append_text.
Qed.

Hypothesis no_t : not_named "t".
Hypothesis no_delText : not_named "delText".
Hypothesis no_p : not_named "p".
Hypothesis no_ins : not_named "ins".
Hypothesis no_del : not_named "del".

Lemma append_collect_text e : _collect_text (ac e) = _collect_text e.
Proof. unfold _collect_text. now rewrite append_texts_of. Qed.

Lemma append_collect_deleted_text e :
  _collect_deleted_text (ac e) = _collect_deleted_text e.
Proof.
  unfold _collect_deleted_text. now rewrite append_texts_of, append_collect_text.
Qed.

Lemma append_tracked_nodes r :
  map label (_collect_tracked_nodes (ac r)) = map label (_collect_tracked_nodes r).
Proof.
  unfold _collect_tracked_nodes. rewrite !map_flat_map, !flat_map_concat_map. f_equal.
  unfold findall at 1 3.
  apply (append_descendants (fun x => (tag x =? w "p")%string)); trivial.
  - intros x. now rewrite append_tag.
  - intros p. rewrite !map_app. unfold findall. f_equal.
    + apply (append_descendants (fun x => (tag x =? w "ins")%string)); trivial.
      * intros x. now rewrite append_tag.
      * apply append_label.
    + apply (append_descendants (fun x => (tag x =? w "del")%string)); trivial.
      * intros x. now rewrite append_tag.
      * apply append_label.
Qed.

Lemma append_expected_events r : expected_events (ac r) = expected_events r.
Proof.
  unfold expected_events. rewrite !flat_map_concat_map. f_equal.
  unfold findall at 1 2.
  apply (append_descendants (fun x => (tag x =? w "p")%string)); trivial.
  - intros x. now rewrite append_tag.
  - intros p. unfold insertions_with_text, deletions_with_text, findall.
    rewrite !filter_filter. f_equal.
    + apply (append_descendants
               (fun x => (tag x =? w "ins")%string && Py.truthy (_collect_text x))
               (fun inserted => ("insertion", _collect_text inserted))).
      * intros x. now rewrite append_tag, append_collect_text.
      * intros x. now rewrite append_collect_text.
      * intros x Hx. now rewrite (no_ins x Hx).
    + apply (append_descendants
               (fun x => (tag x =? w "del")%string && Py.truthy (_collect_deleted_text x))
               (fun deleted => ("deletion", _collect_deleted_text deleted))).
      * intros x. now rewrite append_tag, append_collect_deleted_text.
      * intros x. now rewrite append_collect_deleted_text.
      * intros x Hx. now rewrite (no_del x Hx).
Qed.

Lemma append_paragraph_texts r :
  map fst (CorpusParserService.paragraph_rows (ac r))
  = map fst (CorpusParserService.paragraph_rows r).
Proof.
  unfold CorpusParserService.paragraph_rows.
  rewrite !map_flat_map, !flat_map_concat_map. f_equal.
  unfold findall.
  apply (append_descendants (fun x => (tag x =? w "p")%string)); trivial.
  - intros x. now rewrite append_tag.
  - intros p. cbv zeta. rewrite append_collect_text.
    destruct (Py.truthy _); reflexivity.
Qed.

End Append.

Lemma attach_new_names (n : nat) (cid name : string) :
  Py.mem name ["t"; "delText"; "p"; "ins"; "del"] = true ->
  forall x,
    In x (flat_map iter
            [Elem n (w "commentRangeStart") [(w "id", cid)] None None [];
             Elem (n + 1) (w "commentRangeEnd") [(w "id", cid)] None None [];
             Elem (n + 2) (w "r") [] None None
               [Elem (n + 3) (w "commentReference") [(w "id", cid)] None None []]]) ->
    (tag x =? w name)%string = false.
Proof.
  intros Hm x Hx.
  assert (Hname : In name ["t"; "delText"; "p"; "ins"; "del"]) by now apply mem_In.
  simpl in Hx.
  destruct Hname as [<-|[<-|[<-|[<-|[<-|[]]]]]];
    destruct Hx as [<-|[<-|[<-|[<-|[]]]]]; reflexivity.
Qed.

(** What a reply leaves of the body is what was there. *)
Lemma attach_body d paragraph comment_id :
  let r := root d in
  let r' := root (_attach_comment_reference d paragraph comment_id) in
  texts_of "t" r' = texts_of "t" r /\
  texts_of "delText" r' = texts_of "delText" r /\
  map label (_collect_tracked_nodes r') = map label (_collect_tracked_nodes r) /\
  expected_events r' = expected_events r /\
  map fst (CorpusParserService.paragraph_rows r')
  = map fst (CorpusParserService.paragraph_rows r).
Proof.
  unfold _attach_comment_reference. cbv zeta. cbn [root].
  pose proof (attach_new_names (next_id d) (Py.str_of_Z comment_id)) as Hn.
  split; [|split; [|split; [|split]]].
  - apply append_texts_of, Hn. reflexivity.
  - apply append_texts_of, Hn. reflexivity.
  - apply append_tracked_nodes; apply Hn; reflexivity.
  - apply append_expected_events; apply Hn; reflexivity.
  - apply append_paragraph_texts; apply Hn; reflexivity.
Qed.

Lemma replies_body now_iso replies : forall st,
  let r := root (rs_doc st) in
  let r' := root (rs_doc (fold_left (reply_step now_iso) replies st)) in
  texts_of "t" r' = texts_of "t" r /\
  texts_of "delText" r' = texts_of "delText" r /\
  map label (_collect_tracked_nodes r') = map label (_collect_tracked_nodes r) /\
  expected_events r' = expected_events r /\
  map fst (CorpusParserService.paragraph_rows r')
  = map fst (CorpusParserService.paragraph_rows r).
Proof.
  induction replies as [|reply replies IH]; intros st; cbv zeta; simpl fold_left.
  - repeat split.
  - destruct (IH (reply_step now_iso st reply)) as (H1 & H2 & H3 & H4 & H5).
    rewrite H1, H2, H3, H4, H5. clear.
    destruct reply as [[paragraph txt] parent_comment_ids].
    unfold reply_step. cbn [rs_doc].
    match goal with
    | |- context [_attach_comment_reference ?d ?p ?c] =>
        exact (attach_body d p c)
    end.
Qed.

Lemma finish_body int_of_str now_iso cp b :
  let r := root (doc b) in
  let r' := root (fst (finish int_of_str now_iso cp b)) in
  texts_of "t" r' = texts_of "t" r /\
  texts_of "delText" r' = texts_of "delText" r /\
  map label (_collect_tracked_nodes r') = map label (_collect_tracked_nodes r) /\
  expected_events r' = expected_events r /\
  map fst (CorpusParserService.paragraph_rows r')
  = map fst (CorpusParserService.paragraph_rows r).
Proof.
  unfold finish. destruct (pending_replies b) as [|r0 rs]; [cbv zeta; repeat split|].
  destruct (objects cp) as [|comments_root others]; [cbv zeta; repeat split|].
  cbn [fst]. unfold _apply_replies_as_docx_comments.
  match goal with
  | |- context [fold_left _ ?l ?st] => exact (replies_body now_iso l st)
  end.
Qed.

Lemma extract_raw_text fromstring r parts people :
  CorpusParserService.raw_text (CorpusParserService.extract fromstring r parts people)
  = Py.strip (Py.join (NL ++ NL) (map fst (CorpusParserService.paragraph_rows r))).
Proof.
  unfold CorpusParserService.extract.
  destruct (CorpusParserService.read_parts fromstring _ _ parts ([], [])) as [st parsed].
  match goal with
  | |- context [fold_left (CorpusParserService.anchor_comment ?ex) ?an ?s] =>
      destruct (fold_left (CorpusParserService.anchor_comment ex) an s)
        as [rows_c comments_by_id]
  end.
  reflexivity.
Qed.

(** X3.  The comments of a batch never touch the body.  Whatever replies
    are pending, the document tree that [finish] leaves has the text nodes,
    the deleted text, the tracked nodes (the same objects in the same order,
    so that an index into them still holds) and the paragraph texts of the
    tree the loop left; an extraction of it gives the same [raw_text] and
    the same kinds and texts of tracked events. *)
Theorem replies_leave_the_body :
  forall (fromstring : string -> option Element) (int_of_str : string -> option Z)
         (now_iso : nat -> string) (cp : CommentParts) (b : Batch),
    let r := root (doc b) in
    let r' := root (fst (finish int_of_str now_iso cp b)) in
    texts_of "t" r' = texts_of "t" r /\
    texts_of "delText" r' = texts_of "delText" r /\
    map label (_collect_tracked_nodes r') = map label (_collect_tracked_nodes r) /\
    (forall parts people parts' people',
       CorpusParserService.raw_text (CorpusParserService.extract fromstring r' parts people)
       = CorpusParserService.raw_text
           (CorpusParserService.extract fromstring r parts' people')) /\
    (forall active comments_by_id active' comments_by_id',
       map kind_text (CorpusParserService.tracked_events active comments_by_id r')
       = map kind_text (CorpusParserService.tracked_events active' comments_by_id' r)).
Proof.
  intros fromstring int_of_str now_iso cp b r r'.
  destruct (finish_body int_of_str now_iso cp b) as (H1 & H2 & H3 & H4 & H5).
  fold r r' in H1, H2, H3, H4, H5.
  split; [exact H1|]. split; [exact H2|]. split; [exact H3|]. split.
  - intros parts people parts' people'. rewrite !extract_raw_text. now rewrite H5.
  - intros active comments_by_id active' comments_by_id'.
    rewrite !tracked_events_kinds. exact H4.
Qed.

(* ------------------------------------------------------------------ *)
(** * Paragraph spans and the paragraph of a reply *)

Import DocxRedlineEditorService.

Local Abbreviation span_step :=
  (fun '(spans, cursor) paragraph =>
            let txt := _collect_text paragraph in
            let clean := Py.strip (Py.join " " (Py.split txt)) in
            if negb (Py.truthy clean) then (spans, cursor)
            else
              let start := cursor in
              let stop := (start + Z.of_nat (String.length clean))%Z in
              (spans ++ [(eid paragraph, start, stop)], (stop + 2)%Z)).

Lemma build_eq paragraphs :
  _build_paragraph_spans paragraphs = fst (fold_left span_step paragraphs ([], 0%Z)).
Proof. reflexivity. Qed.

Lemma span_step_eq spans cursor p :
  span_step (spans, cursor) p
  = if Py.truthy (clean_text p)
    then (spans ++ [(eid p, cursor, (cursor + Z.of_nat (String.length (clean_text p)))%Z)],
          (cursor + Z.of_nat (String.length (clean_text p)) + 2)%Z)
    else (spans, cursor).
Proof. unfold clean_text; cbv beta iota zeta; destruct (Py.truthy _); reflexivity. Qed.

Lemma spans_fold paragraphs : forall spans cursor,
  fst (fold_left span_step paragraphs (spans, cursor))
  = spans ++ fst (fold_left span_step paragraphs ([], cursor)).
Proof.
  induction paragraphs as [|p paragraphs IH]; intros spans cursor.
  - simpl; now rewrite app_nil_r.
  - cbn [fold_left].
    rewrite !span_step_eq.
    destruct (Py.truthy (clean_text p)).
    + rewrite (IH (spans ++ _)). rewrite (IH ([] ++ _)).
      cbn [app]. rewrite <- app_assoc. cbn [app]. reflexivity.
    + apply IH.
Qed.

Lemma truthy_length s : Py.truthy s = true -> (0 < Z.of_nat (String.length s))%Z.
Proof. destruct s; [discriminate|simpl; lia]. Qed.

Lemma spans_from paragraphs : forall cursor,
  let spans := fst (fold_left span_step paragraphs ([], cursor)) in
  let with_text := filter (fun p => Py.truthy (clean_text p)) paragraphs in
  map span_paragraph spans = map eid with_text /\
  map (fun span => (span_stop span - span_start span)%Z) spans
  = map (fun p => Z.of_nat (String.length (clean_text p))) with_text /\
  chained cursor spans.
Proof.
  induction paragraphs as [|p paragraphs IH]; intros cursor; cbv zeta.
  - cbn [fold_left filter map fst chained]. repeat split.
  - cbn [fold_left filter]. rewrite span_step_eq.
    destruct (Py.truthy (clean_text p)) eqn:Et.
    + rewrite spans_fold. cbn [app map chained].
      pose proof (truthy_length _ Et) as Hlen.
      destruct (IH (cursor + Z.of_nat (String.length (clean_text p)) + 2)%Z)
        as (H1 & H2 & H3).
      split; [f_equal; exact H1|]. split.
      * f_equal; [|exact H2]. unfold span_stop, span_start. cbn [fst snd]. lia.
      * unfold span_stop, span_start. cbn [fst snd].
        split; [reflexivity|]. split; [lia|exact H3].
    + apply IH.
Qed.

Lemma chained_after cursor spans :
  chained cursor spans ->
  forall span, In span spans -> (cursor <= span_start span < span_stop span)%Z.
Proof.
  revert cursor. induction spans as [|s spans IH]; intros cursor H span; simpl; [intros []|].
  destruct H as (Hs & Hlt & Hrest). intros [<-|Hin]; [lia|].
  specialize (IH _ Hrest span Hin). lia.
Qed.

Lemma chained_apart cursor spans :
  chained cursor spans ->
  forall i j a b,
    i < j -> nth_error spans i = Some a -> nth_error spans j = Some b ->
    (span_stop a + 2 <= span_start b)%Z.
Proof.
  revert cursor. induction spans as [|s spans IH]; intros cursor H i j a b Hij Ha Hb.
  - destruct i; discriminate.
  - destruct H as (Hs & Hlt & Hrest). destruct j as [|j]; [lia|]. simpl in Hb.
    destruct i as [|i].
    + simpl in Ha. injection Ha as <-.
      apply nth_error_In in Hb. pose proof (chained_after _ _ Hrest b Hb). lia.
    + simpl in Ha. apply (IH _ Hrest i j a b); trivial. lia.
Qed.

(** X6.  The spans of the paragraphs are laid out as the paragraphs of
    [raw_text] are: one span for each paragraph that has text, in document
    order, as long as the cleaned text of the paragraph, the first at 0 and
    each next one two characters after the end of the one before.  So the
    spans never overlap, and a position lies in at most one of them. *)
Theorem paragraph_spans_layout :
  forall (paragraphs : list Element),
    let spans := _build_paragraph_spans paragraphs in
    let with_text := filter (fun p => Py.truthy (clean_text p)) paragraphs in
    map span_paragraph spans = map eid with_text /\
    map (fun span => (span_stop span - span_start span)%Z) spans
    = map (fun p => Z.of_nat (String.length (clean_text p))) with_text /\
    chained 0 spans /\
    (forall i j a b,
       i < j -> nth_error spans i = Some a -> nth_error spans j = Some b ->
       (span_stop a + 2 <= span_start b)%Z) /\
    (forall pos i j a b,
       nth_error spans i = Some a -> nth_error spans j = Some b ->
       within pos a -> within pos b -> i = j).
Proof.
  intros paragraphs spans with_text.
  destruct (spans_from paragraphs 0%Z) as (H1 & H2 & H3).
  assert (H3' : chained 0 spans) by exact H3.
  split; [exact H1|]. split; [exact H2|]. split; [exact H3'|]. split.
  - exact (chained_apart _ _ H3').
  - intros pos i j a b Ha Hb Hwa Hwb. unfold within in *.
    destruct (Nat.lt_trichotomy i j) as [Hlt|[Heq|Hgt]]; [|exact Heq|].
    + pose proof (chained_apart _ _ H3' i j a b Hlt Ha Hb). lia.
    + pose proof (chained_apart _ _ H3' j i b a Hgt Hb Ha). lia.
Qed.

(** ** The paragraph of a reply, from a position *)

Section Position.

Variable pos : Z.

Local Abbreviation inv := (position_invariant pos).

Lemma position_step_inv seen acc span :
  inv seen acc -> inv (seen ++ [span]) (position_step pos acc span).
Proof.
  destruct acc as [[containing best_by_pos] best_pos_distance].
  destruct span as [[paragraph start] stop].
  unfold position_invariant. intros [Hc Hn]. unfold position_step.
  destruct ((start <=? pos)%Z && (pos <=? stop)%Z) eqn:Ein.
  - apply andb_true_iff in Ein. destruct Ein as [H1 H2].
    apply Z.leb_le in H1. apply Z.leb_le in H2.
    split; [|discriminate].
    intros p [= <-]. exists (paragraph, start, stop).
    split; [apply in_or_app; right; now left|].
    split; [unfold within, span_start, span_stop; simpl; lia|reflexivity].
  - assert (Hout : ~ within pos (paragraph, start, stop)).
    { unfold within, span_start, span_stop. simpl. intros [H1 H2].
      apply Z.leb_le in H1. apply Z.leb_le in H2. rewrite H1, H2 in Ein. discriminate. }
    change (Z.min (Z.abs (pos - start)) (Z.abs (pos - stop)))
      with (distance pos (paragraph, start, stop)).
    assert (Hkeep : forall p, containing = Some p ->
              exists span, In span (seen ++ [(paragraph, start, stop)]) /\
                           within pos span /\ span_paragraph span = p).
    { intros p Hp. destruct (Hc p Hp) as (s & Hs & Hw & Hpar).
      exists s. split; [apply in_or_app; now left|]. now split. }
    destruct containing as [c|].
    + destruct best_pos_distance as [bd|];
        [destruct (distance pos (paragraph, start, stop) <? bd)%Z|];
        (split; [exact Hkeep|discriminate]).
    + specialize (Hn eq_refl). destruct Hn as [Hnone Hbest].
      assert (Hnone' : forall s, In s (seen ++ [(paragraph, start, stop)]) ->
                                 ~ within pos s).
      { intros s Hs. apply in_app_or in Hs. destruct Hs as [Hs|[<-|[]]]; auto. }
      destruct seen as [|s0 seen'].
      * destruct Hbest as [-> ->]. split; [exact Hkeep|]. intros _.
        split; [exact Hnone'|]. simpl app.
        exists (paragraph, start, stop). split; [now left|].
        split; [reflexivity|]. split; [reflexivity|].
        intros other [<-|[]]. lia.
      * destruct Hbest as (s & Hs & -> & -> & Hmin).
        destruct (Z.ltb_spec (distance pos (paragraph, start, stop)) (distance pos s))
          as [Hlt|Hge].
        -- split; [exact Hkeep|]. intros _. split; [exact Hnone'|].
           simpl app. exists (paragraph, start, stop).
           split; [change (In (paragraph, start, stop)
                             ((s0 :: seen') ++ [(paragraph, start, stop)]));
                   apply in_or_app; right; now left|].
           split; [reflexivity|]. split; [reflexivity|].
           intros other Ho.
           change (In other ((s0 :: seen') ++ [(paragraph, start, stop)])) in Ho.
           apply in_app_or in Ho. destruct Ho as [Ho|[<-|[]]]; [|lia].
           specialize (Hmin other Ho). lia.
        -- split; [exact Hkeep|]. intros _. split; [exact Hnone'|].
           simpl app. exists s.
           split; [change (In s ((s0 :: seen') ++ [(paragraph, start, stop)]));
                   apply in_or_app; now left|].
           split; [reflexivity|]. split; [reflexivity|].
           intros other Ho.
           change (In other ((s0 :: seen') ++ [(paragraph, start, stop)])) in Ho.
           apply in_app_or in Ho. destruct Ho as [Ho|[<-|[]]]; [|lia].
           exact (Hmin other Ho).
Qed.

Lemma position_fold_inv rest : forall seen acc,
  inv seen acc -> inv (seen ++ rest) (fold_left (position_step pos) rest acc).
Proof.
  induction rest as [|span rest IH]; intros seen acc H.
  - rewrite app_nil_r. exact H.
  - cbn [fold_left].
    replace (seen ++ span :: rest) with ((seen ++ [span]) ++ rest)
      by (rewrite <- app_assoc; reflexivity).
    apply IH. apply position_step_inv. exact H.
Qed.

Lemma position_scan spans :
  inv spans (fold_left (position_step pos) spans (None, None, None)).
Proof.
  apply (position_fold_inv spans [] (None, None, None)).
  unfold position_invariant.
  split; [discriminate|]. intros _. split; [intros span []|]. now split.
Qed.

End Position.

(** X7.  A reply that comes with a position is placed by the position alone.
    The paragraph found is one whose span contains the position when there
    is such a span; otherwise it is the paragraph of a nearest span, provided
    that span lies within 200 characters; otherwise there is none.  The
    source text, the context text and the index are not consulted. *)
Theorem reply_paragraph_by_position :
  forall (ratio : string -> string -> Q) (d : Document) (all_paragraphs : list nat)
         (paragraph_spans : list (nat * Z * Z)) (pos : Z)
         (source_text source_context_text : string) (source_index : option Z),
    let found :=
      _resolve_reply_paragraph ratio d all_paragraphs paragraph_spans (Some pos)
        source_text source_context_text source_index in
    (forall p, found = Some p ->
       exists span,
         In span paragraph_spans /\ span_paragraph span = p /\
         (within pos span
          \/ ((forall other, In other paragraph_spans -> ~ within pos other) /\
              (distance pos span <= 200)%Z /\
              forall other, In other paragraph_spans ->
                            (distance pos span <= distance pos other)%Z))) /\
    ((exists span, In span paragraph_spans /\ within pos span) ->
     exists span,
       In span paragraph_spans /\ within pos span /\ found = Some (span_paragraph span)) /\
    (found = None <->
     forall span, In span paragraph_spans ->
                  ~ within pos span /\ (200 < distance pos span)%Z).
Proof.
  intros ratio d all_paragraphs paragraph_spans pos source_text source_context_text
         source_index found.
  subst found. unfold _resolve_reply_paragraph. cbv beta iota zeta.
  destruct paragraph_spans as [|s0 rest].
  { split; [discriminate|]. split; [intros (span & [] & _)|].
    split; [intros _ span []|reflexivity]. }
  pose proof (position_scan pos (s0 :: rest)) as Hinv.
  destruct (fold_left (position_step pos) (s0 :: rest) (None, None, None))
    as [[containing best_by_pos] best_pos_distance].
  unfold position_invariant in Hinv. destruct Hinv as [Hc Hn].
  destruct containing as [c|].
  - destruct (Hc c eq_refl) as (span & Hs & Hw & Hp).
    split; [|split; [|split]].
    + intros p [= <-]. exists span. split; [exact Hs|]. split; [exact Hp|now left].
    + intros _. exists span. split; [exact Hs|]. split; [exact Hw|now rewrite Hp].
    + discriminate.
    + intros H. destruct (H span Hs) as [K _]. contradiction.
  - destruct (Hn eq_refl) as (Hnone & span & Hs & -> & -> & Hmin).
    destruct (Z.leb_spec (distance pos span) 200) as [Hle|Hgt].
    + split; [|split; [|split]].
      * intros p [= <-]. exists span. split; [exact Hs|]. split; [reflexivity|].
        right. split; [exact Hnone|]. split; [exact Hle|exact Hmin].
      * intros (other & Ho & Hw). destruct (Hnone other Ho Hw).
      * discriminate.
      * intros H. destruct (H span Hs) as [_ K]. lia.
    + split; [|split; [|split]].
      * discriminate.
      * intros (other & Ho & Hw). destruct (Hnone other Ho Hw).
      * intros _ other Ho. split; [exact (Hnone other Ho)|].
        specialize (Hmin other Ho). lia.
      * reflexivity.
Qed.

(* ------------------------------------------------------------------ *)
(** * Further properties of the Extractor *)

Import CorpusParserService.

(** ** Where a text is found *)

Lemma substring_skip c r i n : substring (S i) n (String c r) = substring i n r.
Proof. reflexivity. Qed.

Lemma find_at_spec sub : forall s start k i,
  Py.find_at sub s start k = Some i ->
  start <= i /\ k <= i /\ substring (i - k) (String.length sub) s = sub.
Proof.
  induction s as [|c r IH]; intros start k i; cbn [Py.find_at].
  - destruct ((start <=? k) && String.prefix sub "") eqn:E; [|discriminate].
    intros [= <-]. apply andb_true_iff in E. destruct E as [Hle Hp].
    apply Nat.leb_le in Hle. apply String.prefix_correct in Hp.
    rewrite Nat.sub_diag. repeat split; trivial.
  - destruct ((start <=? k) && String.prefix sub (String c r)) eqn:E.
    + intros [= <-]. apply andb_true_iff in E. destruct E as [Hle Hp].
      apply Nat.leb_le in Hle. apply String.prefix_correct in Hp.
      rewrite Nat.sub_diag. repeat split; trivial.
    + intros H. destruct (IH _ _ _ H) as (H1 & H2 & H3).
      split; [exact H1|]. split; [lia|].
      replace (i - k) with (S (i - S k)) by lia. rewrite substring_skip. exact H3.
Qed.

(** [s.find(sub, start)] answers an index at or after [start] where [sub]
    occurs in [s]. *)
Lemma find_spec s sub start i :
  Py.find s sub start = Some i ->
  start <= i /\ substring i (String.length sub) s = sub.
Proof.
  unfold Py.find. intros H. destruct (find_at_spec _ _ _ _ _ H) as (H1 & _ & H3).
  rewrite Nat.sub_0_r in H3. now split.
Qed.

Section Annotated.

Context {R : Type} (pos : R -> option nat) (key : R -> string)
        (setpos : R -> nat -> R).

Lemma annotate_step_in lowered acc event e :
  In e (fst (annotate_step pos key setpos lowered acc event)) ->
  In e (fst acc)
  \/ e = event
  \/ exists i, e = setpos event i /\ pos event = None /\
               Py.strip (key event) <> "" /\
               substring i (String.length (Py.lower (Py.strip (key event)))) lowered
               = Py.lower (Py.strip (key event)).
Proof.
  unfold annotate_step. destruct acc as [done cursor]. cbn [fst].
  destruct (pos event) eqn:Ep.
  { cbn [fst]. intros H. apply in_app_or in H. destruct H as [H|[<-|[]]]; auto. }
  destruct (Py.truthy (Py.strip (key event))) eqn:Et; cbn [negb].
  2:{ cbn [fst]. intros H. apply in_app_or in H. destruct H as [H|[<-|[]]]; auto. }
  assert (Hne : Py.strip (key event) <> "").
  { intros K. rewrite K in Et. discriminate. }
  destruct (Py.find lowered (Py.lower (Py.strip (key event))) cursor) as [i|] eqn:E1.
  - cbn [fst]. intros H. apply in_app_or in H. destruct H as [H|[<-|[]]]; auto.
    right. right. exists i. apply find_spec in E1. destruct E1 as [_ E1].
    repeat split; trivial.
  - destruct (Py.find lowered (Py.lower (Py.strip (key event))) 0) as [i|] eqn:E2.
    + cbn [fst]. intros H. apply in_app_or in H. destruct H as [H|[<-|[]]]; auto.
      right. right. exists i. apply find_spec in E2. destruct E2 as [_ E2].
      repeat split; trivial.
    + cbn [fst]. intros H. apply in_app_or in H. destruct H as [H|[<-|[]]]; auto.
Qed.

Lemma annotate_fold_in lowered events : forall acc e,
  In e (fst (fold_left (annotate_step pos key setpos lowered) events acc)) ->
  In e (fst acc)
  \/ exists e0,
       In e0 events /\
       (e = e0
        \/ exists i, e = setpos e0 i /\ pos e0 = None /\
                     Py.strip (key e0) <> "" /\
                     substring i (String.length (Py.lower (Py.strip (key e0)))) lowered
                     = Py.lower (Py.strip (key e0))).
Proof.
  induction events as [|event events IH]; intros acc e; cbn [fold_left].
  - now left.
  - intros H. destruct (IH _ _ H) as [H1|(e0 & Hin & He0)].
    + destruct (annotate_step_in _ _ _ _ H1) as [K|[K|K]].
      * now left.
      * right. exists event. split; [now left|now left].
      * right. exists event. split; [now left|now right].
    + right. exists e0. split; [now right|exact He0].
Qed.

Lemma annotate_in raw events e :
  In e (_annotate_event_positions pos key setpos raw events) ->
  exists e0,
    In e0 events /\
    (e = e0
     \/ exists i, e = setpos e0 i /\ pos e0 = None /\
                  Py.strip (key e0) <> "" /\
                  substring i (String.length (Py.lower (Py.strip (key e0))))
                            (Py.lower raw)
                  = Py.lower (Py.strip (key e0))).
Proof.
  unfold _annotate_event_positions.
  destruct (negb (Py.truthy raw)); [intros H; exists e; split; [exact H|now left]|].
  destruct events as [|event events]; [intros []|].
  intros H. apply annotate_fold_in in H. destruct H as [[]|H]. exact H.
Qed.

End Annotated.

(** ** The events before their positions are written *)

Lemma unique_fold l : forall out,
  NoDup out ->
  NoDup (fold_left (fun out v => if Py.mem v out then out else out ++ [v]) l out).
Proof.
  induction l as [|v l IH]; intros out H; cbn [fold_left]; [exact H|].
  apply IH. destruct (Py.mem v out) eqn:E; [exact H|].
  assert (Hn : ~ In v out).
  { intros K. apply mem_In in K. rewrite K in E. discriminate. }
  clear E IH. induction out as [|x out IHo]; simpl.
  - constructor; [intros []|constructor].
  - inversion H as [|? ? Hx Hout]; subst. constructor.
    + intros K. apply in_app_or in K. destruct K as [K|[K|[]]]; [contradiction|].
      apply Hn. now left.
    + apply IHo; trivial. intros K. apply Hn. now right.
Qed.

Lemma unique_NoDup l : NoDup (Py.unique l).
Proof. unfold Py.unique. apply unique_fold. constructor. Qed.

Lemma placeholder_text ids : placeholder ids <> "".
Proof. unfold placeholder. discriminate. Qed.

Lemma linked_comment_text_spec comments_by_id comment_ids :
  (comment_ids <> [] ->
   exists t, linked_comment_text comments_by_id comment_ids = Some t /\ t <> "") /\
  (comment_ids = [] -> linked_comment_text comments_by_id comment_ids = None).
Proof.
  unfold linked_comment_text. split.
  - intros Hne. destruct comment_ids as [|c0 cs]; [contradiction|].
    destruct (filter Py.truthy (map (lookup_text comments_by_id) (c0 :: cs))) as [|l0 ls].
    + cbn [Py.or_empty]. change (Py.truthy "") with false. cbn [negb].
      eexists. split; [reflexivity|apply placeholder_text].
    + cbn [Py.or_empty].
      destruct (Py.truthy (Py.strip (Py.join " " (l0 :: ls)))) eqn:E; cbn [negb].
      * eexists. split; [reflexivity|]. intros K. rewrite K in E. discriminate.
      * eexists. split; [reflexivity|apply placeholder_text].
  - intros ->. reflexivity.
Qed.

(** What holds of an event when it is made. *)
Local Abbreviation well_linked e :=
  (ev_position e = None /\
   NoDup (ev_comment_ids e) /\
   (ev_comment_ids e <> [] -> exists t, ev_comment_text e = Some t /\ t <> "") /\
   (ev_comment_ids e = [] -> ev_comment_text e = None)).

Lemma tracked_event_linked kind txt node active comments_by_id paragraph_text ids :
  well_linked (tracked_event kind txt node active comments_by_id paragraph_text ids).
Proof.
  unfold tracked_event. cbn [ev_position ev_comment_ids ev_comment_text].
  split; [reflexivity|]. split; [apply unique_NoDup|].
  apply linked_comment_text_spec.
Qed.

Lemma tracked_events_linked active comments_by_id r e :
  In e (tracked_events active comments_by_id r) -> well_linked e.
Proof.
  unfold tracked_events, paragraph_events. intros H.
  apply in_flat_map in H. destruct H as (p & _ & H).
  apply in_app_or in H. destruct H as [H|H];
    apply in_flat_map in H; destruct H as (node & _ & H);
    (destruct (Py.truthy _); [|destruct H]);
    destruct H as [<-|[]]; apply tracked_event_linked.
Qed.

Lemma range_events_linked comments_by_id ranges e :
  In e (range_events comments_by_id ranges) -> well_linked e.
Proof.
  unfold range_events. intros H. apply in_flat_map in H. destruct H as (item & _ & H).
  destruct (negb _); [destruct H|]. destruct H as [<-|[]].
  cbn [ev_position ev_comment_ids ev_comment_text].
  split; [reflexivity|]. split; [constructor; [intros []|constructor]|]. split.
  - intros _. eexists. split; [reflexivity|]. unfold Py.sor.
    destruct (Py.truthy (Py.strip (lookup_text comments_by_id (fst item)))) eqn:E.
    + intros K. rewrite K in E. discriminate.
    + apply placeholder_text.
  - discriminate.
Qed.

Lemma extract_events_made fromstring r parts people :
  exists events,
    redline_events (extract fromstring r parts people)
    = _annotate_event_positions ev_position ev_text set_event_position
        (raw_text (extract fromstring r parts people)) events /\
    forall e, In e events -> well_linked e.
Proof.
  unfold extract.
  destruct (read_parts fromstring _ _ parts ([], [])) as [st parsed].
  match goal with
  | |- context [fold_left (anchor_comment ?ex) ?an ?s] =>
      destruct (fold_left (anchor_comment ex) an s) as [rows_c comments_by_id]
  end.
  cbn [redline_events raw_text].
  eexists. split; [reflexivity|].
  intros e He.
  destruct (tracked_events (_collect_active_comment_ids_by_element r) comments_by_id r)
    as [|t0 ts] eqn:Et.
  - exact (range_events_linked _ _ _ He).
  - rewrite <- Et in He. exact (tracked_events_linked _ _ _ _ He).
Qed.

(** X8.  A position written on an event is a place where its text stands:
    the trimmed text of the event is not empty, and lowered it reads in the
    lowered [raw_text] from that index on. *)
Theorem event_position_points_at_text :
  forall (fromstring : string -> option Element) (r : Element)
         (comments_xml_parts : list string) (people_xml : option string)
         (e : RedlineEvent) (i : nat),
    let document := extract fromstring r comments_xml_parts people_xml in
    let needle := Py.lower (Py.strip (ev_text e)) in
    In e (redline_events document) ->
    ev_position e = Some i ->
    Py.strip (ev_text e) <> "" /\
    substring i (String.length needle) (Py.lower (raw_text document)) = needle.
Proof.
  intros fromstring r parts people e i document needle Hin Hpos.
  subst document needle.
  destruct (extract_events_made fromstring r parts people) as (events & Heq & Hmade).
  rewrite Heq in Hin. apply annotate_in in Hin.
  destruct Hin as (e0 & Hin0 & [->|(j & -> & _ & Hne & Hsub)]).
  - destruct (Hmade e0 Hin0) as (Hnone & _). rewrite Hnone in Hpos. discriminate.
  - cbn [ev_position set_event_position] in Hpos. injection Hpos as <-.
    cbn [ev_text set_event_position]. split; [exact Hne|exact Hsub].
Qed.

(** X9.  The comment ids of an event have no duplicates, and an event has a
    comment text exactly when it has comment ids; that text is never
    empty. *)
Theorem event_comment_links :
  forall (fromstring : string -> option Element) (r : Element)
         (comments_xml_parts : list string) (people_xml : option string)
         (e : RedlineEvent),
    In e (redline_events (extract fromstring r comments_xml_parts people_xml)) ->
    NoDup (ev_comment_ids e) /\
    (ev_comment_ids e <> [] -> exists t, ev_comment_text e = Some t /\ t <> "") /\
    (ev_comment_ids e = [] -> ev_comment_text e = None).
Proof.
  intros fromstring r parts people e Hin.
  destruct (extract_events_made fromstring r parts people) as (events & Heq & Hmade).
  rewrite Heq in Hin. apply annotate_in in Hin.
  destruct Hin as (e0 & Hin0 & [->|(j & -> & _)]);
    destruct (Hmade e0 Hin0) as (_ & H1 & H2 & H3); now repeat split.
Qed.

(** ** The events and the tracked nodes of the Mutator *)

Lemma findall_tag name e x : In x (findall name e) -> tag x = w name.
Proof.
  unfold findall. intros H. apply filter_In in H. destruct H as [_ H].
  now apply String.eqb_eq in H.
Qed.

Lemma expected_tracked r :
  expected_events r
  = map node_event
        (filter reported (DocxRedlineEditorService._collect_tracked_nodes r)).
Proof.
  unfold expected_events, DocxRedlineEditorService._collect_tracked_nodes.
  induction (findall "p" r) as [|p ps IH]; [reflexivity|].
  cbn [flat_map]. rewrite IH, !filter_app, !map_app. f_equal. f_equal.
  - unfold insertions_with_text.
    rewrite (filter_ext_in reported (fun inserted => Py.truthy (_collect_text inserted))).
    + apply map_ext_in. intros x Hx. apply filter_In in Hx. destruct Hx as [Hx _].
      unfold node_event. rewrite (findall_tag _ _ _ Hx). reflexivity.
    + intros x Hx. unfold reported, node_event. rewrite (findall_tag _ _ _ Hx). reflexivity.
  - unfold deletions_with_text.
    rewrite (filter_ext_in reported
               (fun deleted => Py.truthy (_collect_deleted_text deleted))).
    + apply map_ext_in. intros x Hx. apply filter_In in Hx. destruct Hx as [Hx _].
      unfold node_event. rewrite (findall_tag _ _ _ Hx). reflexivity.
    + intros x Hx. unfold reported, node_event. rewrite (findall_tag _ _ _ Hx). reflexivity.
Qed.

(** X10.  The tracked events of an extraction are the tracked nodes of the
    Mutator that have text, in the order of the Mutator: the event at a place
    has the kind and the text of the node at that place.  When every tracked
    node has text, the index of an event is the index of its node. *)
Theorem events_follow_tracked_nodes :
  forall (fromstring : string -> option Element) (r : Element)
         (comments_xml_parts : list string) (people_xml : option string),
    let events := redline_events (extract fromstring r comments_xml_parts people_xml) in
    let nodes := DocxRedlineEditorService._collect_tracked_nodes r in
    filter reported nodes <> [] ->
    map kind_text events = map node_event (filter reported nodes) /\
    ((forall node, In node nodes -> reported node = true) ->
     length events = length nodes /\
     forall k node,
       nth_error nodes k = Some node ->
       option_map kind_text (nth_error events k) = Some (node_event node)).
Proof.
  intros fromstring r parts people events nodes Hne.
  assert (Hkinds : map kind_text events = map node_event (filter reported nodes)).
  { subst events nodes. destruct (extract_events fromstring r parts people)
      as (active & comments_by_id & ->).
    pose proof (tracked_events_kinds active comments_by_id r) as Hk.
    rewrite expected_tracked in Hk.
    destruct (tracked_events active comments_by_id r) as [|t0 ts].
    - exfalso. apply Hne. symmetry in Hk. apply map_eq_nil in Hk. exact Hk.
    - exact Hk. }
  split; [exact Hkinds|]. intros Hall.
  rewrite (filter_all reported nodes Hall) in Hkinds. split.
  - rewrite <- (length_map kind_text events), Hkinds. apply length_map.
  - intros k node Hk. rewrite <- nth_error_map, Hkinds, nth_error_map, Hk. reflexivity.
Qed.

Lemma event_position_points_at_text_witness :
  exists e,
    In e (redline_events
            (extract Example.fromstring Example.contract
                     [Lib.word_xml Example.comments_part] None)) /\
    ev_position e = Some 15 /\
    substring 15 (String.length (Py.lower (Py.strip (ev_text e))))
      (Py.lower (raw_text (extract Example.fromstring Example.contract
                                   [Lib.word_xml Example.comments_part] None)))
    = Py.lower (Py.strip (ev_text e)).
Proof.
  pose (e := List.hd (set_event_position
                        (tracked_event "" "" DocxRedlineEditorService.empty_element
                                       [] [] "" []) 0)
                     (redline_events
                        (extract Example.fromstring Example.contract
                                 [Lib.word_xml Example.comments_part] None))).
  exists e.
  assert (Hin : In e (redline_events
                        (extract Example.fromstring Example.contract
                                 [Lib.word_xml Example.comments_part] None)))
    by (vm_compute; left; reflexivity).
  assert (Hpos : ev_position e = Some 15) by (vm_compute; reflexivity).
  split; [exact Hin|]. split; [exact Hpos|].
  exact (proj2 (event_position_points_at_text Example.fromstring Example.contract
                  [Lib.word_xml Example.comments_part] None e 15 Hin Hpos)).
Defined.

Lemma event_comment_links_witness :
  exists e,
    In e (redline_events
            (extract Example.fromstring Example.deleted_paragraph
                     [Lib.word_xml Example.comments_part] None)) /\
    ev_comment_ids e = ["2"] /\
    NoDup (ev_comment_ids e) /\
    exists t, ev_comment_text e = Some t /\ t <> "".
Proof.
  pose (e := List.hd (set_event_position
                        (tracked_event "" "" DocxRedlineEditorService.empty_element
                                       [] [] "" []) 0)
                     (redline_events
                        (extract Example.fromstring Example.deleted_paragraph
                                 [Lib.word_xml Example.comments_part] None))).
  exists e.
  assert (Hin : In e (redline_events
                        (extract Example.fromstring Example.deleted_paragraph
                                 [Lib.word_xml Example.comments_part] None)))
    by (vm_compute; left; reflexivity).
  assert (Hids : ev_comment_ids e = ["2"]) by (vm_compute; reflexivity).
  split; [exact Hin|]. split; [exact Hids|].
  destruct (event_comment_links Example.fromstring Example.deleted_paragraph
              [Lib.word_xml Example.comments_part] None e Hin) as (Hnd & Hsome & _).
  split; [exact Hnd|]. apply Hsome. rewrite Hids. discriminate.
Defined.

Lemma events_follow_tracked_nodes_witness :
  map kind_text
      (redline_events
         (extract Example.fromstring Example.contract
                  [Lib.word_xml Example.comments_part] None))
  = map node_event
        (filter reported (DocxRedlineEditorService._collect_tracked_nodes Example.contract)).
Proof.
  apply (proj1 (events_follow_tracked_nodes Example.fromstring Example.contract
                  [Lib.word_xml Example.comments_part] None
                  ltac:(vm_compute; discriminate))).
Defined.

(* ------------------------------------------------------------------ *)
(** * The comments of an extraction *)

Import CorpusParserService.

(** ** Trimming *)

Lemma lstrip_head l c r : Py.lstrip_l l = c :: r -> Py.isspace c = false.
Proof.
  induction l as [|a l IH]; cbn [Py.lstrip_l]; [discriminate|].
  destruct (Py.isspace a) eqn:E; [exact IH|]. intros [= <- _]. exact E.
Qed.

Lemma lstrip_fixed l c r : l = c :: r -> Py.isspace c = false -> Py.lstrip_l l = l.
Proof. intros -> H. cbn [Py.lstrip_l]. now rewrite H. Qed.

Lemma lstrip_idem l : Py.lstrip_l (Py.lstrip_l l) = Py.lstrip_l l.
Proof.
  destruct (Py.lstrip_l l) as [|c r] eqn:E; [reflexivity|].
  apply (lstrip_fixed _ c r eq_refl). exact (lstrip_head _ _ _ E).
Qed.

Lemma lstrip_suffix l : exists spaces, l = spaces ++ Py.lstrip_l l.
Proof.
  induction l as [|a l IH]; cbn [Py.lstrip_l]; [now exists []|].
  destruct (Py.isspace a); [|now exists []].
  destruct IH as [spaces IH]. exists (a :: spaces). simpl. now rewrite <- IH.
Qed.

Lemma strip_l_idem l : Py.strip_l (Py.strip_l l) = Py.strip_l l.
Proof.
  unfold Py.strip_l.
  set (A := Py.lstrip_l l). set (B := Py.lstrip_l (rev A)).
  assert (HB : Py.lstrip_l B = B) by apply lstrip_idem.
  assert (HA : Py.lstrip_l (rev B) = rev B).
  { destruct (rev B) as [|c r] eqn:E; [reflexivity|].
    apply (lstrip_fixed _ c r eq_refl).
    destruct (lstrip_suffix (rev A)) as [spaces Hs]. fold B in Hs.
    apply (f_equal (@rev ascii)) in Hs. rewrite rev_involutive, rev_app_distr, E in Hs.
    subst A. simpl in Hs. exact (lstrip_head _ _ _ Hs). }
  rewrite HA, rev_involutive, HB. reflexivity.
Qed.

(** Trimming what is trimmed changes nothing. *)
Lemma strip_idem s : Py.strip (Py.strip s) = Py.strip s.
Proof.
  unfold Py.strip. rewrite list_ascii_of_string_of_list_ascii. now rewrite strip_l_idem.
Qed.

(** ** The anchors *)

Lemma anchor_ids_keep cids (preview : string) (start : nat) : forall a cid,
  Py.dict_mem String.eqb a cid = true ->
  Py.dict_mem String.eqb
    (fold_left (fun a cid =>
                  if Py.dict_mem String.eqb a cid then a
                  else Py.dict_set String.eqb a cid (preview, start))
               cids a) cid = true.
Proof.
  induction cids as [|c cids IH]; intros a cid H; cbn [fold_left]; [exact H|].
  apply IH. destruct (Py.dict_mem String.eqb a c); [exact H|].
  rewrite dict_mem_set, H. apply orb_true_r.
Qed.

Lemma anchor_ids_add cids (preview : string) (start : nat) : forall a cid,
  In cid cids ->
  Py.dict_mem String.eqb
    (fold_left (fun a cid =>
                  if Py.dict_mem String.eqb a cid then a
                  else Py.dict_set String.eqb a cid (preview, start))
               cids a) cid = true.
Proof.
  induction cids as [|c cids IH]; intros a cid; [intros []|].
  intros [->|Hin]; cbn [fold_left].
  - apply anchor_ids_keep. destruct (Py.dict_mem String.eqb a cid) eqn:E; [exact E|].
    rewrite dict_mem_set, String.eqb_refl. reflexivity.
  - now apply IH.
Qed.

Lemma anchor_rows_keep rows : forall acc cid,
  Py.dict_mem String.eqb (fst acc) cid = true ->
  Py.dict_mem String.eqb (fst (fold_left anchor_row rows acc)) cid = true.
Proof.
  induction rows as [|row rows IH]; intros acc cid H; cbn [fold_left]; [exact H|].
  apply IH. destruct acc as [anchors cursor]. unfold anchor_row. cbn [fst].
  now apply anchor_ids_keep.
Qed.

Lemma anchor_rows_add rows : forall acc row cid,
  In row rows -> In cid (snd row) ->
  Py.dict_mem String.eqb (fst (fold_left anchor_row rows acc)) cid = true.
Proof.
  induction rows as [|row0 rows IH]; intros acc row cid; [intros []|].
  intros [->|Hin] Hcid; cbn [fold_left].
  - apply anchor_rows_keep. destruct acc as [anchors cursor]. unfold anchor_row. cbn [fst].
    now apply anchor_ids_add.
  - now apply (IH _ row).
Qed.

(** Every comment id of a paragraph with text has an anchor. *)
Lemma anchor_of_paragraph r paragraph cid :
  In paragraph (findall "p" r) ->
  Py.truthy (Py.strip (_collect_text paragraph)) = true ->
  In cid (_collect_comment_ids paragraph) ->
  exists anchor, In (cid, anchor) (comment_anchor_by_id (paragraph_rows r)).
Proof.
  intros Hp Ht Hc.
  assert (Hrow : In (Py.strip (_collect_text paragraph), _collect_comment_ids paragraph)
                    (paragraph_rows r)).
  { unfold paragraph_rows. apply in_flat_map. exists paragraph. split; [exact Hp|].
    cbv zeta. rewrite Ht. now left. }
  pose proof (anchor_rows_add (paragraph_rows r) ([], 0) _ cid Hrow Hc) as Hm.
  apply dict_mem_get in Hm. destruct Hm as [anchor Hg].
  apply dict_get_In in Hg. destruct Hg as (k & Hin & Hk).
  apply String.eqb_eq in Hk. subst k. now exists anchor.
Qed.

(** ** The rows made from the anchors *)

Lemma existing_ids_row rows clean :
  Py.mem clean (existing_ids rows) = true ->
  exists row i, In row rows /\ cm_id row = Some i /\ Py.strip i = clean.
Proof.
  intros H. apply mem_In in H. unfold existing_ids in H.
  apply in_flat_map in H. destruct H as (row & Hrow & H).
  destruct (cm_id row) as [i|] eqn:Ei; [|destruct H].
  destruct (Py.truthy (Py.strip i)); [|destruct H].
  destruct H as [<-|[]]. now exists row, i.
Qed.

Lemma anchor_comment_keeps existing st item row :
  In row (fst st) -> In row (fst (anchor_comment existing st item)).
Proof.
  destruct st as [rows comments_by_id]. unfold anchor_comment. cbn [fst].
  destruct (negb (Py.truthy (Py.strip (fst item)))); [trivial|].
  destruct (Py.mem (Py.strip (fst item)) existing); cbn [fst]; [trivial|].
  intros H. apply in_or_app. now left.
Qed.

Lemma anchor_fold_keeps existing items : forall st row,
  In row (fst st) -> In row (fst (fold_left (anchor_comment existing) items st)).
Proof.
  induction items as [|item items IH]; intros st row H; cbn [fold_left]; [exact H|].
  apply IH. now apply anchor_comment_keeps.
Qed.

Lemma anchor_comment_adds existing st item :
  Py.truthy (Py.strip (fst item)) = true ->
  Py.mem (Py.strip (fst item)) existing = true
  \/ exists row, In row (fst (anchor_comment existing st item))
                 /\ cm_id row = Some (Py.strip (fst item)).
Proof.
  intros Ht. destruct st as [rows comments_by_id]. unfold anchor_comment.
  rewrite Ht. cbn [negb].
  destruct (Py.mem (Py.strip (fst item)) existing); [now left|].
  right. cbn [fst]. eexists. split; [apply in_or_app; right; now left|]. reflexivity.
Qed.

Lemma anchor_fold_adds existing items : forall st item,
  In item items ->
  Py.truthy (Py.strip (fst item)) = true ->
  Py.mem (Py.strip (fst item)) existing = true
  \/ exists row, In row (fst (fold_left (anchor_comment existing) items st))
                 /\ cm_id row = Some (Py.strip (fst item)).
Proof.
  induction items as [|item0 items IH]; intros st item; [intros []|].
  intros [->|Hin] Ht; cbn [fold_left].
  - destruct (anchor_comment_adds existing st item Ht) as [H|(row & Hrow & Hid)];
      [now left|].
    right. exists row. split; [now apply anchor_fold_keeps|exact Hid].
  - now apply IH.
Qed.

Lemma annotate_keeps_ids raw rows i :
  In (Some i) (map cm_id rows) ->
  exists row,
    In row (_annotate_event_positions cm_position cm_text set_comment_position raw rows)
    /\ cm_id row = Some i.
Proof.
  intros H.
  rewrite <- (annotate_map cm_position cm_text set_comment_position cm_id
                (fun e k => eq_refl) raw rows) in H.
  apply in_map_iff in H. destruct H as (row & Hid & Hin). now exists row.
Qed.

(** X11.  Every comment id that a paragraph with text carries has a row in
    [comments]: the row read from a comments part when there is one with
    that id, and otherwise a row made from the anchor.  The ids are compared
    trimmed, and an id that is blank once trimmed has no row of its own. *)
Theorem anchored_comment_ids_have_rows :
  forall (fromstring : string -> option Element) (r : Element)
         (comments_xml_parts : list string) (people_xml : option string)
         (paragraph : Element) (cid : string),
    In paragraph (findall "p" r) ->
    Py.truthy (Py.strip (_collect_text paragraph)) = true ->
    In cid (_collect_comment_ids paragraph) ->
    Py.strip cid <> "" ->
    exists row i,
      In row (comments (extract fromstring r comments_xml_parts people_xml)) /\
      cm_id row = Some i /\
      Py.strip i = Py.strip cid.
Proof.
  intros fromstring r parts people paragraph cid Hp Ht Hc Hne.
  destruct (anchor_of_paragraph r paragraph cid Hp Ht Hc) as [anchor Hanchor].
  assert (Htr : Py.truthy (Py.strip (fst (cid, anchor))) = true).
  { cbn [fst]. unfold Py.truthy. destruct (String.eqb_spec (Py.strip cid) ""); [contradiction|].
    reflexivity. }
  unfold extract.
  destruct (read_parts fromstring _ _ parts ([], [])) as [st parsed].
  set (st1 := if parsed then st else (fst st ++ [unparsed_row], snd st)).
  pose proof (anchor_fold_adds (existing_ids (fst st1))
                (comment_anchor_by_id (paragraph_rows r)) st1 (cid, anchor) Hanchor Htr)
    as Hadd.
  pose proof (anchor_fold_keeps (existing_ids (fst st1))
                (comment_anchor_by_id (paragraph_rows r)) st1) as Hkeep.
  destruct (fold_left (anchor_comment (existing_ids (fst st1)))
              (comment_anchor_by_id (paragraph_rows r)) st1)
    as [rows_c comments_by_id].
  cbn [fst] in Hadd, Hkeep. cbn [comments].
  assert (Hrow : exists row i, In row rows_c /\ cm_id row = Some i
                               /\ Py.strip i = Py.strip cid).
  { destruct Hadd as [Hex|(row & Hrow & Hid)].
    - apply existing_ids_row in Hex. destruct Hex as (row & i & Hrow & Hid & Hi).
      exists row, i. split; [now apply Hkeep|]. now split.
    - exists row, (Py.strip cid). split; [exact Hrow|]. split; [exact Hid|].
      apply strip_idem. }
  destruct Hrow as (row & i & Hrow & Hid & Hi).
  destruct rows_c as [|c0 cs]; [destruct Hrow|].
  destruct (annotate_keeps_ids
              (Py.strip (Py.join (NL ++ NL) (map fst (paragraph_rows r))))
              (c0 :: cs) i) as (row' & Hrow' & Hid').
  { rewrite <- Hid. now apply in_map. }
  exists row', i. split; [exact Hrow'|]. now split.
Qed.

Lemma anchored_comment_ids_have_rows_witness :
  exists row i,
    In row (comments (extract Example.fromstring Example.commented
                              [Lib.word_xml Example.comments_part2] None)) /\
    cm_id row = Some i /\
    Py.strip i = Py.strip "1".
Proof.
  apply (anchored_comment_ids_have_rows Example.fromstring Example.commented
           [Lib.word_xml Example.comments_part2] None
           (Example.at_id Example.commented 3) "1").
  - vm_compute. left. reflexivity.
  - vm_compute. reflexivity.
  - vm_compute. left. reflexivity.
  - vm_compute. discriminate.
Defined.

(* ------------------------------------------------------------------ *)
(** * The markers of a reply *)

Import DocxRedlineEditorService.

Lemma NoDup_app_intro {A} (l1 l2 : list A) :
  NoDup l1 -> NoDup l2 -> (forall a, In a l1 -> ~ In a l2) -> NoDup (l1 ++ l2).
Proof.
  induction l1 as [|a l1 IH]; intros H1 H2 Hd; [exact H2|].
  inversion H1 as [|? ? Ha Hl1]; subst. simpl. constructor.
  - intros K. apply in_app_or in K. destruct K as [K|K]; [contradiction|].
    apply (Hd a); [now left|exact K].
  - apply IH; trivial. intros b Hb. apply Hd. now right.
Qed.

Lemma find_app {A} (p : A -> bool) (l1 l2 : list A) :
  find p (l1 ++ l2) = match find p l1 with Some x => Some x | None => find p l2 end.
Proof.
  induction l1 as [|a l1 IH]; simpl; [reflexivity|]. destruct (p a); [reflexivity|exact IH].
Qed.

Lemma iter_within x l : In x (flat_map iter l) -> forall i, In i (ids [x]) -> In i (ids l).
Proof.
  intros Hx i Hi. apply in_flat_map in Hx. destruct Hx as (c & Hc & Hxc).
  destruct (iter_segment x c Hxc) as (A & B & HAB).
  unfold ids in *. simpl in Hi. rewrite app_nil_r in Hi.
  apply in_map_iff in Hi. destruct Hi as (y & <- & Hy).
  apply in_map. apply in_flat_map. exists c. split; [exact Hc|].
  rewrite HAB. apply in_or_app. right. apply in_or_app. now left.
Qed.

Section AppendIds.

Variable pid : nat.
Variable new : list Element.

Local Abbreviation ac := (append_children pid new).

Lemma append_absent :
  forall e, ~ In pid (ids [e]) -> ac e = e.
Proof.
  induction e using Element_ind2 with
    (Q := fun l => ~ In pid (ids l) -> map ac l = l).
  - intros H. rewrite ids_cons in H. simpl in H. rewrite app_nil_r in H. simpl.
    destruct (Nat.eqb_spec i pid) as [->|Hne]; [exfalso; apply H; now left|].
    f_equal. apply IHe. intros K. apply H. now right.
  - reflexivity.
  - intros H. rewrite ids_cons in H. simpl. f_equal.
    + apply IHe. rewrite ids_cons. simpl. rewrite app_nil_r.
      intros [K|K]; apply H; [now left|]. right. apply in_or_app. now left.
    + apply IHe0. intros K. apply H. right. apply in_or_app. now right.
Qed.

Lemma append_absent_list l : ~ In pid (ids l) -> map ac l = l.
Proof.
  induction l as [|e l IH]; intros H; [reflexivity|].
  rewrite ids_cons in H. simpl. f_equal.
  - apply append_absent. rewrite ids_cons. simpl. rewrite app_nil_r.
    intros [K|K]; apply H; [now left|]. right. apply in_or_app. now left.
  - apply IH. intros K. apply H. right. apply in_or_app. now right.
Qed.

Lemma append_ids_in :
  forall e i, In i (ids [ac e]) -> In i (ids [e]) \/ In i (ids new).
Proof.
  induction e using Element_ind2 with
    (Q := fun l => forall j, In j (ids (map ac l)) -> In j (ids l) \/ In j (ids new)).
  - intros j. simpl append_children. destruct (i =? pid).
    + rewrite !ids_cons. simpl children. rewrite !app_nil_r, ids_app. simpl.
      intros [K|K]; [left; now left|]. apply in_app_or in K.
      destruct K as [K|K]; [left; now right|now right].
    + rewrite !ids_cons. simpl children. rewrite !app_nil_r. simpl.
      intros [K|K]; [left; now left|]. destruct (IHe j K) as [K'|K']; [left; now right|now right].
  - intros j [].
  - intros j. simpl map. change (ac e :: map ac cs) with ([ac e] ++ map ac cs).
    change (e :: cs) with ([e] ++ cs). rewrite !ids_app. intros K.
    apply in_app_or in K. destruct K as [K|K].
    + destruct (IHe j K) as [K'|K']; [left; apply in_or_app; now left|now right].
    + destruct (IHe0 j K) as [K'|K']; [left; apply in_or_app; now right|now right].
Qed.

Lemma append_ids_in_list l i :
  In i (ids (map ac l)) -> In i (ids l) \/ In i (ids new).
Proof.
  induction l as [|e l IH]; [intros []|].
  simpl map. change (ac e :: map ac l) with ([ac e] ++ map ac l).
  change (e :: l) with ([e] ++ l). rewrite !ids_app. intros K.
  apply in_app_or in K. destruct K as [K|K].
  - destruct (append_ids_in e i K) as [K'|K']; [left; apply in_or_app; now left|now right].
  - destruct (IH K) as [K'|K']; [left; apply in_or_app; now right|now right].
Qed.

Hypothesis new_distinct : NoDup (ids new).

Lemma append_NoDup :
  forall e, NoDup (ids [e]) -> (forall i, In i (ids new) -> ~ In i (ids [e])) ->
            NoDup (ids [ac e]).
Proof.
  induction e using Element_ind2 with
    (Q := fun l => NoDup (ids l) -> (forall j, In j (ids new) -> ~ In j (ids l)) ->
                   NoDup (ids (map ac l))).
  - intros Hnd Hfresh. rewrite ids_cons in Hnd. simpl in Hnd. rewrite app_nil_r in Hnd.
    inversion Hnd as [|? ? Hi Hcs]; subst.
    assert (Hfresh' : forall j, In j (ids new) -> ~ In j (ids cs)).
    { intros j Hj K. apply (Hfresh j Hj). rewrite ids_cons. simpl. rewrite app_nil_r.
      now right. }
    assert (Hinew : ~ In i (ids new)).
    { intros K. apply (Hfresh i K). rewrite ids_cons. now left. }
    simpl append_children. destruct (i =? pid).
    + rewrite ids_cons. simpl children. rewrite app_nil_r, ids_app. simpl. constructor.
      * intros K. apply in_app_or in K. destruct K as [K|K]; contradiction.
      * apply NoDup_app_intro; trivial. intros j Hj K. exact (Hfresh' j K Hj).
    + rewrite ids_cons. simpl children. rewrite app_nil_r. simpl. constructor.
      * intros K. destruct (append_ids_in_list cs i K); contradiction.
      * now apply IHe.
  - intros _ _. constructor.
  - intros Hnd Hfresh. change (e :: cs) with ([e] ++ cs) in Hnd, Hfresh.
    rewrite ids_app in Hnd.
    destruct (NoDup_app_disjoint _ _ Hnd) as (Hnd1 & Hnd2 & Hdis).
    assert (Hf1 : forall j, In j (ids new) -> ~ In j (ids [e])).
    { intros j Hj K. apply (Hfresh j Hj). rewrite ids_app. apply in_or_app. now left. }
    assert (Hf2 : forall j, In j (ids new) -> ~ In j (ids cs)).
    { intros j Hj K. apply (Hfresh j Hj). rewrite ids_app. apply in_or_app. now right. }
    simpl map. change (ac e :: map ac cs) with ([ac e] ++ map ac cs). rewrite ids_app.
    destruct (in_dec Nat.eq_dec pid (ids [e])) as [Hin|Hout].
    + rewrite (append_absent_list cs (Hdis pid Hin)).
      apply NoDup_app_intro; [now apply IHe|exact Hnd2|].
      intros j Hj K. destruct (append_ids_in e j Hj) as [K'|K'].
      * exact (Hdis j K' K).
      * exact (Hf2 j K' K).
    + rewrite (append_absent e Hout).
      apply NoDup_app_intro; [exact Hnd1|now apply IHe0|].
      intros j Hj K. destruct (append_ids_in_list cs j K) as [K'|K'].
      * exact (Hdis j Hj K').
      * exact (Hf1 j K' Hj).
Qed.

(** The object an identity refers to, after the append. *)
Lemma append_lookup n :
  ~ In n (ids new) ->
  forall e, NoDup (ids [e]) -> lookup n (ac e) = option_map ac (lookup n e).
Proof.
  intros Hn.
  assert (Hnew : find (fun x => eid x =? n) (flat_map iter new) = None).
  { destruct (find (fun x => eid x =? n) (flat_map iter new)) as [y|] eqn:E; [|reflexivity].
    exfalso. apply find_some in E. destruct E as [Hy He]. apply Nat.eqb_eq in He.
    apply Hn. rewrite <- He. now apply in_ids_iter. }
  unfold lookup.
  induction e using Element_ind2 with
    (Q := fun l => NoDup (ids l) ->
                   find (fun x => eid x =? n) (flat_map iter (map ac l))
                   = option_map ac (find (fun x => eid x =? n) (flat_map iter l))).
  - intros Hnd. rewrite ids_cons in Hnd. simpl in Hnd. rewrite app_nil_r in Hnd.
    inversion Hnd as [|? ? Hi Hcs]; subst.
    simpl append_children. destruct (Nat.eqb_spec i pid) as [Hp|Hp].
    + cbn [iter find eid]. destruct (i =? n) eqn:Ein.
      * simpl. rewrite (proj2 (Nat.eqb_eq i pid) Hp). reflexivity.
      * rewrite flat_map_app, find_app, Hnew.
        destruct (find (fun x => eid x =? n) (flat_map iter cs)) as [hit|] eqn:Ey;
          [|reflexivity].
        simpl. f_equal. symmetry. apply append_absent.
        apply find_some in Ey. destruct Ey as [Hy _].
        intros K. apply Hi. rewrite Hp. exact (iter_within hit cs Hy pid K).
    + cbn [iter find eid]. destruct (i =? n) eqn:Ein.
      * simpl. rewrite (proj2 (Nat.eqb_neq i pid) Hp). reflexivity.
      * now apply IHe.
  - intros _. reflexivity.
  - intros Hnd. change (e :: cs) with ([e] ++ cs) in Hnd. rewrite ids_app in Hnd.
    destruct (NoDup_app_disjoint _ _ Hnd) as (Hnd1 & Hnd2 & _).
    cbn [map flat_map]. rewrite !find_app, (IHe Hnd1).
    destruct (find (fun x => eid x =? n) (iter e)); [reflexivity|].
    now apply IHe0.
Qed.

(** What was in the tree is still there, such as it was apart from its
    children. *)
Lemma append_keeps_labels :
  forall e y, In y (iter e) -> exists y', In y' (iter (ac e)) /\ label y' = label y.
Proof.
  induction e using Element_ind2 with
    (Q := fun l => forall z, In z (flat_map iter l) ->
                   exists z', In z' (flat_map iter (map ac l)) /\ label z' = label z).
  - intros z Hz. cbn [iter] in Hz. destruct Hz as [<-|Hz].
    + exists (ac (Elem i t a x y cs)). split; [rewrite iter_eq; now left|apply append_label].
    + simpl append_children. destruct (i =? pid).
      * exists z. split; [|reflexivity]. cbn [iter]. right.
        rewrite flat_map_app. apply in_or_app. now left.
      * destruct (IHe z Hz) as (z' & Hz' & Hl). exists z'. split; [|exact Hl].
        cbn [iter]. now right.
  - intros z [].
  - intros z Hz. cbn [flat_map] in Hz. apply in_app_or in Hz. destruct Hz as [Hz|Hz].
    + destruct (IHe z Hz) as (z' & Hz' & Hl). exists z'. split; [|exact Hl].
      cbn [map flat_map]. apply in_or_app. now left.
    + destruct (IHe0 z Hz) as (z' & Hz' & Hl). exists z'. split; [|exact Hl].
      cbn [map flat_map]. apply in_or_app. now right.
Qed.

Lemma append_keeps_comment_ids e v :
  In v (_collect_comment_ids (Some e)) -> In v (_collect_comment_ids (Some (ac e))).
Proof.
  unfold _collect_comment_ids. intros H. apply in_flat_map in H.
  destruct H as (y & Hy & Hv).
  destruct (append_keeps_labels e y Hy) as (y' & Hy' & Hl).
  apply in_flat_map. exists y'. split; [exact Hy'|].
  unfold label in Hl. injection Hl as _ Ht Ha _ _.
  unfold is_comment_marker in *. rewrite Ht, Ha. exact Hv.
Qed.

End AppendIds.

Lemma ids_single r : ids [r] = map eid (iter r).
Proof. unfold ids. simpl. now rewrite app_nil_r. Qed.

Lemma unique_keeps l v : In v l -> In v (Py.unique l).
Proof.
  unfold Py.unique.
  assert (H : forall out, In v out \/ In v l ->
                In v (fold_left (fun out x => if Py.mem x out then out else out ++ [x]) l out)).
  { induction l as [|x l IH]; intros out [K|K]; cbn [fold_left]; trivial.
    - destruct K.
    - apply IH. left. destruct (Py.mem x out); [exact K|apply in_or_app; now left].
    - destruct K as [->|K]; apply IH; [left|now right].
      destruct (Py.mem v out) eqn:E; [now apply mem_In|apply in_or_app; right; now left]. }
  intros K. apply H. now right.
Qed.

(** The elements a reply appends to its paragraph. *)
Local Abbreviation markers n cid :=
  [Elem n (w "commentRangeStart") [(w "id", cid)] None None [];
   Elem (n + 1) (w "commentRangeEnd") [(w "id", cid)] None None [];
   Elem (n + 2) (w "r") [] None None
     [Elem (n + 3) (w "commentReference") [(w "id", cid)] None None []]].

Lemma markers_ids n cid : ids (markers n cid) = [n; n + 1; n + 2; n + 3].
Proof. reflexivity. Qed.

Lemma markers_distinct n cid : NoDup (ids (markers n cid)).
Proof.
  rewrite markers_ids. repeat constructor; simpl; intros K;
    repeat (destruct K as [K|K]; [lia|]); exact K.
Qed.

Lemma markers_carry n cid p e :
  eid e = p ->
  In cid (_collect_comment_ids (Some (append_children p (markers n cid) e))).
Proof.
  intros Hp. destruct e as [i t a x y ch]. simpl in Hp. subst p.
  unfold _collect_comment_ids. simpl append_children. rewrite Nat.eqb_refl.
  apply in_flat_map.
  exists (Elem n (w "commentRangeStart") [(w "id", cid)] None None []). split.
  - cbn [iter]. right. rewrite flat_map_app. apply in_or_app. right. now left.
  - now left.
Qed.

Lemma reply_step_doc now_iso st paragraph txt parent_comment_ids :
  let st' := reply_step now_iso st (paragraph, txt, parent_comment_ids) in
  root (rs_doc st')
  = append_children paragraph
      (markers (next_id (rs_doc st) + 4) (Py.str_of_Z (rs_next st)))
      (root (rs_doc st)) /\
  next_id (rs_doc st') = next_id (rs_doc st) + 4 + 4 /\
  rs_next st' = (rs_next st + 1)%Z.
Proof. repeat split. Qed.

(** The identities of the tree are distinct and were given out before
    [next_id]. *)
Local Abbreviation settled d :=
  (NoDup (ids [root d]) /\ forall i, In i (ids [root d]) -> i < next_id d).

Lemma reply_step_settled now_iso st reply :
  settled (rs_doc st) -> settled (rs_doc (reply_step now_iso st reply)).
Proof.
  destruct reply as [[paragraph txt] parent_comment_ids]. intros [Hnd Hlt].
  destruct (reply_step_doc now_iso st paragraph txt parent_comment_ids) as (Hr & Hn & _).
  cbv zeta in Hr, Hn. rewrite Hr, Hn. split.
  - apply append_NoDup; [apply markers_distinct|exact Hnd|].
    intros i Hi K. specialize (Hlt i K). rewrite markers_ids in Hi. simpl in Hi.
    repeat (destruct Hi as [Hi|Hi]; [lia|]). exact Hi.
  - intros i Hi. apply append_ids_in in Hi. destruct Hi as [Hi|Hi].
    + specialize (Hlt i Hi). lia.
    + rewrite markers_ids in Hi. simpl in Hi.
      repeat (destruct Hi as [Hi|Hi]; [lia|]). destruct Hi.
Qed.

(** The object [q] after a reply: the object it was, with the markers of the
    reply where the reply appended them. *)
Lemma reply_step_lookup now_iso st paragraph txt parent_comment_ids q para :
  settled (rs_doc st) ->
  lookup q (root (rs_doc st)) = Some para ->
  lookup q (root (rs_doc (reply_step now_iso st (paragraph, txt, parent_comment_ids))))
  = Some (append_children paragraph
            (markers (next_id (rs_doc st) + 4) (Py.str_of_Z (rs_next st))) para).
Proof.
  intros [Hnd Hlt] Hq.
  destruct (reply_step_doc now_iso st paragraph txt parent_comment_ids) as (Hr & _).
  cbv zeta in Hr. rewrite Hr, append_lookup, Hq; [reflexivity| |exact Hnd].
  intros K. rewrite markers_ids in K.
  assert (q < next_id (rs_doc st)).
  { apply Hlt. rewrite ids_single. unfold lookup in Hq. apply find_some in Hq.
    destruct Hq as [Hin He]. apply Nat.eqb_eq in He. rewrite <- He. now apply in_map. }
  simpl in K. repeat (destruct K as [K|K]; [lia|]). exact K.
Qed.

Lemma replies_keep_comment_ids now_iso replies : forall st q para v,
  settled (rs_doc st) ->
  lookup q (root (rs_doc st)) = Some para ->
  In v (_collect_comment_ids (Some para)) ->
  exists para',
    lookup q (root (rs_doc (fold_left (reply_step now_iso) replies st))) = Some para' /\
    tag para' = tag para /\
    In v (_collect_comment_ids (Some para')).
Proof.
  induction replies as [|reply replies IH]; intros st q para v Hs Hq Hv; cbn [fold_left].
  - now exists para.
  - destruct reply as [[paragraph txt] parent_comment_ids].
    destruct (IH (reply_step now_iso st (paragraph, txt, parent_comment_ids)) q
                (append_children paragraph
                   (markers (next_id (rs_doc st) + 4) (Py.str_of_Z (rs_next st))) para) v)
      as (para' & Hq' & Ht & Hv').
    + now apply reply_step_settled.
    + now apply reply_step_lookup.
    + now apply append_keeps_comment_ids.
    + exists para'. split; [exact Hq'|]. split; [|exact Hv'].
      rewrite Ht. apply append_tag.
Qed.

Lemma replies_mark_paragraphs now_iso replies : forall st k paragraph txt ids' para,
  settled (rs_doc st) ->
  nth_error replies k = Some (paragraph, txt, ids') ->
  lookup paragraph (root (rs_doc st)) = Some para ->
  exists para',
    lookup paragraph (root (rs_doc (fold_left (reply_step now_iso) replies st)))
    = Some para' /\
    tag para' = tag para /\
    In (Py.str_of_Z (rs_next st + Z.of_nat k)) (_collect_comment_ids (Some para')).
Proof.
  induction replies as [|reply replies IH]; intros st k paragraph txt ids' para Hs Hk Hq.
  - destruct k; discriminate.
  - cbn [fold_left]. destruct k as [|k].
    + injection Hk as ->.
      destruct (replies_keep_comment_ids now_iso replies
                  (reply_step now_iso st (paragraph, txt, ids')) paragraph
                  (append_children paragraph
                     (markers (next_id (rs_doc st) + 4) (Py.str_of_Z (rs_next st))) para)
                  (Py.str_of_Z (rs_next st)))
        as (para' & Hq' & Ht & Hv').
      * now apply reply_step_settled.
      * now apply reply_step_lookup.
      * apply markers_carry. unfold lookup in Hq. apply find_some in Hq.
        destruct Hq as [_ He]. now apply Nat.eqb_eq in He.
      * exists para'. split; [exact Hq'|]. split; [rewrite Ht; apply append_tag|].
        rewrite Z.add_0_r. exact Hv'.
    + destruct reply as [[paragraph0 txt0] ids0]. cbn [nth_error] in Hk.
      destruct (IH (reply_step now_iso st (paragraph0, txt0, ids0)) k paragraph txt ids'
                  (append_children paragraph0
                     (markers (next_id (rs_doc st) + 4) (Py.str_of_Z (rs_next st))) para))
        as (para' & Hq' & Ht & Hv').
      * now apply reply_step_settled.
      * exact Hk.
      * now apply reply_step_lookup.
      * exists para'. split; [exact Hq'|]. split; [rewrite Ht; apply append_tag|].
        destruct (reply_step_doc now_iso st paragraph0 txt0 ids0) as (_ & _ & Hn).
        cbv zeta in Hn. rewrite Hn in Hv'.
        replace (rs_next st + Z.of_nat (S k))%Z with (rs_next st + 1 + Z.of_nat k)%Z by lia.
        exact Hv'.
Qed.

(** X12.  A reply is tied to its paragraph by the id of its comment.  After
    the replies of a batch are written, the paragraph of the k-th reply is
    still the object it was and carries a comment marker whose id is the id
    given to the comment of that reply, the first free id plus k; so an
    extraction of the written document lists that id among the comment ids of
    the paragraph. *)
Theorem reply_markers_carry_the_comment_id :
  forall (int_of_str : string -> option Z) (now_iso : nat -> string)
         (comments_root : Element) (d : Document) (replies : list Reply)
         (k : nat) (paragraph : nat) (txt : string) (parent_comment_ids : list string)
         (para : Element),
    NoDup (map eid (iter (root d))) ->
    (forall i, In i (map eid (iter (root d))) -> i < next_id d) ->
    nth_error replies k = Some (paragraph, txt, parent_comment_ids) ->
    lookup paragraph (root d) = Some para ->
    let st := _apply_replies_as_docx_comments int_of_str now_iso comments_root d replies in
    let comment_id :=
      Py.str_of_Z (_next_comment_id int_of_str comments_root + Z.of_nat k) in
    exists para',
      lookup paragraph (root (rs_doc st)) = Some para' /\
      tag para' = tag para /\
      In comment_id (_collect_comment_ids (Some para')) /\
      In comment_id (CorpusParserService._collect_comment_ids para').
Proof.
  intros int_of_str now_iso comments_root d replies k paragraph txt parent_comment_ids para
         Hnd Hlt Hk Hq st comment_id.
  subst st comment_id. unfold _apply_replies_as_docx_comments.
  destruct (replies_mark_paragraphs now_iso replies
              {| rs_comments := comments_root; rs_doc := d;
                 rs_next := _next_comment_id int_of_str comments_root; rs_clock := 0 |}
              k paragraph txt parent_comment_ids para)
    as (para' & Hq' & Ht & Hv).
  - cbn [rs_doc]. rewrite ids_single. split; [exact Hnd|exact Hlt].
  - exact Hk.
  - exact Hq.
  - exists para'. split; [exact Hq'|]. split; [exact Ht|]. split; [exact Hv|].
    unfold CorpusParserService._collect_comment_ids. apply unique_keeps. exact Hv.
Qed.

Lemma reply_markers_carry_the_comment_id_witness :
  exists para',
    lookup 3
      (root (rs_doc (_apply_replies_as_docx_comments Lib.int_of_str (Example.clock "00")
                       Example.comments_part (Example.document_of Example.contract)
                       [(14, "agreed", []); (3, "why?", ["1"])])))
    = Some para' /\
    In "3" (CorpusParserService._collect_comment_ids para').
Proof.
  destruct (reply_markers_carry_the_comment_id Lib.int_of_str (Example.clock "00")
              Example.comments_part (Example.document_of Example.contract)
              [(14, "agreed", []); (3, "why?", ["1"])] 1 3 "why?" ["1"]
              (Example.at_id Example.contract 3))
    as (para' & Hq & _ & _ & Hin).
  - apply distinct_NoDup. vm_compute. reflexivity.
  - apply below_all. vm_compute. reflexivity.
  - reflexivity.
  - vm_compute. reflexivity.
  - exists para'. split; [exact Hq|]. exact Hin.
Defined.

(* ------------------------------------------------------------------ *)
(** * A comments part that does not parse *)

Import CorpusParserService.

Section Unparsed.

Variable fromstring : string -> option Element.

Lemma read_parts_stop anchors people_by_id bad parts2 :
  fromstring bad = None ->
  forall parts1 st,
    read_parts fromstring anchors people_by_id (parts1 ++ bad :: parts2) st
    = read_parts fromstring anchors people_by_id (parts1 ++ [bad]) st /\
    snd (read_parts fromstring anchors people_by_id (parts1 ++ [bad]) st) = false.
Proof.
  intros Hbad. induction parts1 as [|part parts1 IH]; intros st; cbn [app read_parts].
  - rewrite Hbad. now split.
  - destruct (fromstring part); [apply IH|now split].
Qed.

End Unparsed.

(** X13.  A comments part that does not parse does not fail the extraction.
    The reading of the comment parts stops there: the parts that come after
    are not read, whatever they hold, and one row without id says that a
    comments part could not be parsed.  The status stays ready. *)
Theorem unparsed_comments_part_stops_the_reading :
  forall (fromstring : string -> option Element) (r : Element)
         (parts1 : list string) (bad : string) (parts2 : list string)
         (people_xml : option string),
    fromstring bad = None ->
    let document := extract fromstring r (parts1 ++ bad :: parts2) people_xml in
    document = extract fromstring r (parts1 ++ [bad]) people_xml /\
    parser_status document = "ready" /\
    parse_error document = None /\
    exists row,
      In row (comments document) /\
      cm_id row = None /\
      cm_text row = "comments part exists but could not be parsed" /\
      cm_source row = "comments".
Proof.
  intros fromstring r parts1 bad parts2 people_xml Hbad document.
  assert (Heq : document = extract fromstring r (parts1 ++ [bad]) people_xml).
  { subst document. unfold extract.
    match goal with
    | |- context [read_parts fromstring ?an ?pe (parts1 ++ bad :: parts2) ?st] =>
        rewrite (proj1 (read_parts_stop fromstring an pe bad parts2 Hbad parts1 st))
    end. reflexivity. }
  split; [exact Heq|]. rewrite Heq. clear Heq document. unfold extract.
  match goal with
  | |- context [read_parts fromstring ?an ?pe (parts1 ++ [bad]) ?st] =>
      pose proof (proj2 (read_parts_stop fromstring an pe bad parts2 Hbad parts1 st)) as Hstop;
      destruct (read_parts fromstring an pe (parts1 ++ [bad]) st) as [st1 parsed]
  end.
  cbn [snd] in Hstop. subst parsed.
  match goal with
  | |- context [fold_left (anchor_comment ?ex) ?an ?s] =>
      pose proof (anchor_fold_keeps ex an s unparsed_row) as Hkeep;
      destruct (fold_left (anchor_comment ex) an s) as [rows_c comments_by_id]
  end.
  cbn [fst] in Hkeep.
  assert (Hin : In unparsed_row rows_c).
  { apply Hkeep. apply in_or_app. right. now left. }
  cbn [parser_status parse_error comments].
  split; [reflexivity|]. split; [reflexivity|].
  destruct rows_c as [|c0 cs]; [destruct Hin|].
  match goal with
  | |- context [_annotate_event_positions cm_position cm_text set_comment_position ?raw ?rows] =>
      pose proof (annotate_map cm_position cm_text set_comment_position
                    (fun c => (cm_id c, cm_text c, cm_source c))
                    (fun e k => eq_refl) raw rows) as Hmap
  end.
  assert (Hrow : In (cm_id unparsed_row, cm_text unparsed_row, cm_source unparsed_row)
                    (map (fun c => (cm_id c, cm_text c, cm_source c)) (c0 :: cs)))
    by exact (in_map (fun c => (cm_id c, cm_text c, cm_source c)) _ _ Hin).
  rewrite <- Hmap in Hrow. apply in_map_iff in Hrow.
  destruct Hrow as (row & Hf & Hrow). exists row. split; [exact Hrow|].
  injection Hf as H1 H2 H3. now repeat split.
Qed.

Lemma unparsed_comments_part_stops_the_reading_witness :
  Example.fromstring "not xml" = None /\
  extract Example.fromstring Example.commented
    ([Lib.word_xml Example.comments_part2] ++ "not xml" :: [Lib.word_xml Example.comments_part])
    None
  = extract Example.fromstring Example.commented
      ([Lib.word_xml Example.comments_part2] ++ ["not xml"]) None.
Proof.
  assert (H : Example.fromstring "not xml" = None) by (vm_compute; reflexivity).
  split; [exact H|].
  exact (proj1 (unparsed_comments_part_stops_the_reading Example.fromstring
                  Example.commented [Lib.word_xml Example.comments_part2] "not xml"
                  [Lib.word_xml Example.comments_part] None H)).
Defined.

(* ------------------------------------------------------------------ *)
(** * Where a comment is anchored *)

Import CorpusParserService.

(** ** Strings *)

Lemma substring_whole a : substring 0 (String.length a) a = a.
Proof. induction a as [|c a IH]; simpl; [reflexivity|]. now rewrite IH. Qed.

Lemma substring_app_head a s : substring 0 (String.length a) (a ++ s) = a.
Proof.
  induction a as [|c a IH]; simpl; [now destruct s|]. now rewrite IH.
Qed.

Lemma substring_app_skip a n m s :
  substring (String.length a + n) m (a ++ s) = substring n m s.
Proof. induction a as [|c a IH]; simpl; [reflexivity|exact IH]. Qed.

Lemma list_of_append a b :
  list_ascii_of_string (a ++ b) = list_ascii_of_string a ++ list_ascii_of_string b.
Proof. induction a as [|c a IH]; simpl; [reflexivity|]. now rewrite IH. Qed.

Lemma join_cons sep x y l :
  Py.join sep (x :: y :: l) = (x ++ sep ++ Py.join sep (y :: l))%string.
Proof. reflexivity. Qed.

(** ** Texts without blanks around them *)

Lemma lstrip_length l : length (Py.lstrip_l l) <= length l.
Proof.
  induction l as [|a l IH]; cbn [Py.lstrip_l]; [lia|].
  destruct (Py.isspace a); simpl; lia.
Qed.

Lemma lstrip_same_length l : length (Py.lstrip_l l) = length l -> Py.lstrip_l l = l.
Proof.
  destruct l as [|a l]; [reflexivity|]. cbn [Py.lstrip_l].
  destruct (Py.isspace a); [|reflexivity].
  intros H. pose proof (lstrip_length l). simpl in H. lia.
Qed.

(** A list of characters that starts and ends with a character that is not
    a blank. *)
Local Abbreviation tight l :=
  (l%list <> [] /\ Py.lstrip_l l = l%list /\ Py.lstrip_l (rev l) = rev l).

Lemma tight_strip l : tight l -> Py.strip_l l = l.
Proof.
  intros (_ & H1 & H2). unfold Py.strip_l. rewrite H1, H2. apply rev_involutive.
Qed.

Lemma strip_tight l : Py.strip_l l = l -> l <> [] -> tight l.
Proof.
  intros H Hne. split; [exact Hne|].
  assert (Hlen : length (Py.strip_l l) = length l) by now rewrite H.
  unfold Py.strip_l in Hlen. rewrite length_rev in Hlen.
  pose proof (lstrip_length (rev (Py.lstrip_l l))) as L1.
  pose proof (lstrip_length l) as L2. rewrite length_rev in L1.
  assert (E1 : Py.lstrip_l l = l) by (apply lstrip_same_length; lia).
  split; [exact E1|]. apply lstrip_same_length. rewrite E1 in Hlen.
  rewrite Hlen. now rewrite length_rev.
Qed.

Lemma tight_app a m b : tight a -> tight b -> tight (a ++ m ++ b).
Proof.
  intros (Ha & Ha1 & _) (Hb & _ & Hb2). split; [|split].
  - destruct a; [contradiction|discriminate].
  - destruct a as [|c a]; [contradiction|].
    apply (lstrip_fixed _ c (a ++ m ++ b) eq_refl). exact (lstrip_head _ _ _ Ha1).
  - rewrite !rev_app_distr, <- app_assoc.
    destruct (rev b) as [|c rb] eqn:E.
    + exfalso. apply Hb. apply (f_equal (@rev ascii)) in E.
      now rewrite rev_involutive in E.
    + apply (lstrip_fixed _ c (rb ++ rev m ++ rev a) eq_refl).
      exact (lstrip_head _ _ _ Hb2).
Qed.

Lemma tight_join sep texts :
  texts <> [] ->
  (forall txt, In txt texts -> tight (list_ascii_of_string txt)) ->
  tight (list_ascii_of_string (Py.join sep texts)).
Proof.
  induction texts as [|x texts IH]; intros Hne H; [contradiction|].
  destruct texts as [|y texts]; [apply H; now left|].
  rewrite join_cons, !list_of_append. apply tight_app.
  - apply H. now left.
  - apply IH; [discriminate|]. intros txt Htxt. apply H. now right.
Qed.

Lemma strip_join sep texts :
  (forall txt, In txt texts -> Py.strip txt = txt /\ txt <> "") ->
  Py.strip (Py.join sep texts) = Py.join sep texts.
Proof.
  intros H. destruct texts as [|x texts]; [reflexivity|].
  unfold Py.strip. rewrite tight_strip; [apply string_of_list_ascii_of_string|].
  apply tight_join; [discriminate|].
  intros txt Htxt. destruct (H txt Htxt) as [Hs Hne]. apply strip_tight.
  - unfold Py.strip in Hs. apply (f_equal list_ascii_of_string) in Hs.
    now rewrite list_ascii_of_string_of_list_ascii in Hs.
  - destruct txt; [contradiction|discriminate].
Qed.

(** ** Where a row starts *)

Lemma offset_app before row :
  offset (before ++ [row]) = offset before + String.length (fst row) + 2.
Proof.
  unfold offset. induction before as [|r0 before IH]; simpl; [lia|].
  fold (offset before) in *. fold (offset (before ++ [row])) in *. lia.
Qed.

Lemma row_in_join (pre : list (string * list string)) row post :
  substring (offset pre) (String.length (fst row))
            (Py.join (NL ++ NL) (map fst (pre ++ row :: post)))
  = fst row.
Proof.
  induction pre as [|p0 pre IH].
  - cbn [app map offset fold_right]. destruct post as [|q post].
    + apply substring_whole.
    + cbn [map]. rewrite join_cons. apply substring_app_head.
  - cbn [app map]. destruct (map fst (pre ++ row :: post)) as [|y l] eqn:E.
    + destruct pre; discriminate.
    + rewrite join_cons. unfold offset. cbn [fold_right]. fold (offset pre).
      rewrite <- Nat.add_assoc, substring_app_skip.
      change 2 with (String.length (NL ++ NL)). rewrite substring_app_skip.
      exact IH.
Qed.

Lemma paragraph_rows_texts r txt :
  In txt (map fst (paragraph_rows r)) -> Py.strip txt = txt /\ txt <> "".
Proof.
  unfold paragraph_rows. intros H. apply in_map_iff in H.
  destruct H as (row & <- & H). apply in_flat_map in H. destruct H as (p & _ & H).
  cbv zeta in H. destruct (Py.truthy (Py.strip (_collect_text p))) eqn:E; [|destruct H].
  destruct H as [<-|[]]. cbn [fst]. split; [apply strip_idem|].
  intros K. rewrite K in E. discriminate.
Qed.

(** ** The anchors *)

Lemma dict_set_in {V} (dct : list (string * V)) k v k' v' :
  In (k', v') (Py.dict_set String.eqb dct k v) -> In (k', v') dct \/ (k' = k /\ v' = v).
Proof.
  induction dct as [|[k0 v0] dct IH]; simpl.
  - intros [[= <- <-]|[]]. now right.
  - destruct (String.eqb_spec k k0) as [->|Hne]; simpl.
    + intros [[= <- <-]|H]; [now right|left; now right].
    + intros [H|H]; [left; now left|]. destruct (IH H) as [K|K]; [left; now right|now right].
Qed.

Lemma anchor_ids_in cids (preview : string) (start : nat) : forall a k v,
  In (k, v)
     (fold_left (fun a cid =>
                   if Py.dict_mem String.eqb a cid then a
                   else Py.dict_set String.eqb a cid (preview, start))
                cids a) ->
  In (k, v) a \/ (In k cids /\ v = (preview, start)).
Proof.
  induction cids as [|c cids IH]; intros a k v; cbn [fold_left]; [now left|].
  intros H. destruct (IH _ _ _ H) as [K|[K1 K2]].
  - destruct (Py.dict_mem String.eqb a c); [now left|].
    apply dict_set_in in K. destruct K as [K|[-> ->]]; [now left|].
    right. split; [now left|reflexivity].
  - right. split; [now right|exact K2].
Qed.

(** What the anchors hold after the rows [done]: an anchor of a comment id
    is the start and the first 300 characters of a row that carries the
    id. *)
Local Abbreviation anchored done anchors :=
  (forall cid preview start,
     In (cid, (preview, start)) anchors ->
     exists pre row post,
       done = pre ++ row :: post /\ start = offset pre /\
       preview = Py.take 300 (fst row) /\ In cid (snd row)).

Lemma anchor_rows_inv rows : forall done anchors cursor,
  cursor = offset done -> anchored done anchors ->
  anchored (done ++ rows) (fst (fold_left anchor_row rows (anchors, cursor))).
Proof.
  induction rows as [|row rows IH]; intros done anchors cursor Hc Ha.
  - cbn [fold_left fst]. rewrite app_nil_r. exact Ha.
  - cbn [fold_left]. unfold anchor_row at 2.
    replace (done ++ row :: rows) with ((done ++ [row]) ++ rows)
      by (rewrite <- app_assoc; reflexivity).
    apply IH.
    + rewrite offset_app, Hc. lia.
    + intros cid preview start Hin. apply anchor_ids_in in Hin.
      destruct Hin as [Hin|[Hin Hv]].
      * destruct (Ha cid preview start Hin) as (pre & row0 & post & Hd & Hs & Hp & Hi).
        exists pre, row0, (post ++ [row]). split; [|now repeat split].
        rewrite Hd, <- app_assoc. reflexivity.
      * injection Hv as -> ->. exists done, row, []. now repeat split.
Qed.

Lemma anchors_point r cid preview start :
  In (cid, (preview, start)) (comment_anchor_by_id (paragraph_rows r)) ->
  exists txt,
    In txt (map fst (paragraph_rows r)) /\
    preview = Py.take 300 txt /\
    substring start (String.length txt)
              (Py.strip (Py.join (NL ++ NL) (map fst (paragraph_rows r))))
    = txt.
Proof.
  intros H. unfold comment_anchor_by_id in H.
  destruct (anchor_rows_inv (paragraph_rows r) [] [] 0 eq_refl
              ltac:(intros ? ? ? []) cid preview start H)
    as (pre & row & post & Hd & Hs & Hp & _).
  cbn [app] in Hd. exists (fst row). split; [|split; [exact Hp|]].
  - rewrite Hd, map_app. apply in_or_app. right. now left.
  - rewrite strip_join by apply paragraph_rows_texts.
    rewrite Hd, Hs. apply row_in_join.
Qed.

(** ** The rows of [comments] *)

(** What holds of a row that has an anchor text: it has a position too, and
    both are those of one paragraph of the document. *)
Local Abbreviation placed r row :=
  (forall preview,
     cm_anchor_text row = Some preview ->
     exists txt i,
       cm_position row = Some i /\
       preview = Py.take 300 txt /\
       In txt (map fst (paragraph_rows r)) /\
       substring i (String.length txt)
                 (Py.strip (Py.join (NL ++ NL) (map fst (paragraph_rows r))))
       = txt).

Section Placed.

Variable fromstring : string -> option Element.
Variable r : Element.
Variable people_by_id : list (string * string).

Local Abbreviation anchors := (comment_anchor_by_id (paragraph_rows r)).

Lemma add_comment_placed st comment :
  (forall row, In row (fst st) -> placed r row) ->
  forall row, In row (fst (add_comment anchors people_by_id st comment)) -> placed r row.
Proof.
  destruct st as [rows comments_by_id]. unfold add_comment. cbn [fst].
  intros Hst row Hin. apply in_app_or in Hin. destruct Hin as [Hin|[<-|[]]].
  - now apply Hst.
  - cbn [cm_anchor_text cm_position]. intros preview Hp.
    destruct (get comment (w "id")) as [cid|]; [|discriminate].
    destruct (Py.dict_get String.eqb anchors cid) as [[p s]|] eqn:Eg; [|discriminate].
    cbn [option_map fst snd] in *. injection Hp as ->.
    apply dict_get_In in Eg. destruct Eg as (k & Hk & _).
    destruct (anchors_point r k preview s Hk) as (txt & H1 & H2 & H3).
    exists txt, s. now repeat split.
Qed.

Lemma add_comments_placed l : forall st,
  (forall row, In row (fst st) -> placed r row) ->
  forall row, In row (fst (fold_left (add_comment anchors people_by_id) l st)) ->
              placed r row.
Proof.
  induction l as [|comment l IH]; intros st Hst; cbn [fold_left]; [exact Hst|].
  apply IH. now apply add_comment_placed.
Qed.

Lemma read_parts_placed parts : forall st,
  (forall row, In row (fst st) -> placed r row) ->
  forall row,
    In row (fst (fst (read_parts fromstring anchors people_by_id parts st))) ->
    placed r row.
Proof.
  induction parts as [|part parts IH]; intros st Hst; cbn [read_parts]; [exact Hst|].
  destruct (fromstring part) as [comments_root|]; [|exact Hst].
  apply IH. now apply add_comments_placed.
Qed.

Lemma anchor_comment_placed existing st item :
  In item anchors ->
  (forall row, In row (fst st) -> placed r row) ->
  forall row, In row (fst (anchor_comment existing st item)) -> placed r row.
Proof.
  destruct st as [rows comments_by_id]. destruct item as [cid [p s]].
  unfold anchor_comment. cbn [fst snd]. intros Hitem Hst.
  destruct (negb (Py.truthy (Py.strip cid))); [exact Hst|].
  destruct (Py.mem (Py.strip cid) existing); cbn [fst]; [exact Hst|].
  intros row Hin. apply in_app_or in Hin. destruct Hin as [Hin|[<-|[]]].
  - now apply Hst.
  - cbn [cm_anchor_text cm_position]. intros preview [= <-].
    destruct (anchors_point r cid p s Hitem) as (txt & H1 & H2 & H3).
    exists txt, s. now repeat split.
Qed.

Lemma anchor_comments_placed existing items : forall st,
  (forall item, In item items -> In item anchors) ->
  (forall row, In row (fst st) -> placed r row) ->
  forall row, In row (fst (fold_left (anchor_comment existing) items st)) ->
              placed r row.
Proof.
  induction items as [|item items IH]; intros st Hitems Hst; cbn [fold_left];
    [exact Hst|].
  apply IH.
  - intros it Hit. apply Hitems. now right.
  - apply anchor_comment_placed; [apply Hitems; now left|exact Hst].
Qed.

End Placed.

Lemma synthetic_placed r events row :
  In row (synthetic_comments events) -> placed r row.
Proof.
  unfold synthetic_comments. intros H. apply in_map_iff in H.
  destruct H as (cid & <- & _). cbn [cm_anchor_text]. discriminate.
Qed.

(** X14.  A comment row that has an anchor text has a position, and the two
    belong together: the anchor text is the first 300 characters of a
    paragraph of the document, and that paragraph reads in raw_text from the
    position on.  This holds of the rows read from the comment parts and of
    the rows made from the anchors alike; the search of
    _annotate_event_positions never moves such a position. *)
Theorem comment_anchor_points_at_paragraph :
  forall (fromstring : string -> option Element) (r : Element)
         (comments_xml_parts : list string) (people_xml : option string)
         (row : Comment) (preview : string),
    let document := extract fromstring r comments_xml_parts people_xml in
    In row (comments document) ->
    cm_anchor_text row = Some preview ->
    exists paragraph_text i,
      cm_position row = Some i /\
      In paragraph_text (map fst (paragraph_rows r)) /\
      preview = Py.take 300 paragraph_text /\
      substring i (String.length paragraph_text) (raw_text document) = paragraph_text.
Proof.
  intros fromstring r parts people_xml row preview document.
  assert (Hraw : raw_text document
                 = Py.strip (Py.join (NL ++ NL) (map fst (paragraph_rows r)))).
  { subst document. unfold extract.
    destruct (read_parts _ _ _ _ _) as [st parsed].
    destruct (fold_left _ _ _) as [rows_c comments_by_id]. reflexivity. }
  rewrite Hraw. clear Hraw.
  assert (Hall : forall row0, In row0 (comments document) -> placed r row0).
  { subst document. unfold extract.
    match goal with
    | |- context [read_parts fromstring ?an ?pe parts ?st] =>
        pose proof (read_parts_placed fromstring r pe parts st) as Hread;
        destruct (read_parts fromstring an pe parts st) as [st1 parsed]
    end.
    cbn [fst] in Hread.
    assert (H1 : forall row0, In row0 (fst st1) -> placed r row0).
    { apply Hread. intros ? []. }
    clear Hread.
    assert (H2 : forall row0,
               In row0 (fst (if parsed then st1 else (fst st1 ++ [unparsed_row], snd st1))) ->
               placed r row0).
    { destruct parsed; [exact H1|]. cbn [fst]. intros row0 Hin.
      apply in_app_or in Hin. destruct Hin as [Hin|[<-|[]]]; [now apply H1|].
      cbn [cm_anchor_text unparsed_row]. discriminate. }
    clear H1.
    match goal with
    | |- context [fold_left (anchor_comment ?ex) ?an ?s] =>
        pose proof (anchor_comments_placed r ex an s (fun item H => H) H2) as H3;
        destruct (fold_left (anchor_comment ex) an s) as [rows_c comments_by_id]
    end.
    cbn [fst] in H3. clear H2. cbn [comments].
    intros row0 Hin. apply annotate_in in Hin. destruct Hin as (e0 & Hin & He).
    assert (H0 : placed r e0).
    { destruct rows_c as [|c0 cs]; [exact (synthetic_placed r _ _ Hin)|now apply H3]. }
    destruct He as [->|(i & -> & Hnone & _)]; [exact H0|].
    cbn [cm_anchor_text set_comment_position]. intros preview0 Hp.
    destruct (H0 preview0 Hp) as (txt & j & Hj & _). rewrite Hj in Hnone. discriminate. }
  intros Hin Hp. destruct (Hall row Hin preview Hp) as (txt & i & H1 & H2 & H3 & H4).
  exists txt, i. now repeat split.
Qed.

Lemma comment_anchor_points_at_paragraph_witness :
  exists row,
    In row (comments (extract Example.fromstring Example.commented_second [] None)) /\
    cm_anchor_text row = Some "Late fees apply." /\
    exists paragraph_text i,
      cm_position row = Some i /\
      In paragraph_text (map fst (paragraph_rows Example.commented_second)) /\
      "Late fees apply." = Py.take 300 paragraph_text /\
      substring i (String.length paragraph_text)
        (raw_text (extract Example.fromstring Example.commented_second [] None))
      = paragraph_text.
Proof.
  pose (row := List.hd unparsed_row
                 (comments (extract Example.fromstring Example.commented_second [] None))).
  exists row.
  assert (Hin : In row (comments (extract Example.fromstring Example.commented_second
                                          [] None)))
    by (vm_compute; left; reflexivity).
  assert (Hp : cm_anchor_text row = Some "Late fees apply.") by (vm_compute; reflexivity).
  split; [exact Hin|]. split; [exact Hp|].
  exact (comment_anchor_points_at_paragraph Example.fromstring Example.commented_second
           [] None row "Late fees apply." Hin Hp).
Defined.
